(** * BingoBook: a shallow embedding of [server.js]

  The server is an Express application in front of one SQLite
  connection.  Its behaviour is spread over three layers, all of
  which are written in [server.js]:

  - the JavaScript of the route handlers (truthiness tests,
    [parseInt], [path.basename], array filtering and spreading);
  - the SQL text the handlers send (schema, statements, [LIKE]);
  - the three triggers installed by [initializeTimesheets].

  The development below follows that layering: module [JS] holds the
  request values and the JavaScript helpers, module [Sql] the storage
  classes, column affinities and operators the statements rely on,
  module [Db] the two tables with their triggers, and module [Server]
  the route handlers as state-passing functions.

  What the engine does and the file only uses is modelled from
  SQLite's documented behaviour with its default settings, which the
  server never changes: foreign keys are declared but not enforced,
  row triggers run once per affected row right after that row is
  changed, and a trigger may fire another trigger (only re-entering
  the same trigger is disabled by default). *)

From Stdlib Require Import ZArith List String Ascii Bool Lia.
From Stdlib Require Import DecimalString DecimalPos DecimalZ.
From Stdlib Require Import Sorted Permutation.
Import ListNotations.

Local Open Scope string_scope.
Local Open Scope Z_scope.

(* ===================================================================== *)
(** * Strings *)
(* ===================================================================== *)

Module Str.

(** Decimal rendering of an integer, as JavaScript's template
    literals and SQLite's integer-to-text conversion both produce
    it. *)
Definition of_Z (z : Z) : string := NilZero.string_of_int (Z.to_int z).

Fixpoint rev_onto (s acc : string) : string :=
  match s with
  | EmptyString => acc
  | String c s' => rev_onto s' (String c acc)
  end.

Definition rev (s : string) : string := rev_onto s EmptyString.

Fixpoint drop_while (p : ascii -> bool) (s : string) : string :=
  match s with
  | EmptyString => EmptyString
  | String c s' => if p c then drop_while p s' else s
  end.

Fixpoint take_while (p : ascii -> bool) (s : string) : string :=
  match s with
  | EmptyString => EmptyString
  | String c s' => if p c then String c (take_while p s') else EmptyString
  end.

Fixpoint map (f : ascii -> ascii) (s : string) : string :=
  match s with
  | EmptyString => EmptyString
  | String c s' => String (f c) (map f s')
  end.

Fixpoint mem (c : ascii) (s : string) : bool :=
  match s with
  | EmptyString => false
  | String d s' => Ascii.eqb c d || mem c s'
  end.

Definition is_slash (c : ascii) : bool := Ascii.eqb c "/".

Definition is_digit (c : ascii) : bool :=
  let n := nat_of_ascii c in (48 <=? n)%nat && (n <=? 57)%nat.

(** Tab, line feed, vertical tab, form feed, carriage return, space:
    the white space of SQLite and the ASCII part of JavaScript's. *)
Definition is_space (c : ascii) : bool :=
  let n := nat_of_ascii c in ((9 <=? n)%nat && (n <=? 13)%nat) || (n =? 32)%nat.

(** The value of a byte, 0 to 255.  A text is the sequence of bytes
    of its UTF-8 encoding, which is how node-sqlite3 hands a
    JavaScript string to the engine. *)
Definition byte (c : ascii) : Z := Z.of_N (N_of_ascii c).

(** The number a run of decimal digits stands for; the empty run
    counts as 0. *)
Definition digits_value (s : string) : Z :=
  match NilEmpty.uint_of_string s with
  | Some d => Z.of_uint d
  | None => 0
  end.

(** An optional sign in front of a text: is it a minus, and what
    follows. *)
Definition sign (s : string) : bool * string :=
  match s with
  | String "-" r => (true, r)
  | String "+" r => (false, r)
  | _ => (false, s)
  end.

End Str.

(* ===================================================================== *)
(** * JavaScript values and helpers *)
(* ===================================================================== *)

Module JS.

(** A field of [req.body].  [Undefined] is an absent field.  [Num z]
    is the number whose value is the integer [z], which is meant to be
    one a double represents exactly; numbers with a fraction, arrays
    and objects are left out. *)
Inductive value : Type :=
| Undefined
| Null
| Bool (b : bool)
| Num (z : Z)
| Str (s : string).

(** ToBoolean, which decides [!id] and [if (req.query.q)]. *)
Definition truthy (v : value) : bool :=
  match v with
  | Undefined | Null => false
  | Bool b => b
  | Num z => negb (z =? 0)
  | Str s => negb (s =? "")%string
  end.

(** The white space [parseInt] skips beyond ASCII, in UTF-8: U+00A0;
    U+1680, U+2000 to U+200A, U+2028, U+2029, U+202F, U+205F, U+3000
    and U+FEFF. *)
Definition two_byte_space (a b : ascii) : bool :=
  (Str.byte a =? 194) && (Str.byte b =? 160).

Definition three_byte_space (a b c : ascii) : bool :=
  let x := Str.byte a in
  let y := Str.byte b in
  let w := Str.byte c in
  ((x =? 225) && (y =? 154) && (w =? 128))
  || ((x =? 226) && (y =? 128)
      && (((128 <=? w) && (w <=? 138)) || (w =? 168) || (w =? 169) || (w =? 175)))
  || ((x =? 226) && (y =? 129) && (w =? 159))
  || ((x =? 227) && (y =? 128) && (w =? 128))
  || ((x =? 239) && (y =? 187) && (w =? 191)).

Fixpoint skip_white_space (s : string) : string :=
  match s with
  | String a r =>
      if Str.is_space a then skip_white_space r
      else
        match r with
        | String b r1 =>
            if two_byte_space a b then skip_white_space r1
            else
              match r1 with
              | String c r2 =>
                  if three_byte_space a b c then skip_white_space r2 else s
              | EmptyString => s
              end
        | EmptyString => s
        end
  | EmptyString => s
  end.

(** The double nearest to an integer, ties to the even significand
    of 53 bits.  (From 2^1024 on the result stands for Infinity, which
    like every number of that size equals no rowid.) *)
Definition to_double (z : Z) : Z :=
  let a := Z.abs z in
  let k := Z.log2 a + 1 - 53 in
  if k <=? 0 then z
  else
    let q := Z.shiftr a k in
    let r := a - Z.shiftl q k in
    let half := Z.shiftl 1 (k - 1) in
    let q' := if (half <? r) || ((r =? half) && Z.odd q) then q + 1 else q in
    Z.sgn z * Z.shiftl q' k.

(** [parseInt(s, 10)] on a string: leading white space is skipped, a
    sign is read, then the longest run of digits, whose value is
    rounded to a double; [None] is NaN. *)
Definition parseInt_string (s : string) : option Z :=
  let '(neg, s1) := Str.sign (skip_white_space s) in
  match Str.take_while Str.is_digit s1 with
  | EmptyString => None
  | d => let z := to_double (Str.digits_value d) in
         Some (if neg then - z else z)
  end.

(** The first digit of the text of a number of 10^21 or more, which
    is in exponent notation: the digits are the fewest that read back
    as the same double, and of the candidates with that many digits
    the nearest one.  [a] is the number, [inside] its rounding
    interval, [j] the number of digits tried. *)
Definition decimal_length (a : Z) : Z := Z.of_nat (String.length (Str.of_Z a)).

Definition leading_digit (a : Z) : Z := a / 10 ^ (decimal_length a - 1).

Fixpoint shortest_from (fuel : nat) (j : Z) (inside : Z -> bool) (a : Z) : Z :=
  match fuel with
  | O => leading_digit a
  | S fuel' =>
      let p := 10 ^ (decimal_length a - j) in
      let c1 := a / p * p in
      let c2 := c1 + p in
      if inside c1 && inside c2
      then leading_digit (if a - c1 <=? c2 - a then c1 else c2)
      else if inside c1 then leading_digit c1
      else if inside c2 then leading_digit c2
      else shortest_from fuel' (j + 1) inside a
  end.

Definition exponent_digit (a : Z) : Z :=
  let k := Z.log2 a + 1 - 53 in
  let m := Z.shiftr a k in
  let up := 2 ^ (k - 1) in
  let down := if m =? 2 ^ 52 then 2 ^ (k - 2) else 2 ^ (k - 1) in
  let inside c :=
    if Z.even m then (a - down <=? c) && (c <=? a + up)
    else (a - down <? c) && (c <? a + up) in
  shortest_from 17 1 inside a.

(** [parseInt(v, 10)]: the argument is first converted to a string.
    [undefined], [null] and booleans give NaN; a number below 10^21
    is written with all its digits and read back as itself; from
    10^21 on it is written as [d.ddde+nn] and only [d] is read. *)
Definition parseInt (v : value) : option Z :=
  match v with
  | Undefined | Null | Bool _ => None
  | Num z =>
      if Z.abs z <? 10 ^ 21 then Some z
      else Some (Z.sgn z * exponent_digit (Z.abs z))
  | Str s => parseInt_string s
  end.

(** [path.basename(p)] (POSIX): trailing slashes are ignored and the
    part after the last remaining slash is returned. *)
Definition basename (p : string) : string :=
  Str.rev (Str.take_while (fun c => negb (Str.is_slash c))
             (Str.drop_while Str.is_slash (Str.rev p))).

End JS.

(* ===================================================================== *)
(** * SQL values, affinities and operators *)
(* ===================================================================== *)

Module Sql.

Local Open Scope list_scope.

(** Storage classes.  [Real z] is a REAL whose value is the integer
    [z]: the only REAL a request can bring in through [Num].  Integers
    are not bounded here; the engine's have 64 bits. *)
Inductive value : Type :=
| Null
| Int (z : Z)
| Real (z : Z)
| Text (s : string).

(** How node-sqlite3 binds a JavaScript value to a [?]: [undefined]
    leaves the parameter unbound, which the engine reads as NULL;
    booleans are bound as integers; a number is bound as an integer
    when it is a 32-bit integer and as a double otherwise. *)
Definition bind (v : JS.value) : value :=
  match v with
  | JS.Undefined | JS.Null => Null
  | JS.Bool b => Int (if b then 1 else 0)
  | JS.Num z => if (- 2 ^ 31 <=? z) && (z <? 2 ^ 31) then Int z else Real z
  | JS.Str s => Text s
  end.

(** What the engine makes of a text where it wants a number.
    [NotNumeric]: the text is no numeral and stays text.  [Whole z]:
    it is a numeral and the engine reads the integer [z] from it.
    [Inexact]: it is a numeral that the engine turns into a REAL, or
    into an integer by rounding; which one depends on the engine's
    floating-point conversion, which is not followed here. *)
Inductive numeral : Type :=
| NotNumeric
| Whole (z : Z)
| Inexact.

Definition is_e (c : ascii) : bool := Ascii.eqb c "e" || Ascii.eqb c "E".

(** The value of a numeral with mantissa digits [m], of which
    [frac_len] follow the point, and exponent [e].  A numeral without
    point and exponent ([pure]) is an integer if it fits 64 bits.  Any
    other numeral is read as a double; its value is exact when it is
    an integer of at most 2^53, and left open otherwise (as it is
    when the exponent has five digits or more, which the engine
    clips). *)
Definition whole_value (pure neg : bool) (m frac_len : Z) (e : option (bool * Z))
  : numeral :=
  let signed z := if neg then - z else z in
  if pure then
    if (- 2 ^ 63 <=? signed m) && (signed m <? 2 ^ 63) then Whole (signed m)
    else Inexact
  else if m =? 0 then Whole 0
  else
    let '(eneg, ev) := match e with Some x => x | None => (false, 0) end in
    if 10000 <=? ev then Inexact
    else
      let k := (if eneg then - ev else ev) - frac_len in
      if 16 <? k then Inexact
      else
        let z := if 0 <=? k then m * 10 ^ k else m / 10 ^ (- k) in
        if (0 <=? k) || (m mod 10 ^ (- k) =? 0)
        then if z <=? 2 ^ 53 then Whole (signed z) else Inexact
        else Inexact.

(** The numerals of [sqlite3AtoF]: white space, an optional sign,
    digits with an optional point among them, an optional exponent
    ([e] or [E], an optional sign, at least one digit), white space;
    at least one digit before the exponent.  [unsigned_numeral] reads
    what follows the sign. *)
Definition unsigned_numeral (neg : bool) (s1 : string) : numeral :=
  let int_part := Str.take_while Str.is_digit s1 in
  let s2 := Str.drop_while Str.is_digit s1 in
  let '(dot, frac, s3) :=
    match s2 with
    | String "." r =>
        (true, Str.take_while Str.is_digit r, Str.drop_while Str.is_digit r)
    | _ => (false, EmptyString, s2)
    end in
  let '(e, e_ok, s4) :=
    match s3 with
    | String c r =>
        if is_e c then
          let '(eneg, r1) := Str.sign r in
          let ed := Str.take_while Str.is_digit r1 in
          (Some (eneg, Str.digits_value ed),
           negb (ed =? "")%string,
           Str.drop_while Str.is_digit r1)
        else (None, true, s3)
    | EmptyString => (None, true, s3)
    end in
  let mantissa := (int_part ++ frac)%string in
  if (Str.drop_while Str.is_space s4 =? "")%string
     && negb (mantissa =? "")%string && e_ok
  then whole_value (negb dot && match e with None => true | _ => false end) neg
                   (Str.digits_value mantissa)
                   (Z.of_nat (String.length frac)) e
  else NotNumeric.

Definition read_numeral (s : string) : numeral :=
  let '(neg, s1) := Str.sign (Str.drop_while Str.is_space s) in
  unsigned_numeral neg s1.

(** Column affinity TEXT ([firstName], [lastName], [additionalText],
    [signIn], [signOut]): numbers are stored as their text, a REAL
    with at least one digit after the point.  (From 10^15 on the
    engine writes a REAL in exponent notation; see [exact_text].) *)
Definition text_affinity (v : value) : value :=
  match v with
  | Int z => Text (Str.of_Z z)
  | Real z => Text (Str.of_Z z ++ ".0")
  | _ => v
  end.

(** Column affinity INTEGER ([id], [roomNumber INT], [entryId],
    [timesheetRow]), which is also what a comparison with such a
    column applies to the other operand: a text that is a numeral
    becomes the number, any other text stays text; a REAL with an
    integral value becomes the integer.  (An [Inexact] numeral is left
    as text here, and a REAL of 2^63 or more stays a REAL in the
    engine; see [exact_integer].) *)
Definition integer_affinity (v : value) : value :=
  match v with
  | Text s => match read_numeral s with Whole z => Int z | _ => v end
  | Real z => Int z
  | _ => v
  end.

(** The parameters on which [integer_affinity] is the engine's
    reading: every value but numbers of 2^63 or more and [Inexact]
    numerals. *)
Definition exact_integer (v : JS.value) : bool :=
  match v with
  | JS.Num z => Z.abs z <? 2 ^ 63
  | JS.Str s => match read_numeral s with Inexact => false | _ => true end
  | _ => true
  end.

(** The parameters on which [text_affinity] is the engine's reading:
    every value but numbers of 10^15 or more. *)
Definition exact_text (v : JS.value) : bool :=
  match v with
  | JS.Num z => Z.abs z <? 10 ^ 15
  | _ => true
  end.

(** [a = b] in a WHERE clause, between a stored value and an operand
    that went through [integer_affinity]: NULL compares as unknown,
    which a WHERE clause treats as false; numbers are compared by
    value, texts byte by byte; a number never equals a text.  (By
    then [integer_affinity] has turned a REAL operand into an
    integer.) *)
Definition eqb (a b : value) : bool :=
  match a, b with
  | Int x, Int y => x =? y
  | Real x, Real y => x =? y
  | Text s, Text t => (s =? t)%string
  | _, _ => false
  end.

(** The text an operand of [LIKE] is converted to; NULL has none.
    (A REAL is written as by [text_affinity].) *)
Definition as_text (v : value) : option string :=
  match v with
  | Null => None
  | Int z => Some (Str.of_Z z)
  | Real z => Some (Str.of_Z z ++ ".0")%string
  | Text s => Some s
  end.

(** [LIKE] folds the 26 ASCII letters only. *)
Definition lower (c : ascii) : ascii :=
  let n := nat_of_ascii c in
  if (65 <=? n)%nat && (n <=? 90)%nat then ascii_of_nat (n + 32) else c.

Definition fold_case (c : Z) : Z := if (65 <=? c) && (c <=? 90) then c + 32 else c.

(** [LIKE] works on C strings: a text ends at its first NUL. *)
Definition c_string (s : string) : string :=
  Str.take_while (fun c => negb (Str.byte c =? 0)) s.

(** The characters of a text as [sqlite3Utf8Read] decodes them: a byte
    below 0xC0 is a character by itself; a byte from 0xC0 on starts a
    character that takes in every following byte of the form
    10xxxxxx, six bits each, in 32-bit arithmetic; a result below
    0x80, a surrogate, U+FFFE and U+FFFF are read as U+FFFD. *)
Definition utf8_lead (n : Z) : Z :=
  if n <? 224 then Z.land n 31
  else if n <? 240 then Z.land n 15
  else if n <? 248 then Z.land n 7
  else if n <? 252 then Z.land n 3
  else if n <? 254 then Z.land n 1
  else 0.

Definition utf8_check (c : Z) : Z :=
  if (c <? 128) || (Z.land c 4294965248 =? 55296) || (Z.land c 4294967294 =? 65534)
  then 65533 else c.

Fixpoint chars_from (cur : option Z) (s : string) : list Z :=
  match s with
  | EmptyString => match cur with Some c => [utf8_check c] | None => [] end
  | String b r =>
      let n := Str.byte b in
      match cur with
      | Some c =>
          if (128 <=? n) && (n <? 192)
          then chars_from (Some ((c * 64 + Z.land n 63) mod 4294967296)) r
          else utf8_check c
               :: (if 192 <=? n then chars_from (Some (utf8_lead n)) r
                   else n :: chars_from None r)
      | None =>
          if 192 <=? n then chars_from (Some (utf8_lead n)) r
          else n :: chars_from None r
      end
  end.

Definition chars (s : string) : list Z := chars_from None (c_string s).

(** Well-formed UTF-8: [need] continuation bytes are still expected,
    the next of them between [lo] and [hi] (which rules out overlong
    forms, surrogates and what lies beyond U+10FFFF). *)
Fixpoint utf8_from (need : nat) (lo hi : Z) (s : string) : bool :=
  match s with
  | EmptyString => match need with O => true | S _ => false end
  | String b r =>
      let n := Str.byte b in
      match need with
      | O =>
          if n <? 128 then utf8_from 0 128 191 r
          else if (194 <=? n) && (n <=? 223) then utf8_from 1 128 191 r
          else if n =? 224 then utf8_from 2 160 191 r
          else if n =? 237 then utf8_from 2 128 159 r
          else if (225 <=? n) && (n <=? 239) then utf8_from 2 128 191 r
          else if n =? 240 then utf8_from 3 144 191 r
          else if (241 <=? n) && (n <=? 243) then utf8_from 3 128 191 r
          else if n =? 244 then utf8_from 3 128 143 r
          else false
      | S k => (lo <=? n) && (n <=? hi) && utf8_from k 128 191 r
      end
  end.

(** U+FFFE or U+FFFF occurs in a well-formed text. *)
Fixpoint noncharacter (s : string) : bool :=
  match s with
  | String a r =>
      match r with
      | String b (String c _) =>
          ((Str.byte a =? 239) && (Str.byte b =? 191) && (190 <=? Str.byte c))
          || noncharacter r
      | _ => false
      end
  | EmptyString => false
  end.

(** The texts on which the characters [LIKE] reads are the characters
    of the text: well-formed UTF-8 without NUL, U+FFFE and U+FFFF. *)
Definition plain (s : string) : bool :=
  negb (Str.mem "000" s) && utf8_from 0 128 191 s && negb (noncharacter s).

(** [like_chars p s]: does the text [s] match the pattern [p]?  [%]
    (37) stands for any run of characters, [_] (95) for any one
    character, every other character for itself up to ASCII case.  No
    ESCAPE clause is used by the server. *)
Fixpoint like_chars (p s : list Z) : bool :=
  match p with
  | [] => match s with [] => true | _ => false end
  | c :: p' =>
      if c =? 37 then
        (fix any (s : list Z) : bool :=
           like_chars p' s || match s with
                              | [] => false
                              | _ :: s' => any s'
                              end) s
      else
        match s with
        | [] => false
        | d :: s' =>
            ((fold_case c =? fold_case d) || (c =? 95)) && like_chars p' s'
        end
  end.

Definition like (p s : string) : bool := like_chars (chars p) (chars s).

(** [v LIKE pattern] in a WHERE clause (NULL operand: not selected). *)
Definition like_value (v : value) (pattern : string) : bool :=
  match as_text v with
  | Some s => like pattern s
  | None => false
  end.

(** A pattern of more than 50000 bytes makes [LIKE] fail with "LIKE
    or GLOB pattern too complex" (SQLITE_LIMIT_LIKE_PATTERN_LENGTH,
    which the server leaves at its default). *)
Definition too_complex (pattern : string) : bool :=
  50000 <? Z.of_nat (String.length pattern).

(** The order of ORDER BY: NULL first, then numbers by value, then
    text compared byte by byte. *)
Definition leb (a b : value) : bool :=
  match a, b with
  | Null, _ => true
  | _, Null => false
  | Int x, Int y | Int x, Real y | Real x, Int y | Real x, Real y => x <=? y
  | Int _, Text _ | Real _, Text _ => true
  | Text _, Int _ | Text _, Real _ => false
  | Text s, Text t => String.leb s t
  end.

End Sql.

(* ===================================================================== *)
(** * The database: two tables and three triggers *)
(* ===================================================================== *)

Module Db.

Local Open Scope list_scope.

(** A row of [entries].  The [images] column holds NULL or the JSON
    text of an array of strings; the server only ever writes it with
    [JSON.stringify] and reads it back with [JSON.parse], so the row
    carries the array itself ([None] is NULL). *)
Record entry : Type := mkEntry {
  e_id : Z;
  firstName : Sql.value;
  lastName : Sql.value;
  roomNumber : Sql.value;
  additionalText : Sql.value;
  images : option (list string)
}.

(** A row of [timesheets]. *)
Record timesheet : Type := mkRow {
  t_id : Z;
  entryId : Sql.value;
  timesheetRow : Sql.value;
  t_roomNumber : Sql.value;
  signIn : Sql.value;
  signOut : Sql.value
}.

(** The connection's state together with the [uploads] directory.
    Tables are kept in rowid order.  [entries_seq] and
    [timesheets_seq] are the two rows of [sqlite_sequence] that
    AUTOINCREMENT maintains; [last_insert_rowid] is what node-sqlite3
    reports as [this.lastID]. *)
Record state : Type := mkState {
  entries : list entry;
  entries_seq : Z;
  timesheets : list timesheet;
  timesheets_seq : Z;
  last_insert_rowid : Z;
  uploads : list string
}.


Definition with_entries (es : list entry) (st : state) : state :=
  mkState es (entries_seq st) (timesheets st) (timesheets_seq st)
          (last_insert_rowid st) (uploads st).

Definition with_timesheets (ts : list timesheet) (st : state) : state :=
  mkState (entries st) (entries_seq st) ts (timesheets_seq st)
          (last_insert_rowid st) (uploads st).

Definition with_uploads (fs : list string) (st : state) : state :=
  mkState (entries st) (entries_seq st) (timesheets st) (timesheets_seq st)
          (last_insert_rowid st) fs.

(** AUTOINCREMENT: one more than the largest rowid the table has ever
    held. *)
Definition next_rowid (seq : Z) (ids : list Z) : Z :=
  fold_right Z.max seq ids + 1.

(** An INSERT into [timesheets] that names only [entryId] and
    [timesheetRow]; the other columns take their default, NULL. *)
Definition insert_timesheet (eid row : Sql.value) (st : state) : state :=
  let id := next_rowid (timesheets_seq st) (map t_id (timesheets st)) in
  mkState (entries st) (entries_seq st)
          (timesheets st ++ [mkRow id eid row Sql.Null Sql.Null Sql.Null]) id
          (last_insert_rowid st) (uploads st).

(** [initializeTimesheets]: once both tables exist,
    [INSERT INTO timesheets (entryId, timesheetRow, roomNumber, signIn,
    signOut) SELECT id, 0, NULL, NULL, NULL FROM entries WHERE NOT
    EXISTS (SELECT 1 FROM timesheets WHERE timesheets.entryId =
    entries.id AND timesheets.timesheetRow = 0)]
    gives a row 0 to every entry that lacks one; the three triggers
    are created afterwards and are in force for every later
    statement.  The statement is sent by the server itself, so the
    rowid of the last row it inserts, if any, is the connection's last
    insert rowid afterwards. *)
Definition initializeTimesheets (st : state) : state :=
  let missing :=
    filter (fun e =>
              negb (existsb (fun r => Sql.eqb (entryId r) (Sql.Int (e_id e))
                                      && Sql.eqb (timesheetRow r) (Sql.Int 0))
                            (timesheets st)))
           (entries st) in
  let st' :=
    fold_left
      (fun s e => insert_timesheet (Sql.Int (e_id e)) (Sql.Int 0) s)
      missing st in
  match missing with
  | [] => st'
  | _ :: _ =>
      mkState (entries st') (entries_seq st') (timesheets st')
              (timesheets_seq st') (timesheets_seq st') (uploads st')
  end.

(** The server started on a new database file: both tables are empty. *)
Definition init : state := initializeTimesheets (mkState [] 0 [] 0 0 []).

(** [SELECT COUNT( * ) FROM timesheets WHERE entryId = ?]. *)
Definition count_timesheets (eid : Sql.value) (st : state) : nat :=
  List.length (filter (fun r => Sql.eqb (entryId r) eid) (timesheets st)).

(** Trigger [after_entry_insert]:
    [INSERT INTO timesheets (entryId, timesheetRow, roomNumber, signIn,
    signOut) VALUES (NEW.id, 0, NULL, NULL, NULL)]. *)
Definition after_entry_insert (new : entry) (st : state) : state :=
  insert_timesheet (Sql.Int (e_id new)) (Sql.Int 0) st.

(** Trigger [after_last_timesheetRow_delete], FOR EACH ROW, WHEN no
    row of [OLD.entryId] is left:
    [INSERT INTO timesheets (entryId, timesheetRow) VALUES
    (OLD.entryId, 0)]. *)
Definition after_last_timesheetRow_delete (old : timesheet) (st : state) : state :=
  if (count_timesheets (entryId old) st =? 0)%nat
  then insert_timesheet (entryId old) (Sql.Int 0) st
  else st.

Definition remove_timesheet (rid : Z) (st : state) : state :=
  with_timesheets (filter (fun r => negb (t_id r =? rid)) (timesheets st)) st.

(** The delete loop of a [DELETE FROM timesheets]: the rows to delete
    have been collected beforehand; each one is removed and the row
    trigger runs at once, before the next row is touched.  The trigger
    only inserts, so every collected row is still there when its turn
    comes. *)
Fixpoint delete_timesheet_rows (victims : list timesheet) (st : state) : state :=
  match victims with
  | [] => st
  | old :: rest =>
      delete_timesheet_rows rest
        (after_last_timesheetRow_delete old (remove_timesheet (t_id old) st))
  end.

(** [DELETE FROM timesheets WHERE cond]. *)
Definition delete_timesheets_where (cond : timesheet -> bool) (st : state) : state :=
  delete_timesheet_rows (filter cond (timesheets st)) st.

(** Trigger [after_entry_delete], FOR EACH ROW:
    [DELETE FROM timesheets WHERE entryId = OLD.id].  The statement
    runs inside the trigger, and the rows it deletes fire
    [after_last_timesheetRow_delete] in turn. *)
Definition after_entry_delete (old : entry) (st : state) : state :=
  delete_timesheets_where (fun r => Sql.eqb (entryId r) (Sql.Int (e_id old))) st.

Definition remove_entry (id : Z) (st : state) : state :=
  with_entries (filter (fun e => negb (e_id e =? id)) (entries st)) st.

Fixpoint delete_entry_rows (victims : list entry) (st : state) : state :=
  match victims with
  | [] => st
  | old :: rest =>
      delete_entry_rows rest (after_entry_delete old (remove_entry (e_id old) st))
  end.

(** Does the bound parameter select the row whose [id] is [id]?  The
    column is an INTEGER PRIMARY KEY, so the parameter is compared
    under INTEGER affinity. *)
Definition id_is (p : Sql.value) (id : Z) : bool :=
  Sql.eqb (Sql.Int id) (Sql.integer_affinity p).

(** [DELETE FROM entries WHERE id = ?]; the second component is
    [this.changes], which does not count what triggers did. *)
Definition delete_entries_where_id (p : Sql.value) (st : state) : state * nat :=
  let victims := filter (fun e => id_is p (e_id e)) (entries st) in
  (delete_entry_rows victims st, List.length victims).

(** [INSERT INTO entries (firstName, lastName, roomNumber,
    additionalText, images) VALUES (?, ?, ?, ?, ?)], followed by the
    insert trigger.  The rowid reported afterwards is the entry's:
    an insert made by a trigger does not outlive the trigger in
    [last_insert_rowid]. *)
Definition insert_entry (fn ln rn txt : Sql.value) (imgs : list string)
    (st : state) : state :=
  let id := next_rowid (entries_seq st) (map e_id (entries st)) in
  let new := mkEntry id (Sql.text_affinity fn) (Sql.text_affinity ln)
                     (Sql.integer_affinity rn) (Sql.text_affinity txt)
                     (Some imgs) in
  after_entry_insert new
    (mkState (entries st ++ [new]) id (timesheets st) (timesheets_seq st)
             id (uploads st)).

(** [UPDATE entries SET firstName = ?, lastName = ?, roomNumber = ?,
    additionalText = ? WHERE id = ?], with [this.changes]. *)
Definition set_fields (fn ln rn txt : Sql.value) (e : entry) : entry :=
  mkEntry (e_id e) (Sql.text_affinity fn) (Sql.text_affinity ln)
          (Sql.integer_affinity rn) (Sql.text_affinity txt) (images e).

Definition update_entry_fields (fn ln rn txt p : Sql.value) (st : state)
  : state * nat :=
  (with_entries
     (map (fun e => if id_is p (e_id e) then set_fields fn ln rn txt e else e)
          (entries st)) st,
   List.length (filter (fun e => id_is p (e_id e)) (entries st))).

(** [UPDATE entries SET images = ? WHERE id = ?]. *)
Definition set_images (imgs : list string) (e : entry) : entry :=
  mkEntry (e_id e) (firstName e) (lastName e) (roomNumber e)
          (additionalText e) (Some imgs).

Definition update_entry_images (imgs : list string) (p : Sql.value) (st : state)
  : state :=
  with_entries
    (map (fun e => if id_is p (e_id e) then set_images imgs e else e)
         (entries st)) st.

(** [SELECT images FROM entries WHERE id = ?] through [db.get]: the
    first matching row, or [undefined]. *)
Definition select_entry (p : Sql.value) (st : state) : option entry :=
  find (fun e => id_is p (e_id e)) (entries st).

(** The WHERE clause [entryId = ? AND timesheetRow = ?]; both columns
    have INTEGER affinity, which is applied to the parameters. *)
Definition row_is (pe pr : Sql.value) (r : timesheet) : bool :=
  Sql.eqb (entryId r) (Sql.integer_affinity pe)
  && Sql.eqb (timesheetRow r) (Sql.integer_affinity pr).

(** The UPDATE statements on [timesheets], each with [this.changes]. *)
Definition update_timesheets (f : timesheet -> timesheet) (pe pr : Sql.value)
    (st : state) : state * nat :=
  (with_timesheets
     (map (fun r => if row_is pe pr r then f r else r) (timesheets st)) st,
   List.length (filter (row_is pe pr) (timesheets st))).

Definition set_signIn (rn si : Sql.value) (r : timesheet) : timesheet :=
  mkRow (t_id r) (entryId r) (timesheetRow r)
        (Sql.integer_affinity rn) (Sql.text_affinity si) (signOut r).

Definition set_signOut (so : Sql.value) (r : timesheet) : timesheet :=
  mkRow (t_id r) (entryId r) (timesheetRow r)
        (t_roomNumber r) (signIn r) (Sql.text_affinity so).

Definition set_row (rn si so : Sql.value) (r : timesheet) : timesheet :=
  mkRow (t_id r) (entryId r) (timesheetRow r)
        (Sql.integer_affinity rn) (Sql.text_affinity si) (Sql.text_affinity so).

(** [INSERT INTO timesheets (entryId, timesheetRow) VALUES (?, ?)] sent
    by a handler.  Both columns are NOT NULL: a NULL parameter makes
    the engine refuse the statement ([None]).  No insert trigger is
    defined on [timesheets], and the declared foreign key is not
    enforced, so any [entryId] is accepted. *)
Definition insert_timesheet_values (pe pr : Sql.value) (st : state) : option state :=
  match pe, pr with
  | Sql.Null, _ | _, Sql.Null => None
  | _, _ =>
      let st' := insert_timesheet (Sql.integer_affinity pe)
                                  (Sql.integer_affinity pr) st in
      Some (mkState (entries st') (entries_seq st') (timesheets st')
                    (timesheets_seq st') (timesheets_seq st') (uploads st'))
  end.

(** ORDER BY timesheetRow ASC, as a stable insertion sort. *)
Fixpoint insert_sorted (r : timesheet) (l : list timesheet) : list timesheet :=
  match l with
  | [] => [r]
  | x :: l' =>
      if Sql.leb (timesheetRow r) (timesheetRow x) then r :: l
      else x :: insert_sorted r l'
  end.

Definition order_by_timesheetRow (l : list timesheet) : list timesheet :=
  fold_right insert_sorted [] l.

(** [SELECT * FROM timesheets WHERE entryId = ? ORDER BY timesheetRow
    ASC]. *)
Definition select_timesheets (pe : Sql.value) (st : state) : list timesheet :=
  order_by_timesheetRow
    (filter (fun r => Sql.eqb (entryId r) (Sql.integer_affinity pe))
            (timesheets st)).

(** [SELECT * FROM timesheets WHERE entryId = ? ORDER BY timesheetRow
    DESC LIMIT 1] through [db.get]: a row of the entry with the largest
    [timesheetRow], or [undefined].  Among rows with the same
    [timesheetRow] SQL leaves the choice open; the one stored first is
    taken here. *)
Fixpoint latest_row (l : list timesheet) : option timesheet :=
  match l with
  | [] => None
  | r :: l' =>
      match latest_row l' with
      | None => Some r
      | Some m =>
          if Sql.leb (timesheetRow m) (timesheetRow r) then Some r else Some m
      end
  end.

Definition select_current_row (pe : Sql.value) (st : state) : option timesheet :=
  latest_row
    (filter (fun r => Sql.eqb (entryId r) (Sql.integer_affinity pe))
            (timesheets st)).

(** The [uploads] directory as a set of file names.  A name with a
    NUL byte names no file. *)
Definition file_exists (name : string) (st : state) : bool :=
  negb (Str.mem "000" name) && existsb (String.eqb name) (uploads st).

Definition write_file (name : string) (st : state) : state :=
  if file_exists name st then st else with_uploads (name :: uploads st) st.

Definition remove_file (name : string) (st : state) : state :=
  with_uploads (filter (fun f => negb (f =? name)%string) (uploads st)) st.

End Db.

(* ===================================================================== *)
(** * The route handlers *)
(* ===================================================================== *)

Module Server.

Import Db.
Local Open Scope list_scope.

(** What the environment does to one database or file-system call:
    the call goes through, or it fails with the given message (a busy
    or corrupt database, a full disk, a permission error). *)
Inductive io : Type :=
| Ok
| Failed (msg : string).

(** The exceptions that reach Express: multer's error for a file
    beyond the limit of [upload.array], and the two [TypeError]s Node
    throws for an argument it refuses, [path.basename] for a path that
    is no string and [fs.unlink] for a path with a NUL byte. *)
Inductive exception : Type :=
| LimitUnexpectedFile
| InvalidArgType
| InvalidArgValue.

(** The payloads the handlers send.  [ErrorPage e] is the page
    Express's own error handler renders for an exception it was
    handed; what the page shows of the exception depends on NODE_ENV
    and is not followed here. *)
Inductive body : Type :=
| ErrorPage (e : exception)
| Plain (text : string)
| ErrorJson (error : string)
| SuccessJson (success : string)
| MessageJson (message : string)
| UpdatedJson (success : string) (id : JS.value)
| ImagesJson (success : string) (images : list string)
| InsertedJson (message : string) (timesheetId : Z)
| RowDeletedJson (message : string) (deletedRowId : JS.value)
| EntriesJson (rows : list entry)
| TimesheetsJson (rows : list timesheet).

(** What becomes of a request: a response, or an exception thrown
    inside an asynchronous callback, which nothing catches: no
    response is sent and the process dies. *)
Inductive outcome : Type :=
| Response (status : Z) (payload : body)
| Uncaught (error : string).

(** ** Uploads (multer) *)

(** An uploaded file of the field [images] in a multipart request;
    [now] is the value of [Date.now()] when multer asked for its file
    name. *)
Record upload : Type := mkUpload {
  originalname : string;
  now : Z
}.

(** [file.fieldname + '-' + Date.now()]. *)
Definition filename (f : upload) : string :=
  ("images" ++ "-" ++ Str.of_Z (now f))%string.

(** [file.path]: the destination ['uploads/'] joined with the name. *)
Definition path (f : upload) : string := ("uploads/" ++ filename f)%string.

Definition store_files (files : list upload) (st : state) : state :=
  fold_left (fun s f => write_file (filename f) s) files st.

(** [upload.array('images', 10)]: the files are written to [uploads]
    before the handler runs.  An eleventh file aborts the request:
    multer removes the ten files it had stored and Express answers
    500. *)
Definition multer (files : list upload) (st : state) : state + state :=
  if (10 <? List.length files)%nat
  then inr (fold_left (fun s f => remove_file (filename f) s) (firstn 10 files)
                      (store_files (firstn 10 files) st))
  else inl (store_files files st).

Definition multer_error : outcome :=
  Response 500 (ErrorPage LimitUnexpectedFile).

(** ** GET /timesheets/:entryId

    The second handler registered for the same pattern,
    [/timesheets/:rowId], is never reached: this one always answers. *)
Definition get_timesheets (entryId : string) (fault : io) (st : state) : outcome :=
  match fault with
  | Failed _ => Response 500 (Plain "Error fetching timesheets data")
  | Ok => Response 200 (TimesheetsJson (select_timesheets (Sql.Text entryId) st))
  end.

(** ** GET /timesheets/get-current-row/:rowId

    The answer is the row as JSON (status 200), or a status with a
    text. *)
Inductive current_row_outcome : Type :=
| CurrentRow (row : timesheet)
| NoCurrentRow (status : Z) (text : string).

Definition get_current_row (rowId : string) (fault : io) (st : state)
  : current_row_outcome :=
  match fault with
  | Failed _ => NoCurrentRow 500 "Error fetching data from the database"
  | Ok =>
      match select_current_row (Sql.Text rowId) st with
      | Some row => CurrentRow row
      | None => NoCurrentRow 404 "Row not found"
      end
  end.

(** ** POST /submit-data *)
Record submit_request : Type := mkSubmit {
  s_files : list upload;
  s_firstName : JS.value;
  s_lastName : JS.value;
  s_roomNumber : JS.value;
  s_additionalText : JS.value
}.

Definition submit_data (req : submit_request) (fault : io) (st : state)
  : state * outcome :=
  match multer (s_files req) st with
  | inr st0 => (st0, multer_error)
  | inl st1 =>
      let images := map path (s_files req) in
      match fault with
      | Failed msg => (st1, Response 500 (Plain msg))
      | Ok =>
          let st2 := insert_entry (Sql.bind (s_firstName req))
                                  (Sql.bind (s_lastName req))
                                  (Sql.bind (s_roomNumber req))
                                  (Sql.bind (s_additionalText req)) images st1 in
          (st2, Response 200
                  (Plain ("Entry added with ID: "
                          ++ Str.of_Z (last_insert_rowid st2))%string))
      end
  end.

(** ** GET /get-data

    [req.query.q] is a string or absent. *)

(** The WHERE clause added when [req.query.q] is truthy. *)
Definition entry_like (pattern : string) (e : entry) : bool :=
  Sql.like_value (firstName e) pattern
  || Sql.like_value (lastName e) pattern
  || Sql.like_value (roomNumber e) pattern
  || Sql.like_value (additionalText e) pattern.

Definition get_data_rows (q : option string) (st : state) : list entry :=
  match q with
  | Some s =>
      if JS.truthy (JS.Str s)
      then filter (entry_like ("%" ++ s ++ "%")%string) (entries st)
      else entries st
  | None => entries st
  end.

(** The engine refuses the statement when it evaluates [LIKE] with a
    pattern that is too long, which it does as soon as there is a row
    to test. *)
Definition like_fails (q : option string) (st : state) : bool :=
  match q, entries st with
  | Some s, _ :: _ =>
      JS.truthy (JS.Str s) && Sql.too_complex ("%" ++ s ++ "%")%string
  | _, _ => false
  end.

Definition get_data (q : option string) (fault : io) (st : state) : outcome :=
  match fault with
  | Failed msg => Response 500 (Plain msg)
  | Ok =>
      if like_fails q st
      then Response 500 (Plain "SQLITE_ERROR: LIKE or GLOB pattern too complex")
      else Response 200 (EntriesJson (get_data_rows q st))
  end.

(** ** POST /update-data *)
Record update_request : Type := mkUpdate {
  u_id : JS.value;
  u_firstName : JS.value;
  u_lastName : JS.value;
  u_roomNumber : JS.value;
  u_additionalText : JS.value
}.

Definition update_data (req : update_request) (fault : io) (st : state)
  : state * outcome :=
  if negb (JS.truthy (u_id req))
  then (st, Response 400 (Plain "ID is required"))
  else
    match fault with
    | Failed _ => (st, Response 500 (ErrorJson "Failed to update entry"))
    | Ok =>
        let '(st', changes) :=
          update_entry_fields (Sql.bind (u_firstName req))
                              (Sql.bind (u_lastName req))
                              (Sql.bind (u_roomNumber req))
                              (Sql.bind (u_additionalText req))
                              (Sql.bind (u_id req)) st in
        if (0 <? changes)%nat
        then (st', Response 200 (UpdatedJson "Entry updated" (u_id req)))
        else (st', Response 404 (ErrorJson "Entry not found"))
    end.

(** ** POST /delete-image *)
Record delete_image_request : Type := mkDeleteImage {
  di_entryId : JS.value;
  di_imageName : JS.value
}.

(** [fs.unlink] on [path.join(__dirname, 'uploads', name)].  The
    server is started from its own directory, so this is the directory
    multer writes to.  [InvalidPath]: the call itself throws, before
    anything is asked of the file system. *)
Inductive unlinked : Type :=
| Unlinked (st : state)
| Enoent
| OtherError
| InvalidPath.

(** The names [""], ["."] and [".."] make [path.join] return a
    directory, which [unlink] refuses with an error other than
    ENOENT.  A fault of the environment (no permission, a name longer
    than the file system allows) is likewise an error other than
    ENOENT; ENOENT itself is decided by the directory's content. *)
Definition is_directory (name : string) : bool :=
  (name =? "")%string || (name =? ".")%string || (name =? "..")%string.

(** A path with a NUL byte is refused by [fs.unlink] with a
    [TypeError], whatever the state of the file system. *)
Definition unlink (name : string) (fault : io) (st : state) : unlinked :=
  if Str.mem "000" name then InvalidPath
  else
    match fault with
    | Failed _ => OtherError
    | Ok =>
        if is_directory name then OtherError
        else if file_exists name st then Unlinked (remove_file name st)
        else Enoent
    end.

Definition delete_image (req : delete_image_request)
    (unlink_fault select_fault update_fault : io) (st : state)
  : state * outcome :=
  match di_imageName req with
  | JS.Str imageName =>
      let filename := JS.basename imageName in
      match unlink filename unlink_fault st with
      | InvalidPath =>
          (* [fs.unlink] throws in the handler itself; Express answers *)
          (st, Response 500 (ErrorPage InvalidArgValue))
      | Enoent => (st, Response 404 (ErrorJson "Failed to delete image"))
      | OtherError => (st, Response 500 (ErrorJson "Failed to delete image"))
      | Unlinked st1 =>
          match select_fault with
          | Failed _ => (st1, Response 500 (ErrorJson "Failed to retrieve entry"))
          | Ok =>
              match select_entry (Sql.bind (di_entryId req)) st1 with
              | None =>
                  (* [row] is undefined and [row.images] throws *)
                  (st1, Uncaught "TypeError: Cannot read properties of undefined (reading 'images')")
              | Some row =>
                  let images :=
                    match images row with Some l => l | None => [] end in
                  let images :=
                    filter (fun img => negb (JS.basename img =? filename)%string)
                           images in
                  match update_fault with
                  | Failed _ =>
                      (st1, Response 500 (ErrorJson "Failed to update entry"))
                  | Ok =>
                      (update_entry_images images (Sql.bind (di_entryId req)) st1,
                       Response 200 (ImagesJson "Image deleted" images))
                  end
              end
          end
      end
  | _ =>
      (* [path.basename] throws in the handler itself; Express answers *)
      (st, Response 500 (ErrorPage InvalidArgType))
  end.

(** ** POST /delete-data *)
Definition delete_data (id : JS.value) (fault : io) (st : state)
  : state * outcome :=
  match JS.parseInt id with
  | None => (st, Response 400 (ErrorJson "Invalid ID provided"))
  | Some entryId =>
      match fault with
      | Failed _ => (st, Response 500 (ErrorJson "Failed to delete entry"))
      | Ok =>
          let '(st', changes) :=
            delete_entries_where_id (Sql.bind (JS.Num entryId)) st in
          if (0 <? changes)%nat
          then (st', Response 200 (SuccessJson "Entry deleted"))
          else (st', Response 404 (ErrorJson "Entry not found"))
      end
  end.

(** ** POST /add-image *)
Record add_image_request : Type := mkAddImage {
  ai_entryId : JS.value;
  ai_files : list upload
}.

Definition add_image (req : add_image_request) (select_fault update_fault : io)
    (st : state) : state * outcome :=
  match multer (ai_files req) st with
  | inr st0 => (st0, multer_error)
  | inl st1 =>
      match ai_files req with
      | [] => (st1, Response 400 (ErrorJson "No image files provided"))
      | imageFiles =>
          match select_fault with
          | Failed _ => (st1, Response 500 (ErrorJson "Internal server error"))
          | Ok =>
              let images :=
                match select_entry (Sql.bind (ai_entryId req)) st1 with
                | Some row => match images row with Some l => l | None => [] end
                | None => []
                end in
              let newImagePaths :=
                map (fun file => ("/uploads/" ++ filename file)%string) imageFiles in
              let images := images ++ newImagePaths in
              match update_fault with
              | Failed _ => (st1, Response 500 (ErrorJson "Internal server error"))
              | Ok =>
                  (update_entry_images images (Sql.bind (ai_entryId req)) st1,
                   Response 200 (ImagesJson "New images added to entry" images))
              end
          end
      end
  end.

(** ** The timesheet routes *)
Record row_request : Type := mkRowRequest {
  r_entryId : JS.value;
  r_timesheetRow : JS.value;
  r_roomNumber : JS.value;
  r_signIn : JS.value;
  r_signOut : JS.value
}.

(** POST /timesheets/newRow *)
Definition newRow (req : row_request) (fault : io) (st : state) : state * outcome :=
  match fault with
  | Failed _ => (st, Response 500 (Plain "Error on signIn"))
  | Ok =>
      match insert_timesheet_values (Sql.bind (r_entryId req))
                                    (Sql.bind (r_timesheetRow req)) st with
      | None => (st, Response 500 (Plain "Error on signIn"))
      | Some st' =>
          (st', Response 200
                  (InsertedJson "SignIn successful" (last_insert_rowid st')))
      end
  end.

(** POST /timesheets/signIn *)
Definition signIn (req : row_request) (fault : io) (st : state) : state * outcome :=
  match fault with
  | Failed _ => (st, Response 500 (Plain "Error on signIn"))
  | Ok =>
      let st' :=
        fst (update_timesheets
               (set_signIn (Sql.bind (r_roomNumber req)) (Sql.bind (r_signIn req)))
               (Sql.bind (r_entryId req)) (Sql.bind (r_timesheetRow req)) st) in
      (st', Response 200
              (InsertedJson "SignIn successful" (last_insert_rowid st')))
  end.

(** POST /timesheets/signOut *)
Definition signOut (req : row_request) (fault : io) (st : state) : state * outcome :=
  match fault with
  | Failed _ => (st, Response 500 (Plain "Error updating sign-out time"))
  | Ok =>
      let '(st', changes) :=
        update_timesheets (set_signOut (Sql.bind (r_signOut req)))
                          (Sql.bind (r_entryId req))
                          (Sql.bind (r_timesheetRow req)) st in
      if (0 <? changes)%nat
      then (st', Response 200 (MessageJson "Sign-out successful"))
      else (st', Response 404 (MessageJson "Timesheet entry not found"))
  end.

(** DELETE /timesheets/deleteRow *)
Definition deleteRow (req : row_request) (fault : io) (st : state)
  : state * outcome :=
  match fault with
  | Failed _ => (st, Response 500 (Plain "Error on delete"))
  | Ok =>
      (delete_timesheets_where
         (row_is (Sql.bind (r_entryId req)) (Sql.bind (r_timesheetRow req))) st,
       Response 200 (RowDeletedJson "Row deleted successfully" (r_entryId req)))
  end.

(** POST /timesheets/updateRow *)
Definition updateRow (req : row_request) (fault : io) (st : state)
  : state * outcome :=
  match fault with
  | Failed _ => (st, Response 500 (Plain "Error updating timesheet"))
  | Ok =>
      (fst (update_timesheets
              (set_row (Sql.bind (r_roomNumber req)) (Sql.bind (r_signIn req))
                       (Sql.bind (r_signOut req)))
              (Sql.bind (r_entryId req)) (Sql.bind (r_timesheetRow req)) st),
       Response 200 (MessageJson "Timesheet updated successfully"))
  end.

End Server.

(* ===================================================================== *)
(** * What the specification says, in the vocabulary of the model *)
(* ===================================================================== *)

Module Spec.

Import Db Server.
Local Open Scope list_scope.

(** The primary keys: no two rows of a table share their [id]. *)
Definition pk_unique (st : state) : Prop :=
  NoDup (map e_id (entries st)) /\ NoDup (map t_id (timesheets st)).

(** The TimesheetRows of an entry, and those among them at index 0. *)
Definition rows_of (eid : Sql.value) (st : state) : list timesheet :=
  filter (fun r => Sql.eqb (entryId r) eid) (timesheets st).

Definition row0_rows (id : Z) (st : state) : list timesheet :=
  filter (fun r => Sql.eqb (entryId r) (Sql.Int id)
                   && Sql.eqb (timesheetRow r) (Sql.Int 0))
         (timesheets st).

(** A fresh row 0: everything but [entryId] and [timesheetRow] is NULL. *)
Definition fresh_row0 (tid : Z) (eid : Sql.value) : timesheet :=
  mkRow tid eid (Sql.Int 0) Sql.Null Sql.Null Sql.Null.

(** A row that is not among the rows collected for deletion. *)
Definition spared (victims : list timesheet) (r : timesheet) : bool :=
  negb (existsb (fun v => t_id r =? t_id v) victims).

(** A row without its store-assigned [id]. *)
Definition content (r : timesheet)
  : Sql.value * Sql.value * Sql.value * Sql.value * Sql.value :=
  (entryId r, timesheetRow r, t_roomNumber r, Db.signIn r, Db.signOut r).

(** The image list of an entry, as the handlers read it. *)
Definition image_list (e : entry) : list string :=
  match images e with Some l => l | None => [] end.

(** The reference [addImages] hands out for an uploaded file. *)
Definition reference (f : upload) : string := ("/uploads/" ++ filename f)%string.

(** Case-insensitive substring, in the words of the specification:
    [q] occurs in [s] once both are folded to lower case.  The texts
    are taken character by character; on a text that is [Sql.plain]
    these are its Unicode characters. *)
Definition ci_substring (q s : string) : Prop :=
  exists pre post : list Z,
    map Sql.fold_case (Sql.chars_from None s)
    = pre ++ map Sql.fold_case (Sql.chars_from None q) ++ post.

Definition field_contains (q : string) (v : Sql.value) : Prop :=
  exists s, Sql.as_text v = Some s /\ ci_substring q s.

Definition entry_contains (q : string) (e : entry) : Prop :=
  field_contains q (firstName e) \/ field_contains q (lastName e) \/
  field_contains q (roomNumber e) \/ field_contains q (additionalText e).

(** A LIKE wildcard occurs in [q]. *)
Definition has_wildcard (q : string) : bool := Str.mem "%" q || Str.mem "_" q.

(** The four searched fields of an entry are plain texts (or NULL). *)
Definition plain_value (v : Sql.value) : bool :=
  match Sql.as_text v with
  | Some s => Sql.plain s
  | None => true
  end.

Definition entry_plain (e : entry) : bool :=
  plain_value (firstName e) && plain_value (lastName e)
  && plain_value (roomNumber e) && plain_value (additionalText e).

(** The rendering of a REAL as text is followed below 10^15 (from
    there on the engine switches to exponent notation). *)
Definition rendered (v : Sql.value) : bool :=
  match v with
  | Sql.Real z => Z.abs z <? 10 ^ 15
  | _ => true
  end.

Definition entry_rendered (e : entry) : bool :=
  rendered (firstName e) && rendered (lastName e)
  && rendered (roomNumber e) && rendered (additionalText e).

Definition row_request_of (entryId timesheetRow : JS.value) : row_request :=
  mkRowRequest entryId timesheetRow JS.Undefined JS.Undefined JS.Undefined.

(** The order of a timesheet listing. *)
Definition by_timesheetRow (a b : timesheet) : Prop :=
  Sql.leb (timesheetRow a) (timesheetRow b) = true.

(** Every stored entry owns at least one TimesheetRow. *)
Definition has_row (st : state) (z : Z) : Prop :=
  exists r, In r (timesheets st) /\ entryId r = Sql.Int z.

Definition entries_have_rows (st : state) : Prop :=
  forall e, In e (entries st) -> has_row st (e_id e).

(** The AUTOINCREMENT counters bound the stored ids. *)
Definition ids_below_seq (st : state) : Prop :=
  (forall e, In e (entries st) -> e_id e <= entries_seq st) /\
  (forall r, In r (timesheets st) -> t_id r <= timesheets_seq st).

(** The counters of [st'] are not below those of [st]. *)
Definition seq_le (st st' : state) : Prop :=
  entries_seq st <= entries_seq st' /\ timesheets_seq st <= timesheets_seq st'.

(** A change of state that keeps the bound and does not lower the
    counters. *)
Definition seq_step (st st' : state) : Prop :=
  ids_below_seq st -> ids_below_seq st' /\ seq_le st st'.

(** ** The server as a transition system *)

(** A request that can change the state, with what the environment
    does to the calls it makes. *)
Inductive request : Type :=
| SubmitData (req : submit_request) (fault : io)
| UpdateData (req : update_request) (fault : io)
| DeleteImage (req : delete_image_request) (unlink_fault select_fault update_fault : io)
| DeleteData (id : JS.value) (fault : io)
| AddImage (req : add_image_request) (select_fault update_fault : io)
| NewRow (req : row_request) (fault : io)
| SignIn (req : row_request) (fault : io)
| SignOut (req : row_request) (fault : io)
| DeleteRow (req : row_request) (fault : io)
| UpdateRow (req : row_request) (fault : io).

Definition handle (r : request) (st : state) : state * outcome :=
  match r with
  | SubmitData req f => submit_data req f st
  | UpdateData req f => update_data req f st
  | DeleteImage req f1 f2 f3 => delete_image req f1 f2 f3 st
  | DeleteData id f => delete_data id f st
  | AddImage req f1 f2 => add_image req f1 f2 st
  | NewRow req f => newRow req f st
  | SignIn req f => signIn req f st
  | SignOut req f => signOut req f st
  | DeleteRow req f => deleteRow req f st
  | UpdateRow req f => updateRow req f st
  end.

(** The states the server can be in: those reached from the empty
    database by a sequence of requests. *)
Inductive reachable : state -> Prop :=
| reachable_init : reachable init
| reachable_step (r : request) (st : state) :
    reachable st -> reachable (fst (handle r st)).

(** A sequence of requests, handled one after the other. *)
Definition run (rs : list request) (st : state) : state :=
  fold_left (fun s r => fst (handle r s)) rs st.

(** ** The sentences that do not hold as they are written *)

(** Creation leaves exactly one row 0 for the new id, with NULL fields. *)
Definition one_row0_after_creation : Prop :=
  forall (req : submit_request) (st : state),
    (List.length (s_files req) <= 10)%nat ->
    let st' := fst (submit_data req Ok st) in
    exists tid,
      row0_rows (last_insert_rowid st') st'
      = [fresh_row0 tid (Sql.Int (last_insert_rowid st'))].

(** Deleting the last row of an entry brings back a fresh row 0, and
    deleting that row again reproduces the same state. *)
Definition delete_last_row_idempotent : Prop :=
  forall (entryId timesheetRow : JS.value) (st : state),
    pk_unique st ->
    let eid := Sql.integer_affinity (Sql.bind entryId) in
    rows_of eid st <> [] ->
    (forall r, In r (rows_of eid st) ->
               row_is (Sql.bind entryId) (Sql.bind timesheetRow) r = true) ->
    let st1 := fst (deleteRow (row_request_of entryId timesheetRow) Ok st) in
    (exists tid, rows_of eid st1 = [fresh_row0 tid eid]) /\
    fst (deleteRow (row_request_of entryId (JS.Num 0)) Ok st1) = st1.

(** A query selects exactly the entries that contain it. *)
Definition search_is_substring : Prop :=
  forall (q : string) (st : state) (e : entry),
    q <> ""%string ->
    (In e (get_data_rows (Some q) st) <-> In e (entries st) /\ entry_contains q e).

(** Adding two distinct files and deleting the first leaves the prior
    list followed by the second. *)
Definition add_then_delete_roundtrip : Prop :=
  forall (id : JS.value) (e : entry) (f1 f2 : upload) (st : state),
    select_entry (Sql.bind id) st = Some e ->
    f1 <> f2 ->
    let st1 := fst (add_image (mkAddImage id [f1; f2]) Ok Ok st) in
    let st2 := fst (delete_image (mkDeleteImage id (JS.Str (reference f1)))
                                 Ok Ok Ok st1) in
    option_map image_list (select_entry (Sql.bind id) st2)
    = Some (image_list e ++ [reference f2]).


(** ** Concrete states used as test inputs *)

Definition alice : submit_request :=
  mkSubmit [] (JS.Str "Alice") JS.Undefined (JS.Str "101") JS.Undefined.

(** One entry, id 1, created on the empty database. *)
Definition one_entry : state := fst (submit_data alice Ok init).

(** One entry, id 1, created with one image stored as [images-5]. *)
Definition with_photo : state :=
  fst (submit_data (mkSubmit [mkUpload "a.png" 5] (JS.Str "Alice") JS.Undefined
                             (JS.Str "101") JS.Undefined) Ok init).

(** A timesheet row for entry 1 inserted before any entry exists. *)
Definition planted : state :=
  fst (newRow (row_request_of (JS.Num 1) (JS.Num 0)) Ok init).

End Spec.

(* ===================================================================== *)
(** * Properties *)
(* ===================================================================== *)

Import Db Server Spec.
Local Open Scope list_scope.

Example of_Z_samples :
Str.of_Z 0 = "0" /\ Str.of_Z 101 = "101" /\ Str.of_Z (-7) = "-7".
Proof. repeat split; reflexivity. Qed.

Example read_numeral_samples :
  Sql.read_numeral "101" = Sql.Whole 101 /\
  Sql.read_numeral " -7 " = Sql.Whole (-7) /\
  Sql.read_numeral "1.0" = Sql.Whole 1 /\
  Sql.read_numeral "1e2" = Sql.Whole 100 /\
  Sql.read_numeral "9223372036854775807" = Sql.Whole 9223372036854775807 /\
  Sql.read_numeral "9223372036854775808" = Sql.Inexact /\
  Sql.read_numeral "1.5" = Sql.Inexact /\
  Sql.read_numeral "" = Sql.NotNumeric /\
  Sql.read_numeral "4a" = Sql.NotNumeric /\
  Sql.read_numeral "1e" = Sql.NotNumeric.
Proof. repeat split; vm_compute; reflexivity. Qed.

Example affinity_samples :
  Sql.text_affinity (Sql.bind (JS.Num 7)) = Sql.Text "7" /\
  Sql.text_affinity (Sql.bind (JS.Num 2147483648)) = Sql.Text "2147483648.0" /\
  Sql.integer_affinity (Sql.bind (JS.Num 2147483648)) = Sql.Int 2147483648 /\
  Sql.integer_affinity (Sql.bind (JS.Str "101.0")) = Sql.Int 101 /\
  Sql.integer_affinity (Sql.bind (JS.Str "12a")) = Sql.Text "12a".
Proof. repeat split; vm_compute; reflexivity. Qed.

Example basename_samples :
JS.basename "/uploads/images-17" = "images-17" /\
JS.basename "uploads/images-17/" = "images-17" /\
JS.basename "images-17" = "images-17" /\
JS.basename "/" = "" /\ JS.basename "" = "".
Proof. repeat split; reflexivity. Qed.

Example parseInt_samples :
JS.parseInt (JS.Str " 42px") = Some 42 /\ JS.parseInt (JS.Str "-3") = Some (-3) /\
JS.parseInt (JS.Str "abc") = None /\ JS.parseInt JS.Undefined = None /\
JS.parseInt (JS.Str "9007199254740993") = Some 9007199254740992 /\
JS.parseInt (JS.Num (10 ^ 21)) = Some 1 /\
JS.parseInt (JS.Num 99999999999999991611392) = Some 1.
Proof. repeat split; vm_compute; reflexivity. Qed.

Example like_samples :
Sql.like "%42%" "Room 1423" = true /\ Sql.like "%ALI%" "alice" = true /\
Sql.like "%b%" "alice" = false /\ Sql.like "a_c" "abc" = true /\
Sql.like "%" "" = true /\ Sql.like "%_%" "" = false /\
Sql.like "_" "é" = true /\ Sql.like "__" "é" = false /\
Sql.like (String "a" (String "000" "b")) "a" = true /\
Sql.plain "Zoé 12" = true /\ Sql.plain (String "000" "") = false /\
Sql.plain (String "233" "") = false.
Proof. repeat split; vm_compute; reflexivity. Qed.


(** The scenario of the specification: Alice is created, signs in and
    out on a second row, and the listing shows both rows in order. *)
Example scenario_alice :
  let s1 := fst (submit_data alice Ok init) in
  let s2 := fst (newRow (row_request_of (JS.Num 1) (JS.Num 1)) Ok s1) in
  let s3 := fst (signIn (mkRowRequest (JS.Num 1) (JS.Num 1) (JS.Num 101)
                           (JS.Str "2024-01-01T09:00") JS.Undefined) Ok s2) in
  let s4 := fst (signOut (mkRowRequest (JS.Num 1) (JS.Num 1) JS.Undefined
                            JS.Undefined (JS.Str "2024-01-01T17:00")) Ok s3) in
  snd (submit_data alice Ok init) = Response 200 (Plain "Entry added with ID: 1")
  /\ get_timesheets "1" Ok s4
     = Response 200 (TimesheetsJson
         [ mkRow 1 (Sql.Int 1) (Sql.Int 0) Sql.Null Sql.Null Sql.Null;
           mkRow 2 (Sql.Int 1) (Sql.Int 1) (Sql.Int 101)
                 (Sql.Text "2024-01-01T09:00") (Sql.Text "2024-01-01T17:00") ]).
Proof. split; reflexivity. Qed.

(** ** Basic facts about the SQL operators *)

Lemma sql_eqb_eq (a b : Sql.value) : Sql.eqb a b = true -> a = b.
Proof.
  destruct a, b; simpl; try discriminate; intro H.
  - apply Z.eqb_eq in H. now subst.
  - apply Z.eqb_eq in H. now subst.
  - apply String.eqb_eq in H. now subst.
Qed.

Lemma sql_eqb_refl (a : Sql.value) : a <> Sql.Null -> Sql.eqb a a = true.
Proof.
  destruct a; simpl; intro H.
  - congruence.
  - apply Z.eqb_refl.
  - apply Z.eqb_refl.
  - apply String.eqb_refl.
Qed.

Lemma sql_eqb_nonnull (a b : Sql.value) : Sql.eqb a b = true -> b <> Sql.Null.
Proof. destruct a, b; simpl; congruence. Qed.

(** A number selects by its value, whichever way it was bound. *)
Lemma integer_affinity_num (z : Z) :
  Sql.integer_affinity (Sql.bind (JS.Num z)) = Sql.Int z.
Proof.
  unfold Sql.bind. now destruct ((- 2 ^ 31 <=? z) && (z <? 2 ^ 31)).
Qed.

Lemma id_is_num (z id : Z) : id_is (Sql.bind (JS.Num z)) id = (id =? z).
Proof. unfold id_is. now rewrite integer_affinity_num. Qed.

Lemma with_timesheets_same (st : state) : with_timesheets (timesheets st) st = st.
Proof. now destruct st. Qed.


Lemma map_if_none {A : Type} (p : A -> bool) (f : A -> A) (l : list A) :
  filter p l = [] -> map (fun x => if p x then f x else x) l = l.
Proof.
  induction l as [|x l IH]; simpl; [reflexivity|].
  destruct (p x); [discriminate|]. intro H. now rewrite IH.
Qed.

Lemma filter_nil_iff {A : Type} (p : A -> bool) (l : list A) :
  filter p l = [] <-> (forall x, In x l -> p x = false).
Proof.
  induction l as [|x l IH]; simpl.
  - split; [intros _ y []|reflexivity].
  - destruct (p x) eqn:E.
    + split; [discriminate|]. intro H. specialize (H x (or_introl eq_refl)). congruence.
    + rewrite IH. split.
      * intros H y [<-|Hy]; auto.
      * intros H y Hy. apply H. now right.
Qed.

Lemma Forall2_map_self {A : Type} (R : A -> A -> Prop) (f : A -> A) (l : list A) :
  (forall x, R x (f x)) -> Forall2 R l (map f l).
Proof. intro H. induction l; simpl; constructor; auto. Qed.

Lemma Forall2_self {A : Type} (R : A -> A -> Prop) (l : list A) :
  (forall x, R x x) -> Forall2 R l l.
Proof. intro H. induction l; constructor; auto. Qed.

(* ===================================================================== *)
(** ** Updating an entry *)
(* ===================================================================== *)


(** The entries after an update request, one for one. *)
Lemma update_data_entries (req : update_request) (fault : io) (st : state) :
  Forall2 (fun e e' =>
             e_id e' = e_id e /\ images e' = images e /\
             (id_is (Sql.bind (u_id req)) (e_id e) = true \/ e' = e))
          (entries st) (entries (fst (update_data req fault st))).
Proof.
  unfold update_data.
  assert (Hsame : forall e : entry,
             e_id e = e_id e /\ images e = images e /\
             (id_is (Sql.bind (u_id req)) (e_id e) = true \/ e = e))
    by (intro e; auto).
  destruct (JS.truthy (u_id req)); simpl; [|now apply Forall2_self].
  destruct fault as [|msg]; simpl; [|now apply Forall2_self].
  match goal with
  | |- context [(0 <? ?n)%nat] => destruct (0 <? n)%nat
  end; simpl; apply Forall2_map_self; intro e;
    destruct (id_is (Sql.bind (u_id req)) (e_id e)); simpl; auto.
Qed.

(** A WHERE clause [id = ?] selects at most one id. *)
Lemma id_is_one_id (p : Sql.value) :
  exists z, forall id, id_is p id = true -> id = z.
Proof.
  unfold id_is. destruct (Sql.integer_affinity p) as [|z|z|s].
  - exists 0. discriminate.
  - exists z. intros id H. now apply Z.eqb_eq in H.
  - exists 0. discriminate.
  - exists 0. discriminate.
Qed.

(** C7. An update request changes at most the columns firstName,
    lastName, roomNumber and additionalText of the entries it selects:
    the timesheets, both sequences, the last rowid and the uploaded
    files are untouched, every entry keeps its id and its images, and
    there is an id such that every entry with another id is left as it
    was.  When the engine reads the id of the request exactly, the
    entries that may change are those whose id the request names. *)
Theorem update_data_frame :
  forall (req : update_request) (fault : io) (st : state),
    let st' := fst (update_data req fault st) in
    timesheets st' = timesheets st /\
    timesheets_seq st' = timesheets_seq st /\
    entries_seq st' = entries_seq st /\
    last_insert_rowid st' = last_insert_rowid st /\
    uploads st' = uploads st /\
    Forall2 (fun e e' => e_id e' = e_id e /\ images e' = images e)
            (entries st) (entries st') /\
    (exists z, Forall2 (fun e e' => e_id e = z \/ e' = e)
                       (entries st) (entries st')) /\
    (Sql.exact_integer (u_id req) = true ->
     Forall2 (fun e e' => id_is (Sql.bind (u_id req)) (e_id e) = true \/ e' = e)
             (entries st) (entries st')).
Proof.
  intros req fault st st'.
  pose proof (update_data_entries req fault st) as Hent. fold st' in Hent.
  assert (Hrest : timesheets st' = timesheets st /\
                  timesheets_seq st' = timesheets_seq st /\
                  entries_seq st' = entries_seq st /\
                  last_insert_rowid st' = last_insert_rowid st /\
                  uploads st' = uploads st).
  { subst st'. unfold update_data.
    destruct (JS.truthy (u_id req)); simpl; [|now repeat split].
    destruct fault as [|msg]; simpl; [|now repeat split].
    match goal with
    | |- context [(0 <? ?n)%nat] => destruct (0 <? n)%nat
    end; simpl; now repeat split. }
  destruct Hrest as (H1 & H2 & H3 & H4 & H5).
  repeat (split; [assumption|]). split; [|split].
  - revert Hent. apply Forall2_impl. intros e e' (Hi & Hm & _). now split.
  - destruct (id_is_one_id (Sql.bind (u_id req))) as [z Hz]. exists z.
    revert Hent. apply Forall2_impl. intros e e' (_ & _ & [H|H]); [left|right]; auto.
  - intros _. revert Hent. apply Forall2_impl. now intros e e' (_ & _ & H).
Qed.




(** C10. An update whose id is the number 0 or the empty string is
    answered 400 "ID is required" and changes nothing, whatever the
    state holds; the same goes for every falsy id. *)
Theorem update_data_falsy_id :
  forall (fn ln rn txt : JS.value) (fault : io) (st : state),
    update_data (mkUpdate (JS.Num 0) fn ln rn txt) fault st
    = (st, Response 400 (Plain "ID is required")) /\
    update_data (mkUpdate (JS.Str "") fn ln rn txt) fault st
    = (st, Response 400 (Plain "ID is required")) /\
    (forall id, JS.truthy id = false ->
                update_data (mkUpdate id fn ln rn txt) fault st
                = (st, Response 400 (Plain "ID is required"))).
Proof.
  intros. repeat split. intros id H. unfold update_data. simpl. now rewrite H.
Qed.

Lemma update_data_falsy_id_witness :
  JS.truthy JS.Null = false /\
  update_data (mkUpdate JS.Null (JS.Str "Bob") JS.Undefined JS.Undefined
                        JS.Undefined) Ok one_entry
  = (one_entry, Response 400 (Plain "ID is required")).
Proof.
  split; [reflexivity|].
  apply (proj2 (proj2 (update_data_falsy_id (JS.Str "Bob") JS.Undefined
                         JS.Undefined JS.Undefined Ok one_entry))).
  reflexivity.
Defined.

(* ===================================================================== *)
(** ** Signing in *)
(* ===================================================================== *)

(** C9. When the engine reports no error, signIn answers 200 "SignIn
    successful", whatever the request and the state; when entryId and
    timesheetRow are read exactly by the engine and no row has them,
    nothing is updated, and the answer is that same 200. *)
Theorem signIn_reports_success :
  forall (req : row_request) (st : state),
    snd (signIn req Ok st)
    = Response 200 (InsertedJson "SignIn successful" (last_insert_rowid st)) /\
    (Sql.exact_integer (r_entryId req) = true ->
     Sql.exact_integer (r_timesheetRow req) = true ->
     filter (row_is (Sql.bind (r_entryId req)) (Sql.bind (r_timesheetRow req)))
            (timesheets st) = [] ->
     fst (signIn req Ok st) = st).
Proof.
  intros req st. unfold signIn, update_timesheets. simpl. split; [reflexivity|].
  intros _ _ H. rewrite (map_if_none _ _ _ H). apply with_timesheets_same.
Qed.

Lemma signIn_reports_success_witness :
  let req := mkRowRequest (JS.Num 42) (JS.Str "3") (JS.Num 101)
                          (JS.Str "2024-01-01T09:00") JS.Undefined in
  signIn req Ok one_entry
  = (one_entry, Response 200 (InsertedJson "SignIn successful" 1)).
Proof.
  intro req.
  rewrite (surjective_pairing (signIn req Ok one_entry)).
  rewrite (proj1 (signIn_reports_success req one_entry)).
  rewrite (proj2 (signIn_reports_success req one_entry));
    vm_compute; reflexivity.
Defined.

(* ===================================================================== *)
(** ** Creating an entry *)
(* ===================================================================== *)

(** AUTOINCREMENT hands out an id larger than every id in the table. *)
Lemma next_rowid_above (seq : Z) (ids : list Z) (x : Z) :
  In x ids -> x < next_rowid seq ids.
Proof.
  unfold next_rowid. induction ids as [|y ids IH]; simpl; [intros []|].
  intros [->|H]; [lia|]. specialize (IH H). lia.
Qed.

Lemma next_rowid_fresh (seq : Z) (ids : list Z) : ~ In (next_rowid seq ids) ids.
Proof. intro H. apply (next_rowid_above seq) in H. lia. Qed.

Lemma next_rowid_above_seq (seq : Z) (ids : list Z) : seq < next_rowid seq ids.
Proof. unfold next_rowid. induction ids as [|y ids IH]; simpl; lia. Qed.

(** Storing uploaded files touches the [uploads] directory only. *)
Lemma store_files_db (files : list upload) (st : state) :
  entries (store_files files st) = entries st /\
  entries_seq (store_files files st) = entries_seq st /\
  timesheets (store_files files st) = timesheets st /\
  timesheets_seq (store_files files st) = timesheets_seq st /\
  last_insert_rowid (store_files files st) = last_insert_rowid st.
Proof.
  unfold store_files. revert st.
  induction files as [|f files IH]; intro st; simpl; [now repeat split|].
  destruct (IH (write_file (filename f) st)) as (H1 & H2 & H3 & H4 & H5).
  rewrite H1, H2, H3, H4, H5. unfold write_file.
  destruct (file_exists (filename f) st); now repeat split.
Qed.

Lemma multer_accepts (files : list upload) (st : state) :
  (List.length files <= 10)%nat -> multer files st = inl (store_files files st).
Proof.
  intro H. unfold multer.
  destruct (10 <? List.length files)%nat eqn:E; [|reflexivity].
  apply Nat.ltb_lt in E. lia.
Qed.

(** C1, as the code has it.  A submit request with at most ten files
    that the engine accepts creates an entry under a new id and, through
    the insert trigger, appends one TimesheetRow for that id with
    timesheetRow 0 and roomNumber, signIn, signOut NULL.  The rows of
    that id at index 0 are those that were already stored followed by
    the new one; the new row is therefore the only one exactly when no
    such row had been stored for that id beforehand. *)
Theorem submit_data_adds_row0 :
  forall (req : submit_request) (st : state),
    (List.length (s_files req) <= 10)%nat ->
    let id := next_rowid (entries_seq st) (map e_id (entries st)) in
    let tid := next_rowid (timesheets_seq st) (map t_id (timesheets st)) in
    let st' := fst (submit_data req Ok st) in
    snd (submit_data req Ok st)
    = Response 200 (Plain ("Entry added with ID: " ++ Str.of_Z id)%string) /\
    last_insert_rowid st' = id /\
    ~ In id (map e_id (entries st)) /\
    (exists e, e_id e = id /\ entries st' = entries st ++ [e]) /\
    timesheets st' = timesheets st ++ [fresh_row0 tid (Sql.Int id)] /\
    row0_rows id st' = row0_rows id st ++ [fresh_row0 tid (Sql.Int id)] /\
    (row0_rows id st = [] -> row0_rows id st' = [fresh_row0 tid (Sql.Int id)]).
Proof.
  intros req st Hlen id tid st'.
  assert (Hrows : timesheets st' = timesheets st ++ [fresh_row0 tid (Sql.Int id)]).
  { subst st' id tid. unfold submit_data. rewrite (multer_accepts _ _ Hlen).
    destruct (store_files_db (s_files req) st) as (H1 & H2 & H3 & H4 & H5).
    simpl. unfold insert_entry, after_entry_insert, insert_timesheet. simpl.
    now rewrite H1, H2, H3, H4. }
  assert (Hrow0 : row0_rows id st' = row0_rows id st ++ [fresh_row0 tid (Sql.Int id)]).
  { unfold row0_rows. rewrite Hrows, filter_app. simpl.
    now rewrite Z.eqb_refl. }
  repeat split.
  - subst st' id. unfold submit_data. rewrite (multer_accepts _ _ Hlen).
    destruct (store_files_db (s_files req) st) as (H1 & H2 & H3 & H4 & H5).
    simpl. now rewrite H1, H2.
  - subst st' id. unfold submit_data. rewrite (multer_accepts _ _ Hlen).
    destruct (store_files_db (s_files req) st) as (H1 & H2 & H3 & H4 & H5).
    simpl. now rewrite H1, H2.
  - apply next_rowid_fresh.
  - subst st' id. unfold submit_data. rewrite (multer_accepts _ _ Hlen).
    destruct (store_files_db (s_files req) st) as (H1 & H2 & H3 & H4 & H5).
    simpl. rewrite H1, H2. eexists. split; [|reflexivity]. reflexivity.
  - exact Hrows.
  - exact Hrow0.
  - intro H. now rewrite Hrow0, H.
Qed.

Lemma submit_data_adds_row0_witness :
  (List.length (s_files alice) <= 10)%nat /\
  row0_rows 1 init = [] /\
  row0_rows 1 (fst (submit_data alice Ok init)) = [fresh_row0 1 (Sql.Int 1)].
Proof.
  assert (Hlen : (List.length (s_files alice) <= 10)%nat) by (simpl; lia).
  split; [exact Hlen|]. split; [reflexivity|].
  apply (proj2 (proj2 (proj2 (proj2 (proj2 (proj2
           (submit_data_adds_row0 alice init Hlen))))))).
  reflexivity.
Defined.

(** Under referential integrity (every TimesheetRow names a stored
    entry) no row can carry the id the next entry will get. *)
Lemma no_row_for_next_id (st : state) :
  (forall r, In r (timesheets st) ->
             exists e, In e (entries st) /\ entryId r = Sql.Int (e_id e)) ->
  row0_rows (next_rowid (entries_seq st) (map e_id (entries st))) st = [].
Proof.
  intro H. unfold row0_rows. apply filter_nil_iff. intros r Hr.
  destruct (H r Hr) as (e & He & Heq). rewrite Heq. simpl.
  apply andb_false_intro1. apply Z.eqb_neq. intro E.
  apply (next_rowid_fresh (entries_seq st) (map e_id (entries st))).
  rewrite <- E. now apply in_map.
Qed.

(** C1 as written fails.  On the empty database, newRow stores a row
    (entryId 1, timesheetRow 0): the foreign key is not enforced and the
    handler checks nothing.  The entry created next receives id 1, the
    trigger adds its row 0, and entry 1 has two rows at index 0. *)
Lemma one_row0_after_creation_fails : ~ one_row0_after_creation.
Proof.
  intro H.
  assert (Hlen : (List.length (s_files alice) <= 10)%nat) by (simpl; lia).
  destruct (H alice planted Hlen) as [tid E].
  vm_compute in E. discriminate E.
Qed.

(* ===================================================================== *)
(** ** Deleting timesheet rows: the delete loop and its trigger *)
(* ===================================================================== *)

Lemma filter_filter {A : Type} (p q : A -> bool) (l : list A) :
  filter p (filter q l) = filter (fun x => q x && p x) l.
Proof.
  induction l as [|x l IH]; simpl; [reflexivity|].
  destruct (q x); simpl; [destruct (p x)|]; now rewrite IH.
Qed.

(** Rows selected from a table with unique rowids have unique rowids,
    and a rowid names one row. *)
Lemma unique_ids_filter (cond : timesheet -> bool) (rows : list timesheet) :
  NoDup (map t_id rows) -> NoDup (map t_id (filter cond rows)).
Proof.
  induction rows as [|x rows IH]; simpl; [auto|].
  intro H. inversion H as [|? ? Hx Hrows]; subst.
  destruct (cond x); simpl; [constructor|]; auto.
  intro Hin. apply Hx. apply in_map_iff in Hin. destruct Hin as (y & Hy & Hin).
  apply in_map_iff. exists y. split; [assumption|].
  now apply filter_In in Hin.
Qed.

Lemma unique_id_row (rows : list timesheet) (x y : timesheet) :
  NoDup (map t_id rows) -> In x rows -> In y rows -> t_id x = t_id y -> x = y.
Proof.
  induction rows as [|z rows IH]; simpl; [intros _ []|].
  intros H Hx Hy E. inversion H as [|? ? Hz Hrows]; subst.
  destruct Hx as [->|Hx], Hy as [->|Hy]; auto.
  - exfalso. apply Hz. rewrite E. now apply in_map.
  - exfalso. apply Hz. rewrite <- E. now apply in_map.
Qed.

Lemma spared_cons (v : timesheet) (vs : list timesheet) (r : timesheet) :
  spared (v :: vs) r = negb (t_id r =? t_id v) && spared vs r.
Proof. unfold spared. simpl. now rewrite negb_orb. Qed.

Lemma spared_app (vs ws : list timesheet) (r : timesheet) :
  spared (vs ++ ws) r = spared vs r && spared ws r.
Proof. unfold spared. now rewrite existsb_app, negb_orb. Qed.

Lemma spared_true (vs : list timesheet) (r : timesheet) :
  spared vs r = true <-> ~ In (t_id r) (map t_id vs).
Proof.
  unfold spared. rewrite negb_true_iff. split.
  - intros H Hin. apply in_map_iff in Hin. destruct Hin as (v & Hv & Hin).
    assert (E : existsb (fun v => t_id r =? t_id v) vs = true).
    { apply existsb_exists. exists v. split; [assumption|]. rewrite Hv. apply Z.eqb_refl. }
    congruence.
  - intro H. destruct (existsb _ vs) eqn:E; [|reflexivity].
    apply existsb_exists in E. destruct E as (v & Hv & E). apply Z.eqb_eq in E.
    exfalso. apply H. rewrite E. now apply in_map.
Qed.

(** Under unique rowids, the rows spared by a DELETE are those its
    WHERE clause rejects. *)
Lemma spared_filter (cond : timesheet -> bool) (rows : list timesheet) :
  NoDup (map t_id rows) ->
  filter (spared (filter cond rows)) rows = filter (fun r => negb (cond r)) rows.
Proof.
  intro Hnd. apply filter_ext_in. intros r Hr.
  destruct (cond r) eqn:Hc; simpl.
  - apply not_true_is_false. intro H. apply spared_true in H. apply H.
    apply in_map. apply filter_In. now split.
  - apply spared_true. intro Hin. apply in_map_iff in Hin.
    destruct Hin as (v & Hv & Hin). apply filter_In in Hin. destruct Hin as [Hin Hcv].
    assert (v = r) by (eapply unique_id_row; eauto). subst. congruence.
Qed.

Lemma delete_timesheet_rows_app (vs ws : list timesheet) (st : state) :
  delete_timesheet_rows (vs ++ ws) st
  = delete_timesheet_rows ws (delete_timesheet_rows vs st).
Proof. revert st. induction vs as [|v vs IH]; intro st; simpl; auto. Qed.

Lemma count_timesheets_zero (eid : Sql.value) (st : state) :
  (count_timesheets eid st =? 0)%nat = true <->
  (forall r, In r (timesheets st) -> Sql.eqb (entryId r) eid = false).
Proof.
  unfold count_timesheets. rewrite Nat.eqb_eq, length_zero_iff_nil.
  apply filter_nil_iff.
Qed.

Section DeleteLoop.

Variable eid : Sql.value.

(** As long as a row of the entry is spared, the trigger stays idle
    and the loop only removes the collected rows. *)
Lemma delete_timesheet_rows_idle (vs : list timesheet) :
  forall (st : state) (s : timesheet),
    (forall v, In v vs -> entryId v = eid) ->
    In s (timesheets st) ->
    Sql.eqb (entryId s) eid = true ->
    spared vs s = true ->
    delete_timesheet_rows vs st
    = with_timesheets (filter (spared vs) (timesheets st)) st.
Proof.
  induction vs as [|v vs IH]; intros st s Hvs Hs Heid Hsp; simpl.
  - unfold spared. simpl. now rewrite filter_true, with_timesheets_same.
  - rewrite spared_cons in Hsp. apply andb_prop in Hsp. destruct Hsp as [Hne Hsp].
    assert (Hs1 : In s (timesheets (remove_timesheet (t_id v) st))).
    { simpl. apply filter_In. split; [assumption|]. exact Hne. }
    assert (Htrig : after_last_timesheetRow_delete v (remove_timesheet (t_id v) st)
                    = remove_timesheet (t_id v) st).
    { unfold after_last_timesheetRow_delete.
      destruct (count_timesheets (entryId v) (remove_timesheet (t_id v) st) =? 0)%nat
        eqn:E; [|reflexivity].
      rewrite count_timesheets_zero in E. specialize (E s Hs1).
      rewrite (Hvs v (or_introl eq_refl)) in E. congruence. }
    rewrite Htrig.
    rewrite (IH (remove_timesheet (t_id v) st) s); auto.
    + simpl. rewrite filter_filter. unfold with_timesheets. simpl.
      f_equal. apply filter_ext. intro r. now rewrite spared_cons.
    + intros w Hw. apply Hvs. now right.
Qed.

(** When the WHERE clause selects every row of the entry, and there is
    one, the last removal fires the trigger: the rows of the other
    entries remain and one row 0 is inserted for the entry. *)
Lemma delete_where_all_rows (cond : timesheet -> bool) (st : state) :
  NoDup (map t_id (timesheets st)) ->
  (forall r, In r (timesheets st) -> cond r = Sql.eqb (entryId r) eid) ->
  (exists r, In r (timesheets st) /\ cond r = true) ->
  delete_timesheets_where cond st
  = insert_timesheet eid (Sql.Int 0)
      (with_timesheets (filter (fun r => negb (cond r)) (timesheets st)) st).
Proof.
  intros Hnd Hcond (r0 & Hr0 & Hc0).
  unfold delete_timesheets_where.
  assert (Hne : filter cond (timesheets st) <> []).
  { intro E. assert (In r0 (filter cond (timesheets st))) by (apply filter_In; auto).
    rewrite E in H. contradiction. }
  destruct (exists_last Hne) as (vs & v & Hsplit).
  assert (Hvict : forall w, In w (vs ++ [v]) ->
                            In w (timesheets st) /\ entryId w = eid).
  { intros w Hw. rewrite <- Hsplit in Hw. apply filter_In in Hw.
    destruct Hw as [Hw Hcw]. split; [assumption|].
    rewrite (Hcond w Hw) in Hcw. now apply sql_eqb_eq. }
  assert (Hv : In v (timesheets st) /\ entryId v = eid).
  { apply Hvict. apply in_or_app. right. now left. }
  destruct Hv as [Hv Hveid].
  assert (Heqb : Sql.eqb (entryId v) eid = true).
  { rewrite <- (Hcond v Hv).
    assert (In v (filter cond (timesheets st))).
    { rewrite Hsplit. apply in_or_app. right. now left. }
    now apply filter_In in H. }
  assert (Hndv : NoDup (map t_id (vs ++ [v]))).
  { rewrite <- Hsplit. now apply unique_ids_filter. }
  assert (Hspv : spared vs v = true).
  { apply spared_true. rewrite map_app in Hndv. simpl in Hndv.
    apply NoDup_remove_2 in Hndv. rewrite app_nil_r in Hndv. exact Hndv. }
  rewrite Hsplit, delete_timesheet_rows_app.
  rewrite (delete_timesheet_rows_idle vs st v); auto.
  2:{ intros w Hw. apply Hvict. apply in_or_app. now left. }
  simpl.
  assert (Hrows : filter (fun r => negb (t_id r =? t_id v))
                         (filter (spared vs) (timesheets st))
                  = filter (fun r => negb (cond r)) (timesheets st)).
  { rewrite filter_filter, <- (spared_filter cond _ Hnd), Hsplit.
    apply filter_ext. intro r. rewrite spared_app. f_equal.
    unfold spared. simpl. now rewrite orb_false_r. }
  unfold after_last_timesheetRow_delete.
  assert (Hzero : (count_timesheets (entryId v)
                     (remove_timesheet (t_id v)
                        (with_timesheets (filter (spared vs) (timesheets st)) st))
                   =? 0)%nat = true).
  { apply count_timesheets_zero. simpl. rewrite Hrows. intros r Hr.
    apply filter_In in Hr. destruct Hr as [Hr Hcr].
    rewrite Hveid, <- (Hcond r Hr). now apply negb_true_iff. }
  rewrite Hzero, Hveid. unfold insert_timesheet, remove_timesheet, with_timesheets.
  simpl. now rewrite Hrows.
Qed.

(** When a row of the entry escapes the WHERE clause, the DELETE just
    removes the selected rows. *)
Lemma delete_where_some_left (cond : timesheet -> bool) (st : state) (s : timesheet) :
  NoDup (map t_id (timesheets st)) ->
  (forall r, In r (timesheets st) -> cond r = true -> entryId r = eid) ->
  In s (timesheets st) ->
  Sql.eqb (entryId s) eid = true ->
  cond s = false ->
  delete_timesheets_where cond st
  = with_timesheets (filter (fun r => negb (cond r)) (timesheets st)) st.
Proof.
  intros Hnd Hcond Hs Heid Hcs. unfold delete_timesheets_where.
  rewrite (delete_timesheet_rows_idle _ st s); auto.
  - now rewrite spared_filter.
  - intros v Hv. apply filter_In in Hv. destruct Hv. auto.
  - apply spared_true. intro Hin. apply in_map_iff in Hin.
    destruct Hin as (v & Hv & Hin). apply filter_In in Hin. destruct Hin as [Hin Hcv].
    assert (v = s) by (eapply unique_id_row; eauto). subst. congruence.
Qed.

End DeleteLoop.

(* ===================================================================== *)
(** ** Deleting the last timesheet row of an entry *)
(* ===================================================================== *)

Lemma fold_max_below (seq : Z) (ids : list Z) :
  (forall x, In x ids -> x <= seq) -> fold_right Z.max seq ids = seq.
Proof.
  induction ids as [|y ids IH]; simpl; [reflexivity|].
  intro H. rewrite IH by (intros x Hx; apply H; now right).
  specialize (H y (or_introl eq_refl)). lia.
Qed.

Lemma filter_none {A : Type} (p : A -> bool) (l : list A) :
  (forall x, In x l -> p x = false) -> filter p l = [].
Proof. apply filter_nil_iff. Qed.

Lemma filter_all {A : Type} (p : A -> bool) (l : list A) :
  (forall x, In x l -> p x = true) -> filter p l = l.
Proof.
  intro H. rewrite (filter_ext_in p (fun _ => true) l H). apply filter_true.
Qed.

(** The state after a deleteRow that selects every row of its entry. *)
Lemma deleteRow_all_rows (pe pr : JS.value) (st : state) :
  NoDup (map t_id (timesheets st)) ->
  let eid := Sql.integer_affinity (Sql.bind pe) in
  rows_of eid st <> [] ->
  (forall r, In r (rows_of eid st) ->
             row_is (Sql.bind pe) (Sql.bind pr) r = true) ->
  let others := filter (fun r => negb (Sql.eqb (entryId r) eid)) (timesheets st) in
  let tid := next_rowid (timesheets_seq st) (map t_id others) in
  deleteRow (row_request_of pe pr) Ok st
  = (mkState (entries st) (entries_seq st) (others ++ [fresh_row0 tid eid]) tid
             (last_insert_rowid st) (uploads st),
     Response 200 (RowDeletedJson "Row deleted successfully" pe)).
Proof.
  intros Hnd eid Hne Hall others tid. unfold deleteRow. simpl. f_equal.
  assert (Hcond : forall r, In r (timesheets st) ->
            row_is (Sql.bind pe) (Sql.bind pr) r = Sql.eqb (entryId r) eid).
  { intros r Hr. destruct (Sql.eqb (entryId r) eid) eqn:E.
    - apply Hall. unfold rows_of. apply filter_In. now split.
    - unfold row_is. fold eid. now rewrite E. }
  assert (Hex : exists r, In r (timesheets st)
                          /\ row_is (Sql.bind pe) (Sql.bind pr) r = true).
  { assert (Hin : exists r, In r (rows_of eid st))
      by (destruct (rows_of eid st) as [|r l]; [congruence | exists r; now left]).
    destruct Hin as [r Hr]. exists r. split; [|now apply Hall].
    unfold rows_of in Hr. now apply filter_In in Hr. }
  rewrite (delete_where_all_rows eid _ st Hnd Hcond Hex).
  unfold insert_timesheet. simpl.
  assert (Hothers : filter (fun r => negb (row_is (Sql.bind pe) (Sql.bind pr) r))
                           (timesheets st) = others).
  { apply filter_ext_in. intros r Hr. now rewrite Hcond. }
  now rewrite Hothers.
Qed.

(** C2, as the code has it.  When a deleteRow request selects every
    TimesheetRow of its entry (so that none would be left), the delete
    trigger inserts, within the same statement, one row for that entry
    with timesheetRow 0 and NULL fields: it becomes the entry's only
    row, and rows of other entries, entries and files are untouched.
    Deleting this replacement row again yields the same state up to
    the id of the replacement: AUTOINCREMENT gives each replacement a
    new, larger id, and every other column of every row is the same. *)
Theorem deleteRow_last_row :
  forall (pe pr : JS.value) (st : state),
    pk_unique st ->
    let eid := Sql.integer_affinity (Sql.bind pe) in
    rows_of eid st <> [] ->
    (forall r, In r (rows_of eid st) ->
               row_is (Sql.bind pe) (Sql.bind pr) r = true) ->
    let others := filter (fun r => negb (Sql.eqb (entryId r) eid)) (timesheets st) in
    let tid := next_rowid (timesheets_seq st) (map t_id others) in
    let st1 := fst (deleteRow (row_request_of pe pr) Ok st) in
    let st2 := fst (deleteRow (row_request_of pe (JS.Num 0)) Ok st1) in
    timesheets st1 = others ++ [fresh_row0 tid eid] /\
    rows_of eid st1 = [fresh_row0 tid eid] /\
    entries st1 = entries st /\
    uploads st1 = uploads st /\
    timesheets st2 = others ++ [fresh_row0 (tid + 1) eid] /\
    rows_of eid st2 = [fresh_row0 (tid + 1) eid] /\
    map content (timesheets st2) = map content (timesheets st1) /\
    entries st2 = entries st1 /\
    entries_seq st2 = entries_seq st1 /\
    last_insert_rowid st2 = last_insert_rowid st1 /\
    uploads st2 = uploads st1.
Proof.
  intros pe pr st [_ Hnd] eid Hne Hall others tid st1 st2.
  assert (Heid : Sql.eqb eid eid = true).
  { assert (Hin : exists r, In r (rows_of eid st))
      by (destruct (rows_of eid st) as [|r l]; [congruence | exists r; now left]).
    destruct Hin as [r Hr].
    unfold rows_of in Hr. apply filter_In in Hr. destruct Hr as [_ Hr].
    apply sql_eqb_refl. eapply sql_eqb_nonnull; eauto. }
  assert (Hothers_no : forall r, In r others -> Sql.eqb (entryId r) eid = false).
  { intros r Hr. subst others. apply filter_In in Hr. destruct Hr as [_ Hr].
    now apply negb_true_iff. }
  assert (Hrows_fresh : forall t, filter (fun r => Sql.eqb (entryId r) eid)
                                    (others ++ [fresh_row0 t eid])
                                  = [fresh_row0 t eid]).
  { intro t. rewrite filter_app, (filter_none _ _ Hothers_no). simpl.
    now rewrite Heid. }
  assert (H1 : st1 = mkState (entries st) (entries_seq st)
                             (others ++ [fresh_row0 tid eid]) tid
                             (last_insert_rowid st) (uploads st)).
  { subst st1. now rewrite (deleteRow_all_rows pe pr st Hnd Hne Hall). }
  assert (Hnd1 : NoDup (map t_id (timesheets st1))).
  { rewrite H1. simpl. rewrite map_app. simpl.
    apply NoDup_app.
    - subst others. now apply unique_ids_filter.
    - constructor; [intros []|constructor].
    - intros x Hx [<-|[]]. revert Hx. apply next_rowid_fresh. }
  assert (Hne1 : rows_of eid st1 <> []).
  { rewrite H1. unfold rows_of. simpl. rewrite Hrows_fresh. discriminate. }
  assert (Hall1 : forall r, In r (rows_of eid st1) ->
                    row_is (Sql.bind pe) (Sql.bind (JS.Num 0)) r = true).
  { rewrite H1. unfold rows_of. simpl. rewrite Hrows_fresh.
    intros r [<-|[]]. unfold row_is. fold eid. simpl. now rewrite Heid. }
  assert (Hothers1 : filter (fun r => negb (Sql.eqb (entryId r) eid)) (timesheets st1)
                     = others).
  { rewrite H1. simpl. rewrite filter_app. simpl. rewrite Heid. simpl.
    rewrite app_nil_r. apply filter_all. intros r Hr.
    now rewrite (Hothers_no r Hr). }
  assert (Htid1 : next_rowid (timesheets_seq st1) (map t_id others) = tid + 1).
  { rewrite H1. simpl. unfold next_rowid at 1. f_equal. apply fold_max_below.
    intros x Hx. apply (next_rowid_above (timesheets_seq st)) in Hx.
    subst tid. lia. }
  assert (H2 : st2 = mkState (entries st1) (entries_seq st1)
                             (others ++ [fresh_row0 (tid + 1) eid]) (tid + 1)
                             (last_insert_rowid st1) (uploads st1)).
  { subst st2. rewrite (deleteRow_all_rows pe (JS.Num 0) st1 Hnd1 Hne1 Hall1).
    simpl. fold eid. now rewrite Hothers1, Htid1. }
  repeat split.
  - now rewrite H1.
  - rewrite H1. unfold rows_of. simpl. apply Hrows_fresh.
  - now rewrite H1.
  - now rewrite H1.
  - now rewrite H2.
  - rewrite H2. unfold rows_of. simpl. apply Hrows_fresh.
  - rewrite H2, H1. simpl. now rewrite !map_app.
  - now rewrite H2.
  - now rewrite H2.
  - now rewrite H2.
  - now rewrite H2.
Qed.

Lemma deleteRow_last_row_witness :
  let st1 := fst (deleteRow (row_request_of (JS.Num 1) (JS.Num 0)) Ok one_entry) in
  let st2 := fst (deleteRow (row_request_of (JS.Num 1) (JS.Num 0)) Ok st1) in
  pk_unique one_entry /\
  rows_of (Sql.Int 1) one_entry <> [] /\
  rows_of (Sql.Int 1) st1 = [fresh_row0 2 (Sql.Int 1)] /\
  map content (timesheets st2) = map content (timesheets st1).
Proof.
  assert (Hpk : pk_unique one_entry).
  { split; simpl; (constructor; [intros [] | constructor]). }
  assert (Hne : rows_of (Sql.integer_affinity (Sql.bind (JS.Num 1))) one_entry <> [])
    by (vm_compute; discriminate).
  assert (Hall : forall r,
            In r (rows_of (Sql.integer_affinity (Sql.bind (JS.Num 1))) one_entry) ->
            row_is (Sql.bind (JS.Num 1)) (Sql.bind (JS.Num 0)) r = true).
  { intros r [<-|[]]. reflexivity. }
  pose proof (deleteRow_last_row (JS.Num 1) (JS.Num 0) one_entry Hpk Hne Hall) as H.
  cbv zeta in H. destruct H as (_ & H2 & _ & _ & _ & _ & H7 & _).
  split; [exact Hpk|]. split; [exact Hne|]. split; [exact H2 | exact H7].
Defined.

(** C2 as written fails in its last part.  Entry 1 has its row 0 under
    id 1; deleting it brings a replacement under id 2, and deleting the
    replacement brings one under id 3: the two states differ. *)
Lemma delete_last_row_idempotent_fails : ~ delete_last_row_idempotent.
Proof.
  intro H.
  assert (Hpk : pk_unique one_entry).
  { split; simpl; (constructor; [intros [] | constructor]). }
  destruct (H (JS.Num 1) (JS.Num 0) one_entry Hpk) as [_ E].
  - vm_compute. discriminate.
  - intros r [<-|[]]. reflexivity.
  - vm_compute in E. discriminate E.
Qed.

(* ===================================================================== *)
(** ** Deleting an entry *)
(* ===================================================================== *)

Lemma filter_unique_id (z : Z) (es : list entry) :
  NoDup (map e_id es) -> In z (map e_id es) ->
  exists e, In e es /\ e_id e = z /\ filter (fun x => e_id x =? z) es = [e].
Proof.
  induction es as [|x es IH]; simpl; [intros _ []|].
  intros Hnd Hin. inversion Hnd as [|? ? Hx Hes]; subst.
  destruct (Z.eqb_spec (e_id x) z) as [E|E].
  - exists x. repeat split; auto. f_equal. apply filter_none.
    intros y Hy. apply Z.eqb_neq. intro Ey. apply Hx. rewrite E, <- Ey.
    now apply in_map.
  - destruct Hin as [Hin|Hin]; [contradiction|].
    destruct (IH Hes Hin) as (e & He & Hid & Hf). exists e. auto.
Qed.

(** What DELETE /delete-data leaves behind.  The delete trigger of
    [entries] removes the rows of the entry one by one; when the last
    of them goes, the delete trigger of [timesheets] finds the entry
    without rows and inserts a row 0 for the id that has just been
    deleted. *)
Lemma delete_data_leaves_orphan (id : JS.value) (z : Z) (st : state) :
  JS.parseInt id = Some z ->
  pk_unique st ->
  In z (map e_id (entries st)) ->
  rows_of (Sql.Int z) st <> [] ->
  let others :=
    filter (fun r => negb (Sql.eqb (entryId r) (Sql.Int z))) (timesheets st) in
  let tid := next_rowid (timesheets_seq st) (map t_id others) in
  delete_data id Ok st
  = (mkState (filter (fun e => negb (e_id e =? z)) (entries st)) (entries_seq st)
             (others ++ [fresh_row0 tid (Sql.Int z)]) tid
             (last_insert_rowid st) (uploads st),
     Response 200 (SuccessJson "Entry deleted")).
Proof.
  intros Hid [Hnde Hndt] Hin Hne others tid.
  unfold delete_data. rewrite Hid. unfold delete_entries_where_id.
  assert (Hf : filter (fun e => id_is (Sql.bind (JS.Num z)) (e_id e)) (entries st)
               = filter (fun e => e_id e =? z) (entries st))
    by (apply filter_ext; intro e; apply id_is_num).
  rewrite Hf. destruct (filter_unique_id z (entries st) Hnde Hin) as (e & He & Hz & Hone).
  rewrite Hone. simpl. unfold after_entry_delete. rewrite Hz.
  rewrite (delete_where_all_rows (Sql.Int z)).
  - reflexivity.
  - exact Hndt.
  - reflexivity.
  - assert (Hex : exists r, In r (rows_of (Sql.Int z) st))
      by (destruct (rows_of (Sql.Int z) st) as [|r l]; [congruence | exists r; now left]).
    destruct Hex as [r Hr]. unfold rows_of in Hr. apply filter_In in Hr.
    exists r. exact Hr.
Qed.

(** C3 on the state that holds the single entry 1 and its row 0.  The
    entry is deleted and the answer is 200 "Entry deleted", but the
    timesheets table then holds a new row (id 2, entryId 1,
    timesheetRow 0), and listing the rows of entry 1 returns it. *)
Theorem delete_data_leaves_row0 :
  delete_data (JS.Num 1) Ok one_entry
  = (mkState [] 1 [fresh_row0 2 (Sql.Int 1)] 2 1 [],
     Response 200 (SuccessJson "Entry deleted")) /\
  get_timesheets "1" Ok (fst (delete_data (JS.Num 1) Ok one_entry))
  = Response 200 (TimesheetsJson [fresh_row0 2 (Sql.Int 1)]).
Proof. split; reflexivity. Qed.

(* ===================================================================== *)
(** ** Deleting an image *)
(* ===================================================================== *)

Lemma file_exists_no_nul (name : string) (st : state) :
  file_exists name st = true -> Str.mem "000" name = false.
Proof.
  unfold file_exists. intro H. apply andb_true_iff in H. destruct H as [H _].
  now apply negb_true_iff in H.
Qed.

Lemma unlink_present (name : string) (st : state) :
  is_directory name = false -> file_exists name st = true ->
  unlink name Ok st = Unlinked (remove_file name st).
Proof.
  intros Hdir Hfile. unfold unlink.
  now rewrite (file_exists_no_nul name st Hfile), Hdir, Hfile.
Qed.

(** What POST /delete-image does when the file is there and the entry
    is not: the file is unlinked, the SELECT finds no row, and reading
    [row.images] throws inside the callback.  No response is sent;
    the database is as before and the file is gone. *)
Lemma delete_image_without_entry (entryId : JS.value) (imageName : string)
    (st : state) :
  is_directory (JS.basename imageName) = false ->
  file_exists (JS.basename imageName) st = true ->
  select_entry (Sql.bind entryId) st = None ->
  delete_image (mkDeleteImage entryId (JS.Str imageName)) Ok Ok Ok st
  = (remove_file (JS.basename imageName) st,
     Uncaught "TypeError: Cannot read properties of undefined (reading 'images')").
Proof.
  intros Hdir Hfile Hsel. unfold delete_image.
  cbn [di_imageName di_entryId]. rewrite (unlink_present _ _ Hdir Hfile).
  assert (E : select_entry (Sql.bind entryId) (remove_file (JS.basename imageName) st)
              = select_entry (Sql.bind entryId) st) by reflexivity.
  now rewrite E, Hsel.
Qed.

(** C4 on the state that holds entry 1 and its file [images-5]: a
    request to delete that image for entry 7, which does not exist,
    removes the file first and then ends in an uncaught TypeError
    instead of a not-found answer; the entries are as they were. *)
Theorem delete_image_unknown_entry :
  let req := mkDeleteImage (JS.Num 7) (JS.Str "uploads/images-5") in
  file_exists "images-5" with_photo = true /\
  select_entry (Sql.bind (di_entryId req)) with_photo = None /\
  delete_image req Ok Ok Ok with_photo
  = (remove_file "images-5" with_photo,
     Uncaught "TypeError: Cannot read properties of undefined (reading 'images')") /\
  file_exists "images-5" (fst (delete_image req Ok Ok Ok with_photo)) = false /\
  entries (fst (delete_image req Ok Ok Ok with_photo)) = entries with_photo.
Proof. repeat split; reflexivity. Qed.

(* ===================================================================== *)
(** ** File names and [path.basename] *)
(* ===================================================================== *)

Lemma string_app_assoc (a b c : string) :
  ((a ++ b) ++ c)%string = (a ++ (b ++ c))%string.
Proof. induction a as [|d a IH]; simpl; [reflexivity|now rewrite IH]. Qed.

Lemma rev_onto_app (s acc : string) :
  Str.rev_onto s acc = (Str.rev s ++ acc)%string.
Proof.
  unfold Str.rev. revert acc.
  induction s as [|c s IH]; intro acc; simpl; [reflexivity|].
  rewrite (IH (String c acc)), (IH (String c EmptyString)).
  rewrite string_app_assoc. reflexivity.
Qed.

Lemma string_app_nil_r (s : string) : (s ++ "")%string = s.
Proof. induction s as [|c s IH]; simpl; [reflexivity|now rewrite IH]. Qed.

Lemma rev_cons (c : ascii) (s : string) :
  Str.rev (String c s) = (Str.rev s ++ String c "")%string.
Proof. unfold Str.rev at 1. simpl. apply rev_onto_app. Qed.

Lemma rev_app (a b : string) :
  Str.rev (a ++ b) = (Str.rev b ++ Str.rev a)%string.
Proof.
  induction a as [|c a IH]; simpl.
  - now rewrite string_app_nil_r.
  - now rewrite !rev_cons, IH, string_app_assoc.
Qed.

Lemma rev_involutive (s : string) : Str.rev (Str.rev s) = s.
Proof.
  induction s as [|c s IH]; [reflexivity|].
  rewrite rev_cons, rev_app, IH. reflexivity.
Qed.

Lemma mem_app (c : ascii) (a b : string) :
  Str.mem c (a ++ b) = Str.mem c a || Str.mem c b.
Proof.
  induction a as [|d a IH]; simpl; [reflexivity|].
  now rewrite IH, orb_assoc.
Qed.

Lemma mem_rev (c : ascii) (s : string) : Str.mem c (Str.rev s) = Str.mem c s.
Proof.
  induction s as [|d s IH]; [reflexivity|].
  rewrite rev_cons, mem_app, IH. simpl. rewrite orb_false_r. apply orb_comm.
Qed.

Lemma take_until_slash (a b : string) :
  Str.mem "/" a = false ->
  Str.take_while (fun c => negb (Str.is_slash c)) (a ++ String "/" b) = a.
Proof.
  induction a as [|d a IH]; [reflexivity|].
  cbn [String.append Str.take_while Str.mem].
  intro H. apply orb_false_elim in H. destruct H as [Hd Ha].
  assert (Hs : Str.is_slash d = false)
    by (unfold Str.is_slash; now rewrite Ascii.eqb_sym).
  rewrite Hs. cbn [negb]. now rewrite IH.
Qed.

Lemma drop_no_slash (a : string) :
  a <> ""%string -> Str.mem "/" a = false ->
  forall b, Str.drop_while Str.is_slash (Str.rev a ++ b) = (Str.rev a ++ b)%string.
Proof.
  intros Hne Hmem b.
  assert (Hr : Str.mem "/" (Str.rev a) = false) by now rewrite mem_rev.
  destruct (Str.rev a) as [|d r] eqn:E.
  - exfalso. apply Hne. rewrite <- (rev_involutive a), E. reflexivity.
  - cbn [String.append Str.drop_while Str.mem] in *.
    apply orb_false_elim in Hr. destruct Hr as [Hd _].
    assert (Hs : Str.is_slash d = false)
      by (unfold Str.is_slash; now rewrite Ascii.eqb_sym).
    now rewrite Hs.
Qed.

(** The basename of a reference is the name of its file. *)
Lemma basename_under_directory (dir name : string) :
  name <> ""%string -> Str.mem "/" name = false ->
  JS.basename (dir ++ String "/" name) = name.
Proof.
  intros Hne Hmem. unfold JS.basename.
  rewrite rev_app, rev_cons, string_app_assoc. simpl.
  rewrite (drop_no_slash name Hne Hmem).
  rewrite take_until_slash by now rewrite mem_rev.
  apply rev_involutive.
Qed.

Lemma uint_no_slash (d : Decimal.uint) :
  Str.mem "/" (NilEmpty.string_of_uint d) = false.
Proof. induction d; simpl; auto. Qed.

Lemma of_Z_no_slash (z : Z) : Str.mem "/" (Str.of_Z z) = false.
Proof.
  unfold Str.of_Z, NilZero.string_of_int, NilZero.string_of_uint.
  destruct (Z.to_int z) as [d|d]; destruct d; simpl; auto using uint_no_slash.
Qed.

Lemma filename_no_slash (f : upload) : Str.mem "/" (filename f) = false.
Proof. unfold filename. simpl. apply of_Z_no_slash. Qed.

Lemma uint_no_nul (d : Decimal.uint) :
  Str.mem "000" (NilEmpty.string_of_uint d) = false.
Proof. induction d; simpl; auto. Qed.

Lemma of_Z_no_nul (z : Z) : Str.mem "000" (Str.of_Z z) = false.
Proof.
  unfold Str.of_Z, NilZero.string_of_int, NilZero.string_of_uint.
  destruct (Z.to_int z) as [d|d]; destruct d; simpl; auto using uint_no_nul.
Qed.

Lemma filename_no_nul (f : upload) : Str.mem "000" (filename f) = false.
Proof. unfold filename. simpl. apply of_Z_no_nul. Qed.

Lemma basename_reference (f : upload) : JS.basename (reference f) = filename f.
Proof.
  unfold reference.
  change ("/uploads/" ++ filename f)%string
    with ("/uploads" ++ String "/" (filename f))%string.
  apply basename_under_directory; [discriminate | apply filename_no_slash].
Qed.

Lemma filename_not_directory (f : upload) : is_directory (filename f) = false.
Proof. reflexivity. Qed.

Lemma of_Z_read_back (z : Z) :
  NilZero.int_of_string (Str.of_Z z) = Some (Z.to_int z).
Proof.
  unfold Str.of_Z. apply NilZero.isi; destruct z; simpl; try discriminate;
    intro E; injection E as E; revert E; apply DecimalPos.Unsigned.to_uint_nonnil.
Qed.

Lemma of_Z_injective (a b : Z) : Str.of_Z a = Str.of_Z b -> a = b.
Proof.
  intro E. apply DecimalZ.to_int_inj.
  assert (H : Some (Z.to_int a) = Some (Z.to_int b))
    by now rewrite <- !of_Z_read_back, E.
  now injection H.
Qed.

(** Two uploads share their stored name exactly when multer named
    them at the same clock reading. *)
Lemma filename_same_clock (f1 f2 : upload) :
  filename f1 = filename f2 <-> now f1 = now f2.
Proof.
  unfold filename. split.
  - intro E. simpl in E. apply of_Z_injective. congruence.
  - now intros ->.
Qed.

(* ===================================================================== *)
(** ** Adding images and deleting one of them *)
(* ===================================================================== *)

Lemma select_entry_update_images (imgs : list string) (p : Sql.value) (st : state) :
  select_entry p (update_entry_images imgs p st)
  = option_map (set_images imgs) (select_entry p st).
Proof.
  unfold select_entry, update_entry_images. simpl.
  induction (entries st) as [|x es IH]; simpl; [reflexivity|].
  destruct (id_is p (e_id x)) eqn:E; simpl; now rewrite E.
Qed.

Lemma file_exists_write (name other : string) (st : state) :
  file_exists name (write_file other st)
  = (negb (Str.mem "000" name) && (name =? other)%string) || file_exists name st.
Proof.
  unfold write_file. destruct (file_exists other st) eqn:E.
  - destruct (String.eqb_spec name other) as [->|].
    + rewrite E. now rewrite orb_true_r.
    + now rewrite andb_false_r.
  - unfold file_exists. cbn [uploads with_uploads existsb].
    now destruct (Str.mem "000" name), (name =? other)%string.
Qed.

(** A file multer has just written is there. *)
Lemma file_exists_written (f : upload) (st : state) :
  file_exists (filename f) (write_file (filename f) st) = true.
Proof.
  now rewrite file_exists_write, filename_no_nul, String.eqb_refl.
Qed.

Lemma add_image_two (id : JS.value) (e : entry) (f1 f2 : upload) (st : state) :
  select_entry (Sql.bind id) st = Some e ->
  add_image (mkAddImage id [f1; f2]) Ok Ok st
  = (update_entry_images (image_list e ++ [reference f1; reference f2])
                         (Sql.bind id) (store_files [f1; f2] st),
     Response 200 (ImagesJson "New images added to entry"
                              (image_list e ++ [reference f1; reference f2]))).
Proof.
  intro Hsel. unfold add_image.
  rewrite multer_accepts by (simpl; lia).
  cbn [ai_files ai_entryId].
  assert (E : select_entry (Sql.bind id) (store_files [f1; f2] st) = Some e).
  { unfold select_entry.
    destruct (store_files_db [f1; f2] st) as (H1 & _). now rewrite H1. }
  rewrite E. reflexivity.
Qed.

(** C6, as the code has it.  For an entry that exists and two uploaded
    files stored under different names, adding both and then deleting
    the first by its reference succeeds and leaves the entry's image
    list equal to the prior list without the references whose basename
    is the first file's name, followed by the reference of the second
    file.  When no prior reference has that basename, this is the prior
    list followed by the second reference. *)
Theorem add_then_delete_image :
  forall (id : JS.value) (e : entry) (f1 f2 : upload) (st : state),
    select_entry (Sql.bind id) st = Some e ->
    filename f1 <> filename f2 ->
    let st1 := fst (add_image (mkAddImage id [f1; f2]) Ok Ok st) in
    let gone := delete_image (mkDeleteImage id (JS.Str (reference f1)))
                             Ok Ok Ok st1 in
    let kept :=
      filter (fun img => negb (JS.basename img =? filename f1)%string)
             (image_list e) in
    snd gone = Response 200 (ImagesJson "Image deleted" (kept ++ [reference f2])) /\
    option_map image_list (select_entry (Sql.bind id) (fst gone))
    = Some (kept ++ [reference f2]) /\
    ((forall img, In img (image_list e) -> JS.basename img <> filename f1) ->
     option_map image_list (select_entry (Sql.bind id) (fst gone))
     = Some (image_list e ++ [reference f2])).
Proof.
  intros id e f1 f2 st Hsel Hne st1 gone kept.
  assert (Hfilter :
            filter (fun img => negb (JS.basename img =? filename f1)%string)
                   (image_list e ++ [reference f1; reference f2])
            = kept ++ [reference f2]).
  { rewrite filter_app. fold kept. f_equal. cbn [filter].
    rewrite !basename_reference, String.eqb_refl. cbn [negb].
    destruct (String.eqb_spec (filename f2) (filename f1)) as [E|_]; [|reflexivity].
    now symmetry in E. }
  assert (Hgone : gone
                  = (update_entry_images (kept ++ [reference f2]) (Sql.bind id)
                       (remove_file (filename f1) st1),
                     Response 200 (ImagesJson "Image deleted" (kept ++ [reference f2])))).
  { subst gone st1. rewrite (add_image_two id e f1 f2 st Hsel). cbn [fst].
    unfold delete_image. cbn [di_imageName di_entryId].
    rewrite basename_reference.
    assert (Hfile : file_exists (filename f1)
                      (update_entry_images
                         (image_list e ++ [reference f1; reference f2])
                         (Sql.bind id) (store_files [f1; f2] st)) = true).
    { change (file_exists (filename f1) (store_files [f1; f2] st) = true).
      unfold store_files. simpl. rewrite file_exists_write, file_exists_written.
      now rewrite orb_true_r. }
    rewrite (unlink_present _ _ (filename_not_directory f1) Hfile).
    match goal with
    | |- context [select_entry ?p (remove_file ?n ?s)] =>
        change (select_entry p (remove_file n s)) with (select_entry p s)
    end.
    rewrite select_entry_update_images.
    assert (E : select_entry (Sql.bind id) (store_files [f1; f2] st) = Some e).
    { unfold select_entry.
      destruct (store_files_db [f1; f2] st) as (H1 & _). now rewrite H1. }
    rewrite E. cbn [option_map set_images images]. now rewrite Hfilter. }
  assert (Hlist : option_map image_list (select_entry (Sql.bind id) (fst gone))
                  = Some (kept ++ [reference f2])).
  { rewrite Hgone. cbn [fst]. rewrite select_entry_update_images.
    match goal with
    | |- context [select_entry ?p (remove_file ?n ?s)] =>
        change (select_entry p (remove_file n s)) with (select_entry p s)
    end.
    subst st1. rewrite (add_image_two id e f1 f2 st Hsel). cbn [fst].
    rewrite select_entry_update_images.
    assert (E : select_entry (Sql.bind id) (store_files [f1; f2] st) = Some e).
    { unfold select_entry.
      destruct (store_files_db [f1; f2] st) as (H1 & _). now rewrite H1. }
    rewrite E. reflexivity. }
  split; [now rewrite Hgone|]. split; [exact Hlist|].
  intro Hprior. rewrite Hlist. do 2 f_equal. subst kept. apply filter_all.
  intros img Himg. apply negb_true_iff. apply String.eqb_neq. now apply Hprior.
Qed.

Lemma add_then_delete_image_witness :
  let f1 := mkUpload "a.png" 5 in
  let f2 := mkUpload "b.png" 6 in
  let st1 := fst (add_image (mkAddImage (JS.Num 1) [f1; f2]) Ok Ok with_photo) in
  let gone := delete_image (mkDeleteImage (JS.Num 1) (JS.Str (reference f1)))
                           Ok Ok Ok st1 in
  filename f1 <> filename f2 /\
  option_map image_list (select_entry (Sql.bind (JS.Num 1)) (fst gone))
  = Some ["/uploads/images-6"].
Proof.
  intros f1 f2 st1 gone.
  assert (Hne : filename f1 <> filename f2) by (vm_compute; discriminate).
  split; [exact Hne|].
  assert (Hsel : select_entry (Sql.bind (JS.Num 1)) with_photo
                 = Some (mkEntry 1 (Sql.Text "Alice") Sql.Null (Sql.Int 101) Sql.Null
                                 (Some ["uploads/images-5"])))
    by reflexivity.
  exact (proj1 (proj2 (add_then_delete_image (JS.Num 1) _ f1 f2 with_photo Hsel Hne))).
Defined.

(** C6 as written fails.  Two different files whose names are chosen
    within the same millisecond are both stored as [images-5]; entry 1
    has no image before, both references [/uploads/images-5] are
    appended, and deleting the first removes both: the list is empty,
    not the prior list followed by the second reference. *)
Lemma add_then_delete_roundtrip_fails : ~ add_then_delete_roundtrip.
Proof.
  intro H.
  specialize (H (JS.Num 1)
                (mkEntry 1 (Sql.Text "Alice") Sql.Null (Sql.Int 101) Sql.Null (Some []))
                (mkUpload "a.png" 5) (mkUpload "b.png" 5) one_entry
                eq_refl).
  assert (Hne : mkUpload "a.png" 5 <> mkUpload "b.png" 5) by discriminate.
  specialize (H Hne). vm_compute in H. discriminate H.
Qed.

(* ===================================================================== *)
(** ** Searching: LIKE against substring *)
(* ===================================================================== *)

Lemma like_percent_unfold (p s : list Z) :
  Sql.like_chars (37 :: p) s
  = Sql.like_chars p s || match s with
                          | [] => false
                          | _ :: s' => Sql.like_chars (37 :: p) s'
                          end.
Proof. destruct s; reflexivity. Qed.

(** A character that is not [%] must be matched by one character of
    the text: any character for [_], itself up to case otherwise. *)
Lemma like_char_unfold (c : Z) (p s : list Z) :
  c <> 37 ->
  Sql.like_chars (c :: p) s
  = match s with
    | [] => false
    | d :: s' =>
        ((Sql.fold_case c =? Sql.fold_case d) || (c =? 95)) && Sql.like_chars p s'
    end.
Proof.
  intro H. apply Z.eqb_neq in H. destruct s; simpl; now rewrite H.
Qed.

(** [%] matches any text and lets the rest of the pattern start
    anywhere. *)
Lemma like_percent (p s : list Z) :
  Sql.like_chars (37 :: p) s = true <->
  exists a b : list Z, s = a ++ b /\ Sql.like_chars p b = true.
Proof.
  induction s as [|d s IH]; rewrite like_percent_unfold.
  - rewrite orb_false_r. split.
    + intro H. now exists [], [].
    + intros (a & b & E & H). destruct a; [|discriminate]. simpl in E. now subst.
  - rewrite orb_true_iff, IH. split.
    + intros [H|(a & b & E & H)].
      * now exists [], (d :: s).
      * exists (d :: a), b. split; [simpl; now rewrite E|assumption].
    + intros (a & b & E & H). destruct a as [|d' a].
      * left. simpl in E. now subst.
      * right. simpl in E. injection E as _ E. now exists a, b.
Qed.

Lemma like_percent_only (s : list Z) : Sql.like_chars [37] s = true.
Proof. apply like_percent. exists s, []. now rewrite app_nil_r. Qed.

Lemma map_lower_app (a b : string) :
  Str.map Sql.lower (a ++ b) = (Str.map Sql.lower a ++ Str.map Sql.lower b)%string.
Proof. induction a as [|c a IH]; simpl; [reflexivity|now rewrite IH]. Qed.

(** A run of ordinary characters in a pattern matches a prefix of the
    text that is equal to it up to case. *)
Lemma like_literal (q p : list Z) :
  existsb (fun c => (c =? 37) || (c =? 95)) q = false ->
  forall s, Sql.like_chars (q ++ p) s = true <->
            exists a b : list Z,
              s = a ++ b /\
              map Sql.fold_case a = map Sql.fold_case q /\
              Sql.like_chars p b = true.
Proof.
  induction q as [|c q IH]; intros Hw s.
  - simpl. split.
    + intro H. now exists [], s.
    + intros (a & b & -> & Ea & H). destruct a; [assumption|discriminate].
  - cbn [existsb] in Hw. apply orb_false_elim in Hw. destruct Hw as [Hc Hq].
    apply orb_false_elim in Hc. destruct Hc as [Hpc Huc].
    cbn [app]. rewrite (like_char_unfold c _ s) by now apply Z.eqb_neq.
    rewrite Huc. destruct s as [|d s].
    + split; [discriminate|].
      intros (a & b & E & Ea & _). destruct a; discriminate.
    + rewrite orb_false_r, andb_true_iff, (IH Hq s), Z.eqb_eq. split.
      * intros (Ec & a & b & -> & Ea & H).
        exists (d :: a), b. simpl. now rewrite Ea, Ec.
      * intros (a & b & E & Ea & H). destruct a as [|d' a]; [discriminate|].
        simpl in E, Ea. injection E as <- ->. injection Ea as Ec Ea.
        split; [now symmetry|]. now exists a, b.
Qed.

(** For a run of characters without wildcard, the pattern with [%]
    on both sides selects the texts that contain the run up to ASCII
    case. *)
Lemma like_chars_is_substring (q s : list Z) :
  existsb (fun c => (c =? 37) || (c =? 95)) q = false ->
  Sql.like_chars (37 :: q ++ [37]) s = true <->
  exists pre post : list Z,
    map Sql.fold_case s = pre ++ map Sql.fold_case q ++ post.
Proof.
  intro Hw. rewrite like_percent. split.
  - intros (a & b & -> & H). apply (like_literal q [37] Hw) in H.
    destruct H as (b1 & b2 & -> & E & _).
    exists (map Sql.fold_case a), (map Sql.fold_case b2).
    now rewrite !map_app, E.
  - intros (pre & post & E).
    apply map_eq_app in E. destruct E as (a & b & -> & _ & E).
    apply map_eq_app in E. destruct E as (b1 & b2 & -> & E & _).
    exists a, (b1 ++ b2). split; [reflexivity|].
    apply (like_literal q [37] Hw). exists b1, b2.
    repeat split; [assumption | apply like_percent_only].
Qed.

(** *** From bytes to characters *)

Lemma byte_is_nul (c : ascii) : (Str.byte c =? 0) = Ascii.eqb "000" c.
Proof. destruct c as [[] [] [] [] [] [] [] []]; reflexivity. Qed.

(** A text without NUL is read to its end. *)
Lemma c_string_app (a b : string) :
  Str.mem "000" a = false ->
  Sql.c_string (a ++ b) = (a ++ Sql.c_string b)%string.
Proof.
  unfold Sql.c_string. induction a as [|c a IH]; intro H; [reflexivity|].
  cbn [Str.mem] in H. apply orb_false_elim in H. destruct H as [Hc Ha].
  cbn [String.append Str.take_while]. rewrite byte_is_nul, Hc. cbn [negb].
  now rewrite (IH Ha).
Qed.

Lemma c_string_whole (a : string) :
  Str.mem "000" a = false -> Sql.c_string a = a.
Proof.
  intro H. rewrite <- (string_app_nil_r a) at 1.
  rewrite (c_string_app a "" H). apply string_app_nil_r.
Qed.

(** A byte below 0x80 that follows a text is a character after the
    characters of the text. *)
Lemma chars_from_snoc (n : Z) (b : ascii) (s : string) :
  Str.byte b = n -> n < 128 ->
  forall cur, Sql.chars_from cur (s ++ String b "")
              = Sql.chars_from cur s ++ [n].
Proof.
  intros Hb Hn.
  assert (H1 : (128 <=? n) && (n <? 192) = false)
    by (apply andb_false_iff; left; apply Z.leb_gt; lia).
  assert (H2 : (192 <=? n) = false) by (apply Z.leb_gt; lia).
  induction s as [|c s IH]; intro cur.
  - cbn [String.append Sql.chars_from]. rewrite Hb.
    destruct cur; now rewrite ?H1, H2.
  - cbn [String.append Sql.chars_from].
    destruct cur as [x|];
      repeat match goal with
             | |- context [if ?t then _ else _] => destruct t
             end; cbn [app]; now rewrite ?IH.
Qed.

(** The pattern the handler builds, read as characters. *)
Lemma chars_pattern (q : string) :
  Str.mem "000" q = false ->
  Sql.chars ("%" ++ q ++ "%") = 37 :: Sql.chars q ++ [37].
Proof.
  intro H. unfold Sql.chars.
  rewrite (c_string_whole q H), (c_string_whole ("%" ++ q ++ "%")).
  - change (Sql.chars_from None ("%" ++ q ++ "%"))
      with (37 :: Sql.chars_from None (q ++ String "%" "")).
    now rewrite (chars_from_snoc 37 "%" q eq_refl ltac:(lia)).
  - rewrite !mem_app, H. reflexivity.
Qed.

Lemma byte_is_percent (c : ascii) : (Str.byte c =? 37) = Ascii.eqb "%" c.
Proof. destruct c as [[] [] [] [] [] [] [] []]; reflexivity. Qed.

Lemma byte_is_underscore (c : ascii) : (Str.byte c =? 95) = Ascii.eqb "_" c.
Proof. destruct c as [[] [] [] [] [] [] [] []]; reflexivity. Qed.

(** A character made of several bytes is never a wildcard. *)
Lemma utf8_check_no_wildcard (c : Z) :
  (Sql.utf8_check c =? 37) || (Sql.utf8_check c =? 95) = false.
Proof.
  unfold Sql.utf8_check. destruct (Z.ltb_spec c 128) as [H|H]; [reflexivity|].
  cbn [orb].
  destruct ((Z.land c 4294965248 =? 55296) || (Z.land c 4294967294 =? 65534));
    [reflexivity|].
  apply orb_false_iff. split; apply Z.eqb_neq; lia.
Qed.

(** The wildcards among the characters of a text are bytes of it. *)
Lemma chars_from_no_wildcard (s : string) :
  has_wildcard s = false ->
  forall cur,
    existsb (fun c => (c =? 37) || (c =? 95)) (Sql.chars_from cur s) = false.
Proof.
  unfold has_wildcard. induction s as [|b s IH]; intros H cur.
  - destruct cur as [c|]; [|reflexivity].
    cbn [Sql.chars_from existsb]. now rewrite utf8_check_no_wildcard.
  - cbn [Str.mem] in H. apply orb_false_elim in H. destruct H as [Hp Hu].
    apply orb_false_elim in Hp. destruct Hp as [Hp Hps].
    apply orb_false_elim in Hu. destruct Hu as [Hu Hus].
    assert (Hs : Str.mem "%" s || Str.mem "_" s = false) by now rewrite Hps, Hus.
    assert (Hb : (Str.byte b =? 37) || (Str.byte b =? 95) = false)
      by now rewrite byte_is_percent, byte_is_underscore, Hp, Hu.
    cbn [Sql.chars_from]. cbv zeta.
    destruct cur as [c|];
      repeat match goal with
             | |- context [if ?t then _ else _] => destruct t
             end;
      cbn [existsb]; rewrite ?utf8_check_no_wildcard, ?Hb, ?(IH Hs); reflexivity.
Qed.

Lemma plain_no_nul (s : string) : Sql.plain s = true -> Str.mem "000" s = false.
Proof.
  unfold Sql.plain. intro H. apply andb_prop in H. destruct H as [H _].
  apply andb_prop in H. destruct H as [H _]. now apply negb_true_iff in H.
Qed.

(** For a query without wildcard, the pattern [%q%] selects the texts
    that contain [q] up to ASCII case, both being read to their end. *)
Lemma like_is_substring (q s : string) :
  Str.mem "000" q = false -> has_wildcard q = false ->
  Str.mem "000" s = false ->
  Sql.like ("%" ++ q ++ "%") s = true <-> ci_substring q s.
Proof.
  intros Hn Hw Hs. unfold Sql.like. rewrite (chars_pattern q Hn).
  unfold Sql.chars. rewrite (c_string_whole q Hn), (c_string_whole s Hs).
  apply like_chars_is_substring. now apply chars_from_no_wildcard.
Qed.

Lemma like_value_is_substring (q : string) (v : Sql.value) :
  Sql.plain q = true -> has_wildcard q = false ->
  plain_value v = true ->
  Sql.like_value v ("%" ++ q ++ "%") = true <-> field_contains q v.
Proof.
  intros Hn Hw Hv. unfold Sql.like_value, field_contains.
  unfold plain_value in Hv.
  destruct (Sql.as_text v) as [s|].
  - rewrite (like_is_substring q s (plain_no_nul q Hn) Hw (plain_no_nul s Hv)). split.
    + intro H. now exists s.
    + intros (s' & E & H). now injection E as <-.
  - split; [discriminate | intros (s & E & _); discriminate].
Qed.

Lemma entry_like_is_substring (q : string) (e : entry) :
  Sql.plain q = true -> has_wildcard q = false ->
  entry_plain e = true ->
  entry_like ("%" ++ q ++ "%") e = true <-> entry_contains q e.
Proof.
  intros Hn Hw He. unfold entry_plain in He.
  apply andb_prop in He. destruct He as [He H4].
  apply andb_prop in He. destruct He as [He H3].
  apply andb_prop in He. destruct He as [H1 H2].
  unfold entry_like, entry_contains.
  rewrite !orb_true_iff.
  rewrite (like_value_is_substring q _ Hn Hw H1), (like_value_is_substring q _ Hn Hw H2),
          (like_value_is_substring q _ Hn Hw H3), (like_value_is_substring q _ Hn Hw H4).
  tauto.
Qed.

(** C5, as the code has it, on stored entries that hold no REAL of
    10^15 or more.  Without a query, and with the empty query, all
    entries are returned.  With a non-empty query [q] whose pattern
    [%q%] has at most 50000 bytes, the entries returned are those for
    which one of firstName, lastName, roomNumber (as text) or
    additionalText matches the LIKE pattern [%q%], in stored order;
    when [q] is a plain text that contains neither [%] nor [_], the
    entries with plain fields that are returned are exactly those in
    which the characters of [q] occur as a substring of one of the
    four fields up to ASCII case. *)
Theorem get_data_search :
  forall (st : state),
    (forall e, In e (entries st) -> entry_rendered e = true) ->
    get_data None Ok st = Response 200 (EntriesJson (entries st)) /\
    get_data (Some ""%string) Ok st = Response 200 (EntriesJson (entries st)) /\
    (forall q, q <> ""%string ->
       Sql.too_complex ("%" ++ q ++ "%") = false ->
       get_data (Some q) Ok st
       = Response 200 (EntriesJson
           (filter (entry_like ("%" ++ q ++ "%")) (entries st)))) /\
    (forall q e, q <> ""%string ->
       Sql.too_complex ("%" ++ q ++ "%") = false ->
       Sql.plain q = true -> has_wildcard q = false ->
       entry_plain e = true ->
       (In e (get_data_rows (Some q) st)
        <-> In e (entries st) /\ entry_contains q e)).
Proof.
  intros st _.
  assert (Hrows : forall q, q <> ""%string ->
            get_data_rows (Some q) st
            = filter (entry_like ("%" ++ q ++ "%")) (entries st)).
  { intros q Hq. unfold get_data_rows. simpl.
    destruct (String.eqb_spec q "") as [E|_]; [contradiction|reflexivity]. }
  assert (Hempty : like_fails (Some ""%string) st = false)
    by (unfold like_fails; now destruct (entries st)).
  split; [reflexivity|].
  split; [unfold get_data; now rewrite Hempty|].
  split.
  - intros q Hq Hlen.
    assert (Hok : like_fails (Some q) st = false)
      by (unfold like_fails; rewrite Hlen, andb_false_r; now destruct (entries st)).
    unfold get_data. now rewrite Hok, (Hrows q Hq).
  - intros q e Hq _ Hn Hw He. rewrite (Hrows q Hq), filter_In.
    now rewrite (entry_like_is_substring q e Hn Hw He).
Qed.

Lemma get_data_search_witness :
  let e := mkEntry 1 (Sql.Text "Alice") Sql.Null (Sql.Int 101) Sql.Null (Some []) in
  (forall x, In x (entries one_entry) -> entry_rendered x = true) /\
  "LIC"%string <> ""%string /\ Sql.too_complex "%LIC%" = false /\
  Sql.plain "LIC" = true /\ has_wildcard "LIC" = false /\ entry_plain e = true /\
  In e (entries one_entry) /\ entry_contains "LIC" e.
Proof.
  intro e.
  assert (Hr : forall x, In x (entries one_entry) -> entry_rendered x = true)
    by (intros x [<-|[]]; reflexivity).
  assert (Hq : "LIC"%string <> ""%string) by discriminate.
  assert (Hl : Sql.too_complex "%LIC%" = false) by reflexivity.
  assert (Hn : Sql.plain "LIC" = true) by reflexivity.
  assert (Hw : has_wildcard "LIC" = false) by reflexivity.
  assert (He : entry_plain e = true) by reflexivity.
  split; [exact Hr|]. split; [exact Hq|]. split; [exact Hl|]. split; [exact Hn|].
  split; [exact Hw|]. split; [exact He|].
  apply (proj2 (proj2 (proj2 (get_data_search one_entry Hr)))
           "LIC"%string e Hq Hl Hn Hw He).
  left. vm_compute. reflexivity.
Defined.

(** C5 as written fails.  The query [_] is no substring of any field
    of the entry (Alice, NULL, 101, NULL), yet [LIKE '%_%'] matches
    every non-empty text, so the entry is returned. *)
Lemma search_is_substring_fails : ~ search_is_substring.
Proof.
  intro H.
  pose (e := mkEntry 1 (Sql.Text "Alice") Sql.Null (Sql.Int 101) Sql.Null (Some [])).
  assert (Hq : "_"%string <> ""%string) by discriminate.
  destruct (proj1 (H "_"%string one_entry e Hq)) as [_ Hc].
  { left. vm_compute. reflexivity. }
  assert (Hno : forall s, existsb (Z.eqb 95)
                            (map Sql.fold_case (Sql.chars_from None s)) = false ->
                          ~ ci_substring "_" s).
  { intros s Hs (pre & post & E). rewrite E in Hs.
    rewrite existsb_app in Hs. apply orb_false_elim in Hs. destruct Hs as [_ Hs].
    discriminate Hs. }
  destruct Hc as [Hc|[Hc|[Hc|Hc]]]; destruct Hc as (s & E & Hs);
    try discriminate E; injection E as <-; revert Hs; apply Hno; reflexivity.
Qed.

(* ===================================================================== *)
(** ** Reachable states have unique primary keys *)
(* ===================================================================== *)

Lemma NoDup_snoc_fresh (l : list Z) (x : Z) :
  NoDup l -> ~ In x l -> NoDup (l ++ [x]).
Proof.
  intros Hl Hx. apply NoDup_app; [assumption | repeat constructor; intros [] |].
  intros y Hy [<-|[]]. contradiction.
Qed.

Lemma map_if_same_key {A : Type} (key : A -> Z) (c : A -> bool) (f : A -> A)
    (l : list A) :
  (forall x, key (f x) = key x) ->
  map key (map (fun x => if c x then f x else x) l) = map key l.
Proof.
  intro H. rewrite map_map. apply map_ext. intro x. now destruct (c x).
Qed.

Lemma unique_entry_ids_filter (cond : entry -> bool) (es : list entry) :
  NoDup (map e_id es) -> NoDup (map e_id (filter cond es)).
Proof.
  induction es as [|x es IH]; simpl; [auto|].
  intro H. inversion H as [|? ? Hx Hes]; subst.
  destruct (cond x); simpl; [constructor|]; auto.
  intro Hin. apply Hx. apply in_map_iff in Hin. destruct Hin as (y & Hy & Hin).
  apply filter_In in Hin. apply in_map_iff. exists y. tauto.
Qed.

Lemma insert_timesheet_unique (eid row : Sql.value) (st : state) :
  pk_unique st -> pk_unique (insert_timesheet eid row st).
Proof.
  intros [He Ht]. split; [exact He|]. simpl. rewrite map_app. simpl.
  apply NoDup_snoc_fresh; [exact Ht | apply next_rowid_fresh].
Qed.

Lemma remove_timesheet_unique (rid : Z) (st : state) :
  pk_unique st -> pk_unique (remove_timesheet rid st).
Proof. intros [He Ht]. split; [exact He|]. simpl. now apply unique_ids_filter. Qed.

Lemma delete_timesheet_rows_unique (victims : list timesheet) :
  forall st, pk_unique st -> pk_unique (delete_timesheet_rows victims st).
Proof.
  induction victims as [|v vs IH]; intros st H; simpl; [exact H|].
  apply IH. unfold after_last_timesheetRow_delete.
  destruct (count_timesheets _ _ =? 0)%nat.
  - now apply insert_timesheet_unique, remove_timesheet_unique.
  - now apply remove_timesheet_unique.
Qed.

Lemma delete_entry_rows_unique (victims : list entry) :
  forall st, pk_unique st -> pk_unique (delete_entry_rows victims st).
Proof.
  induction victims as [|v vs IH]; intros st H; simpl; [exact H|].
  apply IH. unfold after_entry_delete, delete_timesheets_where.
  apply delete_timesheet_rows_unique.
  destruct H as [He Ht]. split; [|exact Ht]. simpl. now apply unique_entry_ids_filter.
Qed.

Lemma store_files_unique (files : list upload) (st : state) :
  pk_unique st -> pk_unique (store_files files st).
Proof.
  unfold pk_unique. destruct (store_files_db files st) as (H1 & _ & H3 & _).
  now rewrite H1, H3.
Qed.

Lemma remove_files_unique (files : list upload) :
  forall st, pk_unique st ->
             pk_unique (fold_left (fun s f => remove_file (filename f) s) files st).
Proof. induction files as [|f fs IH]; intros st H; simpl; [exact H|]. now apply IH. Qed.

Lemma multer_unique (files : list upload) (st : state) :
  pk_unique st ->
  match multer files st with inl st' | inr st' => pk_unique st' end.
Proof.
  intro H. unfold multer. destruct (10 <? List.length files)%nat.
  - now apply remove_files_unique, store_files_unique.
  - now apply store_files_unique.
Qed.

Lemma update_entry_images_unique (imgs : list string) (p : Sql.value) (st : state) :
  pk_unique st -> pk_unique (update_entry_images imgs p st).
Proof.
  intros [He Ht]. split; [|exact Ht]. simpl.
  now rewrite (map_if_same_key e_id _ (set_images imgs)).
Qed.

Lemma update_timesheets_unique (f : timesheet -> timesheet) (pe pr : Sql.value)
    (st : state) :
  (forall r, t_id (f r) = t_id r) ->
  pk_unique st -> pk_unique (fst (update_timesheets f pe pr st)).
Proof.
  intros Hf [He Ht]. split; [exact He|]. simpl.
  now rewrite (map_if_same_key t_id _ f _ Hf).
Qed.

(** Every handler keeps the ids of both tables pairwise distinct. *)
Lemma handle_unique (r : request) (st : state) :
  pk_unique st -> pk_unique (fst (handle r st)).
Proof.
  intro H. destruct r as [req f|req f|req f1 f2 f3|id f|req f1 f2|req f|req f|req f|req f|req f];
    simpl.
  - unfold submit_data. pose proof (multer_unique (s_files req) st H) as Hm.
    destruct (multer (s_files req) st) as [st1|st0]; [|exact Hm].
    destruct f; [|exact Hm]. simpl.
    unfold insert_entry, after_entry_insert. apply insert_timesheet_unique.
    destruct Hm as [He Ht]. split; [|exact Ht]. simpl. rewrite map_app. simpl.
    apply NoDup_snoc_fresh; [exact He | apply next_rowid_fresh].
  - unfold update_data. destruct (negb (JS.truthy (u_id req))); [exact H|].
    destruct f; [|exact H]. simpl.
    match goal with |- context [(0 <? ?n)%nat] => destruct (0 <? n)%nat end;
      simpl; destruct H as [He Ht]; (split; [|exact Ht]); simpl;
      now rewrite (map_if_same_key e_id _ (set_fields _ _ _ _)).
  - unfold delete_image. destruct (di_imageName req); try exact H.
    unfold unlink. destruct (Str.mem "000" _); [exact H|].
    destruct f1; [|exact H].
    destruct (is_directory _); [exact H|].
    destruct (file_exists _ st); [|exact H].
    destruct f2; [|exact H].
    destruct (select_entry _ _); [|exact H].
    destruct f3; [|exact H]. simpl.
    now apply update_entry_images_unique.
  - unfold delete_data. destruct (JS.parseInt id); [|exact H].
    destruct f; [|exact H]. unfold delete_entries_where_id.
    match goal with |- context [(0 <? ?n)%nat] => destruct (0 <? n)%nat end;
      simpl; now apply delete_entry_rows_unique.
  - unfold add_image. pose proof (multer_unique (ai_files req) st H) as Hm.
    destruct (multer (ai_files req) st) as [st1|st0]; [|exact Hm].
    destruct (ai_files req); [exact Hm|].
    destruct f1; [|exact Hm]. destruct f2; [|exact Hm]. simpl.
    now apply update_entry_images_unique.
  - unfold newRow. destruct f; [|exact H]. unfold insert_timesheet_values.
    pose proof (insert_timesheet_unique
                  (Sql.integer_affinity (Sql.bind (r_entryId req)))
                  (Sql.integer_affinity (Sql.bind (r_timesheetRow req))) st H) as Hi.
    destruct (Sql.bind (r_entryId req)); [exact H| | |];
      (destruct (Sql.bind (r_timesheetRow req)); [exact H| | |]); exact Hi.
  - unfold signIn. destruct f; [|exact H]. simpl.
    now apply (update_timesheets_unique (set_signIn _ _)).
  - unfold signOut. destruct f; [|exact H].
    pose proof (update_timesheets_unique (set_signOut (Sql.bind (r_signOut req)))
                  (Sql.bind (r_entryId req)) (Sql.bind (r_timesheetRow req)) st
                  (fun _ => eq_refl) H) as Hu.
    unfold update_timesheets in *. simpl in Hu.
    match goal with |- context [(0 <? ?n)%nat] => destruct (0 <? n)%nat end;
      exact Hu.
  - unfold deleteRow. destruct f; [|exact H]. simpl.
    now apply delete_timesheet_rows_unique.
  - unfold updateRow. destruct f; [|exact H]. simpl.
    now apply (update_timesheets_unique (set_row _ _ _)).
Qed.

Lemma reachable_pk_unique (st : state) : reachable st -> pk_unique st.
Proof.
  induction 1 as [|r st _ IH].
  - split; constructor.
  - now apply handle_unique.
Qed.

(* ===================================================================== *)
(** ** Reachable states: every entry has a timesheet row *)
(* ===================================================================== *)

Lemma delete_timesheet_rows_entries (victims : list timesheet) :
  forall st, entries (delete_timesheet_rows victims st) = entries st.
Proof.
  induction victims as [|v vs IH]; intro st; simpl; [reflexivity|].
  rewrite IH. unfold after_last_timesheetRow_delete.
  now destruct (count_timesheets _ _ =? 0)%nat.
Qed.

(** A row that was not collected survives the delete loop. *)
Lemma delete_timesheet_rows_keeps (victims : list timesheet) :
  forall st r, In r (timesheets st) -> spared victims r = true ->
               In r (timesheets (delete_timesheet_rows victims st)).
Proof.
  induction victims as [|v vs IH]; intros st r Hr Hsp; simpl; [exact Hr|].
  rewrite spared_cons in Hsp. apply andb_prop in Hsp. destruct Hsp as [Hne Hsp].
  apply IH; [|exact Hsp]. unfold after_last_timesheetRow_delete.
  assert (Hin : In r (timesheets (remove_timesheet (t_id v) st)))
    by (simpl; apply filter_In; now split).
  destruct (count_timesheets _ _ =? 0)%nat; [|exact Hin].
  simpl. apply in_or_app. now left.
Qed.

Lemma spared_rejected (cond : timesheet -> bool) (rows : list timesheet)
    (r : timesheet) :
  NoDup (map t_id rows) -> In r rows -> cond r = false ->
  spared (filter cond rows) r = true.
Proof.
  intros Hnd Hr Hc. apply spared_true. intro Hin. apply in_map_iff in Hin.
  destruct Hin as (v & Hv & Hin). apply filter_In in Hin. destruct Hin as [Hin Hcv].
  assert (v = r) by (eapply unique_id_row; eauto). subst. congruence.
Qed.

(** After a delete loop over rows of one entry, that entry still has
    a row: either one was spared, or the trigger has inserted one. *)
Lemma delete_timesheet_rows_leaves_one (eid : Sql.value) (victims : list timesheet) :
  victims <> [] ->
  (forall v, In v victims -> entryId v = eid /\ eid <> Sql.Null) ->
  forall st, exists r, In r (timesheets (delete_timesheet_rows victims st))
                       /\ entryId r = eid.
Proof.
  intros Hne Hv st. destruct (exists_last Hne) as (vs & v & ->).
  rewrite delete_timesheet_rows_app. simpl.
  destruct (Hv v) as [Heid Hnn]; [apply in_or_app; right; now left|].
  unfold after_last_timesheetRow_delete. rewrite Heid.
  destruct (count_timesheets eid _ =? 0)%nat eqn:E.
  - eexists. split; [simpl; apply in_or_app; right; now left|reflexivity].
  - unfold count_timesheets in E. apply Nat.eqb_neq in E.
    destruct (filter _ _) as [|r l] eqn:F; [now elim E|].
    assert (Hr : In r (r :: l)) by now left. rewrite <- F in Hr.
    apply filter_In in Hr. destruct Hr as [Hr Hre].
    exists r. split; [exact Hr | now apply sql_eqb_eq].
Qed.

(** [DELETE FROM timesheets WHERE cond], when [cond] selects rows of
    one entry only, leaves every entry that had a row with a row. *)
Lemma delete_where_keeps_rows (cond : timesheet -> bool) (eid : Sql.value)
    (st : state) (z : Z) :
  NoDup (map t_id (timesheets st)) ->
  (forall r, In r (timesheets st) -> cond r = true ->
             entryId r = eid /\ eid <> Sql.Null) ->
  has_row st z -> has_row (delete_timesheets_where cond st) z.
Proof.
  intros Hnd Hcond (r & Hr & Hz). unfold delete_timesheets_where.
  destruct (cond r) eqn:Hc.
  - destruct (Hcond r Hr Hc) as [Heid Hnn].
    destruct (delete_timesheet_rows_leaves_one eid (filter cond (timesheets st)))
      with (st := st) as (r' & Hr' & Hz').
    + intro E. assert (Hin : In r (filter cond (timesheets st)))
        by (apply filter_In; now split).
      rewrite E in Hin. contradiction.
    + intros v Hin. apply filter_In in Hin. destruct Hin. auto.
    + exists r'. split; [exact Hr'|]. congruence.
  - exists r. split; [|exact Hz].
    apply delete_timesheet_rows_keeps; [exact Hr|]. now apply spared_rejected.
Qed.

Lemma delete_entry_rows_keeps_rows (victims : list entry) :
  forall st, pk_unique st ->
    (forall e, In e (entries st) -> has_row st (e_id e)) ->
    entries_have_rows (delete_entry_rows victims st).
Proof.
  induction victims as [|v vs IH]; intros st Hpk H; simpl; [exact H|].
  assert (Hpk1 : pk_unique (remove_entry (e_id v) st)).
  { destruct Hpk as [He Ht]. split; [|exact Ht]. simpl.
    now apply unique_entry_ids_filter. }
  apply IH.
  - unfold after_entry_delete, delete_timesheets_where.
    now apply delete_timesheet_rows_unique.
  - intros e He. unfold after_entry_delete, delete_timesheets_where in He.
    rewrite delete_timesheet_rows_entries in He. simpl in He.
    apply filter_In in He. destruct He as [He _].
    unfold after_entry_delete.
    apply (delete_where_keeps_rows _ (Sql.Int (e_id v))).
    + apply Hpk1.
    + intros r _ Hc. split; [now apply sql_eqb_eq | discriminate].
    + apply (H e He).
Qed.

Lemma has_row_more (st st' : state) (z : Z) :
  (forall r, In r (timesheets st) -> In r (timesheets st')) ->
  has_row st z -> has_row st' z.
Proof. intros H (r & Hr & Hz). exists r. auto. Qed.

Lemma has_row_update (f : timesheet -> timesheet) (pe pr : Sql.value)
    (st : state) (z : Z) :
  (forall r, entryId (f r) = entryId r) ->
  has_row st z -> has_row (fst (update_timesheets f pe pr st)) z.
Proof.
  intros Hf (r & Hr & Hz). simpl.
  exists (if row_is pe pr r then f r else r). split.
  - apply in_map_iff. now exists r.
  - destruct (row_is pe pr r); [now rewrite Hf|assumption].
Qed.

Lemma entries_have_rows_same (st st' : state) :
  map e_id (entries st') = map e_id (entries st) ->
  timesheets st' = timesheets st ->
  entries_have_rows st -> entries_have_rows st'.
Proof.
  intros He Ht H e Hin.
  assert (Hid : In (e_id e) (map e_id (entries st)))
    by (rewrite <- He; now apply in_map).
  apply in_map_iff in Hid. destruct Hid as (e0 & Hid & Hin0).
  destruct (H e0 Hin0) as (r & Hr & Hz).
  exists r. rewrite Ht. split; [exact Hr|congruence].
Qed.

Lemma multer_same_db (files : list upload) (st : state) :
  match multer files st with
  | inl st' | inr st' => entries st' = entries st /\ timesheets st' = timesheets st
  end.
Proof.
  assert (Hrm : forall fs s,
            entries (fold_left (fun s f => remove_file (filename f) s) fs s)
            = entries s /\
            timesheets (fold_left (fun s f => remove_file (filename f) s) fs s)
            = timesheets s).
  { induction fs as [|f fs IH]; intro s; simpl; [now split|].
    destruct (IH (remove_file (filename f) s)) as [H1 H2]. now rewrite H1, H2. }
  unfold multer. destruct (10 <? List.length files)%nat.
  - destruct (Hrm (firstn 10 files) (store_files (firstn 10 files) st)) as [H1 H2].
    destruct (store_files_db (firstn 10 files) st) as (H3 & _ & H4 & _).
    now rewrite H1, H2, H3, H4.
  - destruct (store_files_db files st) as (H3 & _ & H4 & _). now split.
Qed.

(** Every handler keeps a row for every stored entry. *)
Lemma handle_keeps_rows (r : request) (st : state) :
  pk_unique st -> entries_have_rows st -> entries_have_rows (fst (handle r st)).
Proof.
  intros Hpk H.
  destruct r as [req f|req f|req f1 f2 f3|id f|req f1 f2|req f|req f|req f|req f|req f];
    simpl.
  - unfold submit_data. pose proof (multer_same_db (s_files req) st) as Hm.
    destruct (multer (s_files req) st) as [st1|st0]; destruct Hm as [He Ht].
    2:{ cbn [fst]. apply (entries_have_rows_same st);
          [now rewrite He|exact Ht|exact H]. }
    assert (H1 : entries_have_rows st1)
      by (apply (entries_have_rows_same st); [now rewrite He|exact Ht|exact H]).
    destruct f; [|exact H1]. simpl. intros e Hin. simpl in Hin.
    apply in_app_or in Hin. destruct Hin as [Hin|[<-|[]]].
    + apply (has_row_more st1); [|now apply H1].
      intros r Hr. simpl. apply in_or_app. now left.
    + eexists. split; [simpl; apply in_or_app; right; now left|reflexivity].
  - unfold update_data. destruct (negb (JS.truthy (u_id req))); [exact H|].
    destruct f; [|exact H]. simpl.
    match goal with |- context [(0 <? ?n)%nat] => destruct (0 <? n)%nat end;
      simpl; (apply (entries_have_rows_same st); [|reflexivity|exact H]);
      simpl; now rewrite (map_if_same_key e_id _ (set_fields _ _ _ _)).
  - unfold delete_image. destruct (di_imageName req); try exact H.
    unfold unlink. destruct (Str.mem "000" _); [exact H|].
    destruct f1; [|exact H].
    destruct (is_directory _); [exact H|].
    destruct (file_exists _ st); [|exact H].
    destruct f2; [|exact H].
    destruct (select_entry _ _); [|exact H].
    destruct f3; [|exact H]. simpl.
    apply (entries_have_rows_same st); [|reflexivity|exact H].
    simpl. now rewrite (map_if_same_key e_id _ (set_images _)).
  - unfold delete_data. destruct (JS.parseInt id); [|exact H].
    destruct f; [|exact H]. unfold delete_entries_where_id.
    match goal with |- context [(0 <? ?n)%nat] => destruct (0 <? n)%nat end;
      simpl; now apply delete_entry_rows_keeps_rows.
  - unfold add_image. pose proof (multer_same_db (ai_files req) st) as Hm.
    destruct (multer (ai_files req) st) as [st1|st0]; destruct Hm as [He Ht].
    2:{ cbn [fst]. apply (entries_have_rows_same st);
          [now rewrite He|exact Ht|exact H]. }
    assert (H1 : entries_have_rows st1)
      by (apply (entries_have_rows_same st); [now rewrite He|exact Ht|exact H]).
    destruct (ai_files req); [exact H1|].
    destruct f1; [|exact H1]. destruct f2; [|exact H1]. simpl.
    apply (entries_have_rows_same st1); [|reflexivity|exact H1].
    simpl. now rewrite (map_if_same_key e_id _ (set_images _)).
  - unfold newRow. destruct f; [|exact H]. unfold insert_timesheet_values.
    assert (Hi : forall a b,
              entries_have_rows
                (let st' := insert_timesheet a b st in
                 mkState (entries st') (entries_seq st') (timesheets st')
                         (timesheets_seq st') (timesheets_seq st') (uploads st'))).
    { intros a b e Hin. apply (has_row_more st); [|now apply H].
      intros r Hr. simpl. apply in_or_app. now left. }
    destruct (Sql.bind (r_entryId req)); [exact H| | |];
      (destruct (Sql.bind (r_timesheetRow req)); [exact H| | |]); apply Hi.
  - unfold signIn. destruct f; [|exact H]. simpl. intros e Hin.
    now apply (has_row_update (set_signIn _ _)), H.
  - unfold signOut. destruct f; [|exact H].
    assert (Hu : entries_have_rows
                   (fst (update_timesheets (set_signOut (Sql.bind (r_signOut req)))
                           (Sql.bind (r_entryId req))
                           (Sql.bind (r_timesheetRow req)) st))).
    { intros e Hin. now apply (has_row_update (set_signOut _)), H. }
    unfold update_timesheets in *. simpl in Hu.
    match goal with |- context [(0 <? ?n)%nat] => destruct (0 <? n)%nat end;
      exact Hu.
  - unfold deleteRow. destruct f; [|exact H]. simpl. intros e Hin.
    unfold delete_timesheets_where in Hin.
    rewrite delete_timesheet_rows_entries in Hin.
    apply (delete_where_keeps_rows _
             (Sql.integer_affinity (Sql.bind (r_entryId req)))).
    + apply Hpk.
    + intros r _ Hc. unfold row_is in Hc. apply andb_prop in Hc.
      destruct Hc as [Hc _]. split; [now apply sql_eqb_eq|].
      eapply sql_eqb_nonnull; eauto.
    + now apply H.
  - unfold updateRow. destruct f; [|exact H]. simpl. intros e Hin.
    now apply (has_row_update (set_row _ _ _)), H.
Qed.

(** The invariant the triggers maintain: in every state the server can
    reach, ids are unique and every stored entry has a TimesheetRow. *)
Lemma reachable_invariant (st : state) :
  reachable st -> pk_unique st /\ entries_have_rows st.
Proof.
  induction 1 as [|r st Hr [Hpk Hrows]].
  - split; [split; constructor | intros e []].
  - split; [now apply handle_unique | now apply handle_keeps_rows].
Qed.

(** The states used as test inputs are states the server can reach. *)
Lemma test_states_reachable :
  reachable one_entry /\ reachable planted /\ reachable with_photo.
Proof.
  repeat split.
  - exact (reachable_step (SubmitData alice Ok) init reachable_init).
  - exact (reachable_step
             (NewRow (row_request_of (JS.Num 1) (JS.Num 0)) Ok) init reachable_init).
  - exact (reachable_step
             (SubmitData (mkSubmit [mkUpload "a.png" 5] (JS.Str "Alice") JS.Undefined
                                   (JS.Str "101") JS.Undefined) Ok)
             init reachable_init).
Qed.

(** A number below 10^21 is read back by [parseInt] as itself. *)
Lemma parseInt_num (z : Z) :
  Z.abs z < 10 ^ 21 -> JS.parseInt (JS.Num z) = Some z.
Proof.
  intro H. unfold JS.parseInt. apply Z.ltb_lt in H. now rewrite H.
Qed.

(** In every state the server can reach, deleting any stored entry
    (by its id, a number below 10^21) answers 200 and leaves exactly
    one TimesheetRow behind for the deleted id: the row 0 that the
    delete trigger of [timesheets] has just inserted. *)
Lemma delete_data_always_leaves_orphan (st : state) (e : entry) :
  reachable st -> In e (entries st) -> Z.abs (e_id e) < 10 ^ 21 ->
  let st' := fst (delete_data (JS.Num (e_id e)) Ok st) in
  snd (delete_data (JS.Num (e_id e)) Ok st) = Response 200 (SuccessJson "Entry deleted")
  /\ ~ In (e_id e) (map e_id (entries st'))
  /\ exists tid, rows_of (Sql.Int (e_id e)) st' = [fresh_row0 tid (Sql.Int (e_id e))].
Proof.
  intros Hreach He Hsmall st'.
  destruct (reachable_invariant st Hreach) as [Hpk Hrows].
  assert (Hne : rows_of (Sql.Int (e_id e)) st <> []).
  { destruct (Hrows e He) as (r & Hr & Hz). intro E.
    assert (Hin : In r (rows_of (Sql.Int (e_id e)) st)).
    { unfold rows_of. apply filter_In. split; [exact Hr|].
      rewrite Hz. simpl. apply Z.eqb_refl. }
    rewrite E in Hin. contradiction. }
  pose proof (delete_data_leaves_orphan (JS.Num (e_id e)) (e_id e) st
                (parseInt_num _ Hsmall) Hpk (in_map e_id _ _ He) Hne) as Hd.
  cbv zeta in Hd. subst st'. rewrite Hd. cbn [fst snd]. split; [reflexivity|]. split.
  - simpl. intro Hin. apply in_map_iff in Hin. destruct Hin as (x & Hx & Hin).
    apply filter_In in Hin. destruct Hin as [_ Hin].
    apply negb_true_iff, Z.eqb_neq in Hin. contradiction.
  - eexists. unfold rows_of. simpl. rewrite filter_app. simpl.
    rewrite Z.eqb_refl. rewrite filter_none; [reflexivity|].
    intros r Hr. apply filter_In in Hr. destruct Hr as [_ Hr].
    now apply negb_true_iff.
Qed.

(* ===================================================================== *)
(** ** Listing the rows of an entry *)
(* ===================================================================== *)

Lemma ascii_compare_cases (a b : ascii) :
  CompareSpec (a = b) (N_of_ascii a < N_of_ascii b)%N
              (N_of_ascii b < N_of_ascii a)%N (Ascii.compare a b).
Proof.
  unfold Ascii.compare. destruct (N.compare_spec (N_of_ascii a) (N_of_ascii b)) as [E|E|E];
    constructor; try assumption.
  rewrite <- (ascii_N_embedding a), <- (ascii_N_embedding b). now rewrite E.
Qed.

Lemma string_leb_trans (s t u : string) :
  String.leb s t = true -> String.leb t u = true -> String.leb s u = true.
Proof.
  unfold String.leb. revert t u.
  induction s as [|a s IH]; intros [|b t] [|c u]; simpl; try easy.
  destruct (ascii_compare_cases a b) as [->|Hab|Hab]; try easy.
  - destruct (ascii_compare_cases b c) as [->|Hbc|Hbc]; try easy. apply IH.
  - intros _.
    destruct (ascii_compare_cases b c) as [->|Hbc|Hbc]; try easy.
    + destruct (ascii_compare_cases a c) as [->|Hac|Hac]; try easy; lia.
    + destruct (ascii_compare_cases a c) as [->|Hac|Hac]; try easy; lia.
Qed.

Lemma sql_leb_total (a b : Sql.value) : Sql.leb a b = true \/ Sql.leb b a = true.
Proof.
  destruct a, b; simpl; auto;
    try (destruct (Z.leb_spec z z0); [now left|right; apply Z.leb_le; lia]).
  apply String.leb_total.
Qed.

Lemma sql_leb_trans (a b c : Sql.value) :
  Sql.leb a b = true -> Sql.leb b c = true -> Sql.leb a c = true.
Proof.
  destruct a, b, c; simpl; try easy; try (rewrite !Z.leb_le; lia).
  apply string_leb_trans.
Qed.

Lemma insert_sorted_perm (r : timesheet) (l : list timesheet) :
  Permutation (r :: l) (insert_sorted r l).
Proof.
  induction l as [|x l IH]; simpl; [reflexivity|].
  destruct (Sql.leb (timesheetRow r) (timesheetRow x)); [reflexivity|].
  rewrite perm_swap. now constructor.
Qed.

Lemma insert_sorted_sorted (r : timesheet) (l : list timesheet) :
  Sorted by_timesheetRow l -> Sorted by_timesheetRow (insert_sorted r l).
Proof.
  induction l as [|x l IH]; simpl; intro H.
  - repeat constructor.
  - destruct (Sql.leb (timesheetRow r) (timesheetRow x)) eqn:E.
    + constructor; [exact H|]. now constructor.
    + apply Sorted_inv in H. destruct H as [Hs Hh].
      constructor; [now apply IH|].
      assert (Hxr : by_timesheetRow x r).
      { destruct (sql_leb_total (timesheetRow r) (timesheetRow x)); [congruence|assumption]. }
      destruct l as [|y l]; simpl; [now constructor|].
      destruct (Sql.leb (timesheetRow r) (timesheetRow y)); constructor; auto.
      now inversion Hh.
Qed.

Lemma order_by_timesheetRow_perm (l : list timesheet) :
  Permutation l (order_by_timesheetRow l).
Proof.
  induction l as [|r l IH]; simpl; [reflexivity|].
  rewrite <- insert_sorted_perm. now constructor.
Qed.

Lemma order_by_timesheetRow_sorted (l : list timesheet) :
  Sorted by_timesheetRow (order_by_timesheetRow l).
Proof.
  induction l as [|r l IH]; simpl; [constructor|]. now apply insert_sorted_sorted.
Qed.

(** X1. GET /timesheets/:entryId, for an entryId that the engine
    reads exactly (a text that is no numeral, or the numeral of an
    integer), answers 200 with the rows whose entryId is the requested
    one, a numeral counting as its number, each exactly as often as it
    is stored, in ascending order of timesheetRow (NULL, then numbers,
    then texts); rows of other entries never appear. *)
Theorem get_timesheets_lists_entry_rows :
  forall (entryId : string) (st : state),
  Sql.exact_integer (JS.Str entryId) = true ->
  exists rows,
    get_timesheets entryId Ok st = Response 200 (TimesheetsJson rows) /\
    Permutation (rows_of (Sql.integer_affinity (Sql.Text entryId)) st) rows /\
    Sorted by_timesheetRow rows /\
    StronglySorted by_timesheetRow rows /\
    (forall r, In r rows <->
               In r (timesheets st) /\
               Db.entryId r = Sql.integer_affinity (Sql.Text entryId)).
Proof.
  intros entryId st _. eexists. split; [reflexivity|].
  unfold select_timesheets. fold (rows_of (Sql.integer_affinity (Sql.Text entryId)) st).
  split; [apply order_by_timesheetRow_perm|].
  split; [apply order_by_timesheetRow_sorted|].
  split.
  - apply Sorted_StronglySorted; [|apply order_by_timesheetRow_sorted].
    intros a b c. apply sql_leb_trans.
  - intro r. split.
    + intro Hr. apply (Permutation_in _ (Permutation_sym (order_by_timesheetRow_perm _))) in Hr.
      unfold rows_of in Hr. apply filter_In in Hr. destruct Hr as [Hr He].
      split; [exact Hr | now apply sql_eqb_eq].
    + intros [Hr He]. apply (Permutation_in _ (order_by_timesheetRow_perm _)).
      unfold rows_of. apply filter_In. split; [exact Hr|].
      rewrite He. apply sql_eqb_refl.
      unfold Sql.integer_affinity. destruct (Sql.read_numeral entryId); discriminate.
Qed.

Lemma get_timesheets_lists_entry_rows_witness :
  Sql.exact_integer (JS.Str "1.0") = true /\
  exists rows,
    get_timesheets "1.0" Ok one_entry = Response 200 (TimesheetsJson rows) /\
    Permutation (rows_of (Sql.Int 1) one_entry) rows /\
    Sorted by_timesheetRow rows /\
    StronglySorted by_timesheetRow rows /\
    (forall r, In r rows <-> In r (timesheets one_entry) /\ Db.entryId r = Sql.Int 1).
Proof.
  split; [vm_compute; reflexivity|].
  apply (get_timesheets_lists_entry_rows "1.0" one_entry). vm_compute. reflexivity.
Defined.

Lemma latest_row_none (l : list timesheet) : latest_row l = None <-> l = [].
Proof.
  destruct l as [|r l]; simpl; [tauto|].
  split; [|discriminate].
  destruct (latest_row l) as [m|]; [|discriminate].
  destruct (Sql.leb (timesheetRow m) (timesheetRow r)); discriminate.
Qed.

Lemma latest_row_max (l : list timesheet) (m : timesheet) :
  latest_row l = Some m ->
  In m l /\ forall r, In r l -> by_timesheetRow r m.
Proof.
  revert m. induction l as [|x l IH]; simpl; [discriminate|].
  intros m. destruct (latest_row l) as [m'|] eqn:E.
  - destruct (IH m' eq_refl) as [Hin Hmax].
    destruct (Sql.leb (timesheetRow m') (timesheetRow x)) eqn:Hle; intros [= <-].
    + split; [now left|]. intros r [<-|Hr].
      * destruct (sql_leb_total (timesheetRow x) (timesheetRow x)); assumption.
      * eapply sql_leb_trans; [apply (Hmax r Hr)|exact Hle].
    + split; [now right|]. intros r [<-|Hr]; [|now apply Hmax].
      destruct (sql_leb_total (timesheetRow x) (timesheetRow m')); [assumption|].
      unfold by_timesheetRow. congruence.
  - intros [= <-]. apply latest_row_none in E. subst. split; [now left|].
    intros r [<-|[]].
    destruct (sql_leb_total (timesheetRow x) (timesheetRow x)); assumption.
Qed.

(** X2. GET /timesheets/get-current-row/:rowId, for a rowId that the
    engine reads exactly (a text that is no numeral, or the numeral of
    an integer), answers 404 "Row not found" exactly when the entry
    has no TimesheetRow; otherwise it answers with a stored row of
    that entry whose timesheetRow is not below that of any other row of
    the entry. *)
Theorem get_current_row_is_latest :
  forall (rowId : string) (st : state),
    Sql.exact_integer (JS.Str rowId) = true ->
    let eid := Sql.integer_affinity (Sql.Text rowId) in
    (rows_of eid st = [] /\
     get_current_row rowId Ok st = NoCurrentRow 404 "Row not found") \/
    (exists row,
       get_current_row rowId Ok st = CurrentRow row /\
       In row (timesheets st) /\ Db.entryId row = eid /\
       forall r, In r (timesheets st) -> Db.entryId r = eid ->
                 by_timesheetRow r row).
Proof.
  intros rowId st _ eid. unfold get_current_row, select_current_row.
  fold eid. fold (rows_of eid st).
  destruct (latest_row (rows_of eid st)) as [m|] eqn:E.
  - right. exists m. split; [reflexivity|].
    destruct (latest_row_max _ _ E) as [Hin Hmax].
    unfold rows_of in Hin. apply filter_In in Hin. destruct Hin as [Hin He].
    split; [exact Hin|]. split; [now apply sql_eqb_eq|].
    intros r Hr Hre. apply Hmax. unfold rows_of. apply filter_In.
    split; [exact Hr|]. rewrite Hre. apply sql_eqb_refl.
    eapply sql_eqb_nonnull; eauto.
  - left. split; [now apply latest_row_none|reflexivity].
Qed.

Lemma get_current_row_is_latest_witness :
  Sql.exact_integer (JS.Str "1e0") = true /\
  get_current_row "1e0" Ok one_entry
  = CurrentRow (mkRow 1 (Sql.Int 1) (Sql.Int 0) Sql.Null Sql.Null Sql.Null) /\
  get_current_row "2" Ok one_entry = NoCurrentRow 404 "Row not found".
Proof.
  assert (H1 : Sql.exact_integer (JS.Str "1e0") = true) by (vm_compute; reflexivity).
  assert (H2 : Sql.exact_integer (JS.Str "2") = true) by (vm_compute; reflexivity).
  split; [exact H1|]. split.
  - destruct (get_current_row_is_latest "1e0" one_entry H1) as [[E _]|(row & E & _)].
    + vm_compute in E. discriminate E.
    + vm_compute. reflexivity.
  - destruct (get_current_row_is_latest "2" one_entry H2) as [[_ E]|(row & E & _)].
    + exact E.
    + vm_compute in E. discriminate E.
Defined.

(* ===================================================================== *)
(** ** The timesheet routes *)
(* ===================================================================== *)

(** X3. POST /timesheets/newRow refuses a request whose entryId or
    timesheetRow is missing or null with 500 and changes nothing (both
    columns are NOT NULL).  Every other request is accepted, whether
    or not the entry exists and whether or not the index is already
    taken: one row with NULL roomNumber, signIn, signOut is appended
    under an id larger than every stored id, that id is reported, and
    nothing else changes.  When the engine reads entryId and
    timesheetRow exactly, the row holds them as an INTEGER column
    stores them: a number or a numeral as the integer, any other text
    as it is. *)
Theorem newRow_appends_row :
  forall (req : row_request) (st : state),
    let pe := Sql.bind (r_entryId req) in
    let pr := Sql.bind (r_timesheetRow req) in
    let tid := next_rowid (timesheets_seq st) (map t_id (timesheets st)) in
    (pe = Sql.Null \/ pr = Sql.Null ->
     newRow req Ok st = (st, Response 500 (Plain "Error on signIn"))) /\
    (pe <> Sql.Null -> pr <> Sql.Null ->
     exists eid row,
       newRow req Ok st
       = (mkState (entries st) (entries_seq st)
                  (timesheets st ++ [mkRow tid eid row Sql.Null Sql.Null Sql.Null])
                  tid tid (uploads st),
          Response 200 (InsertedJson "SignIn successful" tid)) /\
       (Sql.exact_integer (r_entryId req) = true ->
        eid = Sql.integer_affinity pe) /\
       (Sql.exact_integer (r_timesheetRow req) = true ->
        row = Sql.integer_affinity pr)) /\
    (forall r, In r (timesheets st) -> t_id r < tid).
Proof.
  intros req st pe pr tid. unfold newRow, insert_timesheet_values.
  fold pe pr. repeat split.
  - intros [E|E]; rewrite E; [reflexivity|]. now destruct pe.
  - intros He Hr. exists (Sql.integer_affinity pe), (Sql.integer_affinity pr).
    split; [|now split].
    destruct pe; [congruence| | |]; destruct pr; try congruence; reflexivity.
  - intros r Hr. apply next_rowid_above. now apply in_map.
Qed.

Lemma update_timesheets_rows (f : timesheet -> timesheet) (pe pr : Sql.value)
    (st : state) :
  fst (update_timesheets f pe pr st)
  = with_timesheets
      (map (fun r => if row_is pe pr r then f r else r) (timesheets st)) st.
Proof. reflexivity. Qed.

(** X4. POST /timesheets/signOut, for an entryId, a timesheetRow and
    a signOut that the engine reads exactly, answers 404 "Timesheet
    entry not found" exactly when no row has the requested entryId and
    timesheetRow, and then changes nothing.  Otherwise it answers 200,
    and the rows afterwards are the rows before, one for one, with the
    same id, entryId, timesheetRow, roomNumber and signIn; signOut is
    the submitted value as text on the rows that match and untouched
    on the others.  Entries and files are never touched. *)
Theorem signOut_updates_or_404 :
  forall (req : row_request) (st : state),
    Sql.exact_integer (r_entryId req) = true ->
    Sql.exact_integer (r_timesheetRow req) = true ->
    Sql.exact_text (r_signOut req) = true ->
    let pe := Sql.bind (r_entryId req) in
    let pr := Sql.bind (r_timesheetRow req) in
    let st' := fst (signOut req Ok st) in
    (filter (row_is pe pr) (timesheets st) = [] ->
     signOut req Ok st
     = (st, Response 404 (MessageJson "Timesheet entry not found"))) /\
    (filter (row_is pe pr) (timesheets st) <> [] ->
     snd (signOut req Ok st) = Response 200 (MessageJson "Sign-out successful")) /\
    Forall2 (fun r r' =>
               t_id r' = t_id r /\ entryId r' = entryId r /\
               timesheetRow r' = timesheetRow r /\
               t_roomNumber r' = t_roomNumber r /\ Db.signIn r' = Db.signIn r /\
               Db.signOut r'
               = if row_is pe pr r
                 then Sql.text_affinity (Sql.bind (r_signOut req))
                 else Db.signOut r)
            (timesheets st) (timesheets st') /\
    entries st' = entries st /\ uploads st' = uploads st.
Proof.
  intros req st _ _ _ pe pr st'. subst st'. unfold signOut, update_timesheets.
  fold pe pr. repeat split.
  - intro H. rewrite H, (map_if_none _ _ _ H). simpl.
    now rewrite with_timesheets_same.
  - intro H. destruct (filter (row_is pe pr) (timesheets st)); [congruence|reflexivity].
  - destruct (0 <? _)%nat; simpl; apply Forall2_map_self; intro r;
      destruct (row_is pe pr r); simpl; auto 10.
  - now destruct (0 <? _)%nat.
  - now destruct (0 <? _)%nat.
Qed.

Lemma signOut_updates_or_404_witness :
  let req := mkRowRequest (JS.Str "1.0") (JS.Num 0) JS.Undefined JS.Undefined
                          (JS.Num 4294967296) in
  snd (signOut req Ok one_entry) = Response 200 (MessageJson "Sign-out successful") /\
  timesheets (fst (signOut req Ok one_entry))
  = [mkRow 1 (Sql.Int 1) (Sql.Int 0) Sql.Null Sql.Null (Sql.Text "4294967296.0")] /\
  signOut (mkRowRequest (JS.Str "2") (JS.Num 0) JS.Undefined JS.Undefined
                        (JS.Str "17:00")) Ok one_entry
  = (one_entry, Response 404 (MessageJson "Timesheet entry not found")).
Proof.
  assert (He : Sql.exact_integer (JS.Str "1.0") = true) by (vm_compute; reflexivity).
  assert (He2 : Sql.exact_integer (JS.Str "2") = true) by (vm_compute; reflexivity).
  assert (Hr : Sql.exact_integer (JS.Num 0) = true) by (vm_compute; reflexivity).
  assert (Ho : Sql.exact_text (JS.Num 4294967296) = true) by (vm_compute; reflexivity).
  pose proof (signOut_updates_or_404
                (mkRowRequest (JS.Str "1.0") (JS.Num 0) JS.Undefined JS.Undefined
                              (JS.Num 4294967296)) one_entry He Hr Ho) as H.
  pose proof (signOut_updates_or_404
                (mkRowRequest (JS.Str "2") (JS.Num 0) JS.Undefined JS.Undefined
                              (JS.Str "17:00")) one_entry He2 Hr eq_refl) as H'.
  cbv zeta in H, H'. destruct H as (_ & H & _). destruct H' as (H' & _).
  intro req. split; [|split].
  - apply H. vm_compute. discriminate.
  - vm_compute. reflexivity.
  - apply H'. vm_compute. reflexivity.
Defined.

Lemma row_is_set_signIn (pe pr rn si : Sql.value) (r : timesheet) :
  row_is pe pr (set_signIn rn si r) = row_is pe pr r.
Proof. reflexivity. Qed.

(** X5. POST /timesheets/updateRow leaves the state that signIn
    followed by signOut on the same row leaves: one full update equals
    the two partial ones in sequence. *)
Theorem updateRow_is_signIn_then_signOut :
  forall (req : row_request) (st : state),
    fst (updateRow req Ok st) = fst (signOut req Ok (fst (signIn req Ok st))).
Proof.
  intros req st. unfold updateRow, signOut, signIn.
  cbn [fst]. rewrite update_timesheets_rows.
  match goal with
  | |- _ = fst (let '(s, c) := ?u in if (0 <? c)%nat then (s, _) else (s, _)) =>
      replace (fst (let '(s, c) := u in
                    if (0 <? c)%nat
                    then (s, Response 200 (MessageJson "Sign-out successful"))
                    else (s, Response 404 (MessageJson "Timesheet entry not found"))))
        with (fst u)
        by (destruct u as [s c]; simpl; now destruct (0 <? c)%nat)
  end.
  rewrite !update_timesheets_rows. unfold with_timesheets. simpl. f_equal.
  rewrite map_map. apply map_ext. intro r.
  destruct (row_is _ _ r) eqn:E.
  - rewrite row_is_set_signIn, E. reflexivity.
  - now rewrite E.
Qed.

(** When a row of the entry is not selected, the DELETE of
    [deleteRow] removes exactly the selected rows and its trigger
    inserts nothing. *)
Lemma deleteRow_some_left (pe pr : JS.value) (s : timesheet) (st : state) :
  pk_unique st ->
  In s (timesheets st) ->
  Sql.eqb (entryId s) (Sql.integer_affinity (Sql.bind pe)) = true ->
  row_is (Sql.bind pe) (Sql.bind pr) s = false ->
  fst (deleteRow (row_request_of pe pr) Ok st)
  = with_timesheets
      (filter (fun r => negb (row_is (Sql.bind pe) (Sql.bind pr) r))
              (timesheets st)) st.
Proof.
  intros [_ Hnd] Hs He Hc. unfold deleteRow.
  cbn [fst snd r_entryId r_timesheetRow row_request_of].
  apply (delete_where_some_left (Sql.integer_affinity (Sql.bind pe)) _ st s); auto.
  intros r _ Hr. unfold row_is in Hr. apply andb_prop in Hr.
  destruct Hr as [Hr _]. now apply sql_eqb_eq.
Qed.

Lemma row_is_num (a b : Z) (r : timesheet) :
  row_is (Sql.bind (JS.Num a)) (Sql.bind (JS.Num b)) r
  = Sql.eqb (entryId r) (Sql.Int a) && Sql.eqb (timesheetRow r) (Sql.Int b).
Proof. unfold row_is. now rewrite !integer_affinity_num. Qed.



(** X7. The delete trigger restores a row only when the entry is left
    without any row: on a store with unique row ids, deleting row 0 of
    an entry that has a row with another index leaves the entry
    without a row 0, and that other row stays. *)
Theorem deleteRow_can_remove_row0 :
  forall (id : Z) (s : timesheet) (st : state),
    pk_unique st ->
    In s (timesheets st) ->
    entryId s = Sql.Int id ->
    Sql.eqb (timesheetRow s) (Sql.Int 0) = false ->
    let st' := fst (deleteRow (row_request_of (JS.Num id) (JS.Num 0)) Ok st) in
    row0_rows id st' = [] /\ In s (timesheets st').
Proof.
  intros id s st Hpk Hs He Hrow st'.
  assert (Hc : row_is (Sql.bind (JS.Num id)) (Sql.bind (JS.Num 0)) s = false).
  { rewrite row_is_num. now rewrite Hrow, andb_false_r. }
  assert (Hst : st' = with_timesheets
                        (filter (fun r => negb (row_is (Sql.bind (JS.Num id))
                                                       (Sql.bind (JS.Num 0)) r))
                                (timesheets st)) st).
  { subst st'. apply (deleteRow_some_left _ _ s st Hpk Hs); [|exact Hc].
    rewrite He, integer_affinity_num. simpl. apply Z.eqb_refl. }
  rewrite Hst. split.
  - unfold row0_rows. cbn [timesheets with_timesheets].
    rewrite filter_filter. apply filter_none.
    intros r _. rewrite row_is_num.
    now destruct (Sql.eqb (entryId r) (Sql.Int id)
                  && Sql.eqb (timesheetRow r) (Sql.Int 0)).
  - cbn [timesheets with_timesheets]. apply filter_In.
    split; [exact Hs | cbv beta; now rewrite Hc].
Qed.

Lemma deleteRow_can_remove_row0_witness :
  let st := fst (newRow (row_request_of (JS.Num 1) (JS.Num 1)) Ok one_entry) in
  let st' := fst (deleteRow (row_request_of (JS.Num 1) (JS.Num 0)) Ok st) in
  row0_rows 1 st = [fresh_row0 1 (Sql.Int 1)] /\
  row0_rows 1 st' = [] /\
  In (mkRow 2 (Sql.Int 1) (Sql.Int 1) Sql.Null Sql.Null Sql.Null) (timesheets st').
Proof.
  assert (Hpk : pk_unique (fst (newRow (row_request_of (JS.Num 1) (JS.Num 1)) Ok
                                       one_entry))).
  { split; simpl; repeat constructor; simpl; intuition discriminate. }
  split; [reflexivity|].
  apply (deleteRow_can_remove_row0 1
           (mkRow 2 (Sql.Int 1) (Sql.Int 1) Sql.Null Sql.Null Sql.Null) _ Hpk);
    [right; now left | reflexivity | reflexivity].
Defined.

(* ===================================================================== *)
(** ** Deleting entries: what is refused and what is left alone *)
(* ===================================================================== *)

Lemma delete_timesheet_rows_frame (victims : list timesheet) :
  forall st,
    entries_seq (delete_timesheet_rows victims st) = entries_seq st /\
    last_insert_rowid (delete_timesheet_rows victims st) = last_insert_rowid st /\
    uploads (delete_timesheet_rows victims st) = uploads st.
Proof.
  induction victims as [|v vs IH]; intro st; simpl; [now repeat split|].
  destruct (IH (after_last_timesheetRow_delete v (remove_timesheet (t_id v) st)))
    as (H1 & H2 & H3).
  rewrite H1, H2, H3. unfold after_last_timesheetRow_delete.
  now destruct (count_timesheets _ _ =? 0)%nat.
Qed.

Lemma delete_entry_rows_frame (victims : list entry) :
  forall st,
    entries (delete_entry_rows victims st)
    = filter (fun e => negb (existsb (fun v => e_id e =? e_id v) victims))
             (entries st) /\
    entries_seq (delete_entry_rows victims st) = entries_seq st /\
    last_insert_rowid (delete_entry_rows victims st) = last_insert_rowid st /\
    uploads (delete_entry_rows victims st) = uploads st.
Proof.
  induction victims as [|v vs IH]; intro st; simpl.
  - rewrite filter_true. now repeat split.
  - destruct (IH (after_entry_delete v (remove_entry (e_id v) st)))
      as (H1 & H2 & H3 & H4).
    rewrite H1, H2, H3, H4. unfold after_entry_delete, delete_timesheets_where.
    rewrite delete_timesheet_rows_entries.
    destruct (delete_timesheet_rows_frame
                (filter (fun r => Sql.eqb (entryId r) (Sql.Int (e_id v)))
                        (timesheets (remove_entry (e_id v) st)))
                (remove_entry (e_id v) st)) as (F1 & F2 & F3).
    rewrite F1, F2, F3. simpl. repeat split.
    rewrite filter_filter. apply filter_ext. intro e. now rewrite negb_orb.
Qed.

Lemma delete_entries_where_id_entries (z : Z) (st : state) :
  entries (fst (delete_entries_where_id (Sql.bind (JS.Num z)) st))
  = filter (fun e => negb (e_id e =? z)) (entries st).
Proof.
  unfold delete_entries_where_id. cbn [fst].
  destruct (delete_entry_rows_frame
              (filter (fun e => id_is (Sql.bind (JS.Num z)) (e_id e)) (entries st)) st)
    as (H & _). rewrite H. apply filter_ext_in. intros e He. f_equal.
  destruct (Z.eqb_spec (e_id e) z) as [E|E].
  - apply existsb_exists. exists e. split; [|apply Z.eqb_refl].
    apply filter_In. split; [exact He|]. rewrite id_is_num. now apply Z.eqb_eq.
  - destruct (existsb _ _) eqn:X; [|reflexivity].
    apply existsb_exists in X. destruct X as (v & Hv & Hid).
    apply filter_In in Hv. destruct Hv as [_ Hv]. rewrite id_is_num in Hv.
    apply Z.eqb_eq in Hv, Hid. congruence.
Qed.

Lemma delete_data_state (id : JS.value) (z : Z) (st : state) :
  JS.parseInt id = Some z ->
  fst (delete_data id Ok st)
  = fst (delete_entries_where_id (Sql.bind (JS.Num z)) st).
Proof.
  intro H. unfold delete_data. rewrite H.
  destruct (delete_entries_where_id (Sql.bind (JS.Num z)) st) as [s c]. simpl.
  now destruct (0 <? c)%nat.
Qed.

(** A number that names no stored entry is answered 404, and nothing
    changes. *)
Lemma delete_data_no_match (id : JS.value) (z : Z) (st : state) :
  JS.parseInt id = Some z ->
  ~ In z (map e_id (entries st)) ->
  delete_data id Ok st = (st, Response 404 (ErrorJson "Entry not found")).
Proof.
  intros H Hno. unfold delete_data, delete_entries_where_id. rewrite H.
  assert (E : filter (fun e => id_is (Sql.bind (JS.Num z)) (e_id e)) (entries st)
              = []).
  { apply filter_none. intros e He. rewrite id_is_num. apply Z.eqb_neq.
    intro E. apply Hno. rewrite <- E. now apply in_map. }
  now rewrite E.
Qed.

(** X8. POST /delete-data answers 400 "Invalid ID provided" when
    [parseInt] finds no number in the id, and 404 "Entry not found"
    when the number it reads names no stored entry; in both cases
    nothing is changed. *)
Theorem delete_data_rejects :
  forall (id : JS.value) (fault : io) (st : state),
    (JS.parseInt id = None ->
     delete_data id fault st = (st, Response 400 (ErrorJson "Invalid ID provided"))) /\
    (forall z, JS.parseInt id = Some z ->
               ~ In z (map e_id (entries st)) ->
               delete_data id Ok st = (st, Response 404 (ErrorJson "Entry not found"))).
Proof.
  intros id fault st. split.
  - intro H. unfold delete_data. now rewrite H.
  - intros z H Hno. now apply (delete_data_no_match id z st).
Qed.

(** X9. Once POST /delete-data has been answered for an id, the entry
    is gone whatever the first answer was: no stored entry has that id,
    and the same request again is answered 404 "Entry not found" and
    changes nothing. *)
Theorem delete_data_again_not_found :
  forall (id : JS.value) (z : Z) (st : state),
    JS.parseInt id = Some z ->
    let st1 := fst (delete_data id Ok st) in
    ~ In z (map e_id (entries st1)) /\
    delete_data id Ok st1 = (st1, Response 404 (ErrorJson "Entry not found")).
Proof.
  intros id z st H st1.
  assert (Hno : ~ In z (map e_id (entries st1))).
  { subst st1. rewrite (delete_data_state id z st H), delete_entries_where_id_entries.
    intro Hin. apply in_map_iff in Hin. destruct Hin as (e & He & Hin).
    apply filter_In in Hin. destruct Hin as [_ Hin].
    apply negb_true_iff, Z.eqb_neq in Hin. contradiction. }
  split; [exact Hno|].
  now apply (delete_data_no_match id z st1).
Qed.

Lemma delete_data_again_not_found_witness :
  let st1 := fst (delete_data (JS.Str "1") Ok with_photo) in
  entries st1 = [] /\
  delete_data (JS.Str "1") Ok st1 = (st1, Response 404 (ErrorJson "Entry not found")).
Proof.
  split; [reflexivity|].
  exact (proj2 (delete_data_again_not_found (JS.Str "1") 1 with_photo eq_refl)).
Defined.

(** X10. POST /delete-data never touches the [uploads] directory:
    every file stays, also the files named in the image list of the
    deleted entry.  The entries that remain are the stored entries with
    another id, unchanged and in the same order, and the id counter of
    [entries] does not move. *)
Theorem delete_data_keeps_files :
  forall (id : JS.value) (fault : io) (st : state),
    let st' := fst (delete_data id fault st) in
    uploads st' = uploads st /\
    entries_seq st' = entries_seq st /\
    (forall z, JS.parseInt id = Some z ->
               entries (fst (delete_data id Ok st))
               = filter (fun e => negb (e_id e =? z)) (entries st)).
Proof.
  intros id fault st st'. subst st'. repeat split.
  - unfold delete_data. destruct (JS.parseInt id) as [z|]; [|reflexivity].
    destruct fault; [|reflexivity]. unfold delete_entries_where_id.
    destruct (delete_entry_rows_frame
                (filter (fun e => id_is (Sql.bind (JS.Num z)) (e_id e))
                        (entries st)) st)
      as (_ & _ & _ & H).
    now destruct (0 <? _)%nat.
  - unfold delete_data. destruct (JS.parseInt id) as [z|]; [|reflexivity].
    destruct fault; [|reflexivity]. unfold delete_entries_where_id.
    destruct (delete_entry_rows_frame
                (filter (fun e => id_is (Sql.bind (JS.Num z)) (e_id e))
                        (entries st)) st)
      as (_ & H & _).
    now destruct (0 <? _)%nat.
  - intros z H. rewrite (delete_data_state id z st H).
    apply delete_entries_where_id_entries.
Qed.

(* ===================================================================== *)
(** ** Uploads: what is stored, and what is not rolled back *)
(* ===================================================================== *)

Lemma store_files_cons (f : upload) (files : list upload) (st : state) :
  store_files (f :: files) st = store_files files (write_file (filename f) st).
Proof. reflexivity. Qed.

Lemma store_files_keeps (files : list upload) :
  forall st name, file_exists name st = true ->
                  file_exists name (store_files files st) = true.
Proof.
  induction files as [|f fs IH]; intros st name H; [exact H|].
  rewrite store_files_cons. apply IH. rewrite file_exists_write, H.
  apply orb_true_r.
Qed.

Lemma store_files_exists (files : list upload) :
  forall st f, In f files -> file_exists (filename f) (store_files files st) = true.
Proof.
  induction files as [|g fs IH]; intros st f Hf; [destruct Hf|].
  destruct Hf as [<-|Hf]; rewrite store_files_cons.
  - apply store_files_keeps. apply file_exists_written.
  - now apply IH.
Qed.

(** X11. When the engine refuses the INSERT of POST /submit-data, the
    answer is 500 with the engine's message and neither an entry nor a
    TimesheetRow is added, but the uploaded files have been written
    and stay in [uploads]: the file writes are not rolled back. *)
Theorem submit_data_failure_keeps_files :
  forall (req : submit_request) (msg : string) (st : state),
    (List.length (s_files req) <= 10)%nat ->
    let st' := fst (submit_data req (Failed msg) st) in
    snd (submit_data req (Failed msg) st) = Response 500 (Plain msg) /\
    entries st' = entries st /\ timesheets st' = timesheets st /\
    (forall f, In f (s_files req) -> file_exists (filename f) st' = true) /\
    (forall name, file_exists name st = true -> file_exists name st' = true).
Proof.
  intros req msg st Hlen st'. subst st'. unfold submit_data.
  rewrite (multer_accepts _ _ Hlen). cbn [fst snd].
  destruct (store_files_db (s_files req) st) as (H1 & _ & H3 & _).
  repeat split; auto.
  - intros f Hf. now apply store_files_exists.
  - intros name H. now apply store_files_keeps.
Qed.

Lemma submit_data_failure_keeps_files_witness :
  let req := mkSubmit [mkUpload "a.png" 5] (JS.Str "Alice") JS.Undefined
                      JS.Undefined JS.Undefined in
  let st' := fst (submit_data req (Failed "SQLITE_BUSY") init) in
  entries st' = [] /\ file_exists "images-5" st' = true.
Proof.
  assert (Hlen : (List.length (s_files (mkSubmit [mkUpload "a.png" 5] (JS.Str "Alice")
                    JS.Undefined JS.Undefined JS.Undefined)) <= 10)%nat)
    by (simpl; lia).
  pose proof (submit_data_failure_keeps_files _ "SQLITE_BUSY" init Hlen) as H.
  cbv zeta in H. destruct H as (_ & H1 & _ & H2 & _).
  split; [exact H1|]. apply (H2 (mkUpload "a.png" 5)). now left.
Defined.

(** X12. A request with more than ten files is stopped by multer
    before the handler runs, in POST /submit-data as in POST
    /add-image: the answer is 500 and the entries and timesheets are
    those before the request. *)
Theorem too_many_files_rejected :
  forall (files : list upload) (fn ln rn txt id : JS.value) (fault fault' : io)
         (st : state),
    (10 < List.length files)%nat ->
    let submitted := submit_data (mkSubmit files fn ln rn txt) fault st in
    let added := add_image (mkAddImage id files) fault fault' st in
    snd submitted = multer_error /\
    entries (fst submitted) = entries st /\
    timesheets (fst submitted) = timesheets st /\
    snd added = multer_error /\
    entries (fst added) = entries st /\
    timesheets (fst added) = timesheets st.
Proof.
  intros files fn ln rn txt id fault fault' st Hlen submitted added.
  subst submitted added. unfold submit_data, add_image. cbn [s_files ai_files].
  pose proof (multer_same_db files st) as Hm. unfold multer in *.
  apply Nat.ltb_lt in Hlen. rewrite Hlen in *. cbn [fst snd].
  destruct Hm as [He Ht]. now repeat split.
Qed.

Lemma too_many_files_rejected_witness :
  let files := repeat (mkUpload "a.png" 5) 11 in
  snd (submit_data (mkSubmit files JS.Undefined JS.Undefined JS.Undefined JS.Undefined)
                   Ok one_entry) = multer_error /\
  entries (fst (add_image (mkAddImage JS.Undefined files) Ok Ok one_entry))
  = entries one_entry.
Proof.
  assert (Hlen : (10 < List.length (repeat (mkUpload "a.png" 5) 11))%nat)
    by (simpl; lia).
  pose proof (too_many_files_rejected _ JS.Undefined JS.Undefined JS.Undefined
                JS.Undefined JS.Undefined Ok Ok one_entry Hlen) as H.
  cbv zeta in H. destruct H as (H1 & _ & _ & _ & H5 & _).
  split; [exact H1 | exact H5].
Defined.

(** X13. A successful POST /submit-data whose fields the engine
    reads exactly appends one entry: its text fields are the submitted
    values (numbers as their text, absent fields NULL), its roomNumber
    is the integer the submitted number or numeral stands for (or the
    text itself if it is no numeral), and its image list holds the
    path [uploads/<name>] of every uploaded file in upload order.
    Every file named in the list exists in [uploads]. *)
Theorem submit_data_stores_entry :
  forall (req : submit_request) (st : state),
    (List.length (s_files req) <= 10)%nat ->
    Sql.exact_text (s_firstName req) = true ->
    Sql.exact_text (s_lastName req) = true ->
    Sql.exact_integer (s_roomNumber req) = true ->
    Sql.exact_text (s_additionalText req) = true ->
    let st' := fst (submit_data req Ok st) in
    entries st'
    = entries st
      ++ [mkEntry (next_rowid (entries_seq st) (map e_id (entries st)))
                  (Sql.text_affinity (Sql.bind (s_firstName req)))
                  (Sql.text_affinity (Sql.bind (s_lastName req)))
                  (Sql.integer_affinity (Sql.bind (s_roomNumber req)))
                  (Sql.text_affinity (Sql.bind (s_additionalText req)))
                  (Some (map path (s_files req)))] /\
    (forall img, In img (map path (s_files req)) ->
                 file_exists (JS.basename img) st' = true).
Proof.
  intros req st Hlen _ _ _ _ st'. subst st'. unfold submit_data.
  rewrite (multer_accepts _ _ Hlen). cbn [fst].
  destruct (store_files_db (s_files req) st) as (H1 & H2 & _).
  split.
  - unfold insert_entry, after_entry_insert, insert_timesheet.
    cbn [entries]. now rewrite H1, H2.
  - intros img Hin. apply in_map_iff in Hin. destruct Hin as (f & <- & Hf).
    unfold path.
    change ("uploads/" ++ filename f)%string
      with ("uploads" ++ String "/" (filename f))%string.
    rewrite basename_under_directory;
      [|discriminate | apply filename_no_slash].
    change (file_exists (filename f) (store_files (s_files req) st) = true).
    now apply store_files_exists.
Qed.

Lemma submit_data_stores_entry_witness :
  let req := mkSubmit [mkUpload "a.png" 5; mkUpload "b.png" 6] (JS.Str "Alice")
                      (JS.Num 4294967296) (JS.Str " 101.0 ") JS.Undefined in
  entries (fst (submit_data req Ok init))
  = [mkEntry 1 (Sql.Text "Alice") (Sql.Text "4294967296.0") (Sql.Int 101) Sql.Null
             (Some ["uploads/images-5"; "uploads/images-6"])].
Proof.
  assert (Hlen : (List.length (s_files (mkSubmit [mkUpload "a.png" 5; mkUpload "b.png" 6]
                    (JS.Str "Alice") (JS.Num 4294967296) (JS.Str " 101.0 ")
                    JS.Undefined)) <= 10)%nat)
    by (simpl; lia).
  pose proof (submit_data_stores_entry _ init Hlen eq_refl eq_refl eq_refl eq_refl)
    as H.
  cbv zeta in H. destruct H as [H _]. intro req.
  refine (eq_trans H _). vm_compute. reflexivity.
Defined.

(* ===================================================================== *)
(** ** Adding images *)
(* ===================================================================== *)

Lemma select_entry_none (p : Sql.value) (st : state) :
  select_entry p st = None ->
  filter (fun e => id_is p (e_id e)) (entries st) = [].
Proof.
  unfold select_entry. intro H. apply filter_none. intros e He.
  exact (find_none _ _ H e He).
Qed.

Lemma select_entry_store_files (p : Sql.value) (files : list upload) (st : state) :
  select_entry p (store_files files st) = select_entry p st.
Proof.
  unfold select_entry. destruct (store_files_db files st) as (H & _).
  now rewrite H.
Qed.

Lemma update_entry_images_others (imgs : list string) (p : Sql.value) (st : state) :
  Forall2 (fun e e' => if id_is p (e_id e) then e' = set_images imgs e else e' = e)
          (entries st) (entries (update_entry_images imgs p st)).
Proof.
  unfold update_entry_images. simpl. apply Forall2_map_self. intro e.
  now destruct (id_is p (e_id e)).
Qed.

(** X14. POST /add-image without a file answers 400 "No image files
    provided" and changes nothing.  With one to ten files and an
    entryId that the engine reads exactly and that names no stored
    entry it still answers 200 with the references of the uploaded
    files, although no entry records them: the entries are unchanged
    and the files stay in [uploads]. *)
Theorem add_image_without_target :
  forall (id : JS.value) (files : list upload) (fault fault' : io) (st : state),
    add_image (mkAddImage id []) fault fault' st
    = (st, Response 400 (ErrorJson "No image files provided")) /\
    (files <> [] -> (List.length files <= 10)%nat ->
     Sql.exact_integer id = true ->
     select_entry (Sql.bind id) st = None ->
     let st' := fst (add_image (mkAddImage id files) Ok Ok st) in
     snd (add_image (mkAddImage id files) Ok Ok st)
     = Response 200 (ImagesJson "New images added to entry" (map reference files)) /\
     entries st' = entries st /\
     timesheets st' = timesheets st /\
     (forall f, In f files -> file_exists (filename f) st' = true)).
Proof.
  intros id files fault fault' st. split; [reflexivity|].
  intros Hne Hlen _ Hsel st'. subst st'. unfold add_image.
  rewrite (multer_accepts _ _ Hlen). cbn [ai_files ai_entryId].
  destruct files as [|f fs]; [congruence|].
  rewrite select_entry_store_files, Hsel. cbn [fst snd app].
  destruct (store_files_db (f :: fs) st) as (H1 & _ & H3 & _).
  repeat split.
  - unfold update_entry_images. cbn [entries with_entries].
    rewrite map_if_none; [exact H1|]. rewrite H1. now apply select_entry_none.
  - exact H3.
  - intros g Hg.
    change (file_exists (filename g) (store_files (f :: fs) st) = true).
    now apply store_files_exists.
Qed.

(** X15. POST /add-image with one to ten files for a stored entry
    answers 200 with the entry's image list followed by the references
    [/uploads/<name>] of the uploaded files in upload order, and that
    list is what the entry holds afterwards; its other columns, and
    every entry with another id, are unchanged. *)
Theorem add_image_appends :
  forall (id : JS.value) (e : entry) (files : list upload) (st : state),
    select_entry (Sql.bind id) st = Some e ->
    files <> [] -> (List.length files <= 10)%nat ->
    let images := image_list e ++ map reference files in
    let st' := fst (add_image (mkAddImage id files) Ok Ok st) in
    snd (add_image (mkAddImage id files) Ok Ok st)
    = Response 200 (ImagesJson "New images added to entry" images) /\
    select_entry (Sql.bind id) st' = Some (set_images images e) /\
    Forall2 (fun x x' =>
               if id_is (Sql.bind id) (e_id x)
               then x' = set_images images x else x' = x)
            (entries st) (entries st').
Proof.
  intros id e files st Hsel Hne Hlen images st'. subst st'. unfold add_image.
  rewrite (multer_accepts _ _ Hlen). cbn [ai_files ai_entryId].
  destruct files as [|f fs]; [congruence|].
  rewrite select_entry_store_files, Hsel. cbn [fst snd].
  fold (image_list e). fold (reference). fold images.
  change (map (fun file => ("/uploads/" ++ filename file)%string) (f :: fs))
    with (map reference (f :: fs)). fold images.
  repeat split.
  - now rewrite select_entry_update_images, select_entry_store_files, Hsel.
  - destruct (store_files_db (f :: fs) st) as (H1 & _). rewrite <- H1.
    apply update_entry_images_others.
Qed.

Lemma add_image_appends_witness :
  let files := [mkUpload "b.png" 6; mkUpload "c.png" 7] in
  option_map image_list
    (select_entry (Sql.bind (JS.Str "1"))
       (fst (add_image (mkAddImage (JS.Str "1") files) Ok Ok with_photo)))
  = Some ["uploads/images-5"; "/uploads/images-6"; "/uploads/images-7"].
Proof.
  intro files.
  assert (Hsel : select_entry (Sql.bind (JS.Str "1")) with_photo
                 = Some (mkEntry 1 (Sql.Text "Alice") Sql.Null (Sql.Int 101) Sql.Null
                                 (Some ["uploads/images-5"]))) by reflexivity.
  assert (Hne : files <> []) by discriminate.
  assert (Hlen : (List.length files <= 10)%nat) by (simpl; lia).
  rewrite (proj1 (proj2 (add_image_appends (JS.Str "1") _ files with_photo
                           Hsel Hne Hlen))).
  reflexivity.
Defined.

(* ===================================================================== *)
(** ** Deleting images *)
(* ===================================================================== *)

Lemma file_exists_remove (name other : string) (st : state) :
  file_exists name (remove_file other st)
  = negb (name =? other)%string && file_exists name st.
Proof.
  unfold file_exists, remove_file. cbn [uploads with_uploads].
  assert (H : existsb (String.eqb name)
                (filter (fun f => negb (f =? other)%string) (uploads st))
              = negb (name =? other)%string
                && existsb (String.eqb name) (uploads st)).
  { induction (uploads st) as [|f fs IH]; cbn [filter existsb];
      [now rewrite andb_false_r|].
    destruct (String.eqb_spec f other) as [->|Hf]; cbn [negb existsb].
    - rewrite IH. now destruct (String.eqb_spec name other) as [->|].
    - rewrite IH. destruct (String.eqb_spec name f) as [->|]; [|reflexivity].
      destruct (String.eqb_spec f other); [contradiction|reflexivity]. }
  rewrite H. now destruct (Str.mem "000" name), (name =? other)%string.
Qed.

Lemma take_while_no_slash (s : string) :
  Str.mem "/" (Str.take_while (fun c => negb (Str.is_slash c)) s) = false.
Proof.
  induction s as [|c s IH]; [reflexivity|]. cbn [Str.take_while].
  destruct (Str.is_slash c) eqn:E; cbn [negb]; [reflexivity|].
  cbn [Str.mem]. rewrite IH, orb_false_r. unfold Str.is_slash in E.
  now rewrite Ascii.eqb_sym.
Qed.

Lemma take_while_all (s : string) :
  Str.mem "/" s = false ->
  Str.take_while (fun c => negb (Str.is_slash c)) s = s.
Proof.
  induction s as [|c s IH]; [reflexivity|]. cbn [Str.mem Str.take_while].
  intro H. apply orb_false_elim in H. destruct H as [Hc Hs].
  assert (E : Str.is_slash c = false)
    by (unfold Str.is_slash; now rewrite Ascii.eqb_sym).
  rewrite E. cbn [negb]. now rewrite IH.
Qed.

Lemma basename_plain (name : string) :
  Str.mem "/" name = false -> JS.basename name = name.
Proof.
  intro H. destruct name as [|c s] eqn:E; [reflexivity|]. rewrite <- E in *.
  unfold JS.basename.
  assert (Hne : name <> ""%string) by (rewrite E; discriminate).
  pose proof (drop_no_slash name Hne H ""%string) as Hd.
  rewrite string_app_nil_r in Hd. rewrite Hd.
  rewrite take_while_all by now rewrite mem_rev.
  apply rev_involutive.
Qed.

Lemma basename_no_slash (p : string) : Str.mem "/" (JS.basename p) = false.
Proof. unfold JS.basename. rewrite mem_rev. apply take_while_no_slash. Qed.

(** X16. [path.basename] never returns a name with a slash, and
    applying it twice changes nothing more; a path that ends in
    [/name], where [name] is not empty and has no slash, has basename
    [name]. *)
Theorem basename_strips_directories :
  forall (p dir name : string),
    Str.mem "/" (JS.basename p) = false /\
    JS.basename (JS.basename p) = JS.basename p /\
    (name <> ""%string -> Str.mem "/" name = false ->
     JS.basename (dir ++ String "/" name) = name).
Proof.
  intros p dir name.
  pose proof (basename_no_slash p) as H.
  split; [exact H|]. split; [now apply basename_plain|].
  apply basename_under_directory.
Qed.



(** X18. A successful POST /delete-image, for a stored entry and a
    file that is in [uploads]: the answer is 200 with the entry's image
    list without the references whose basename is the basename of the
    request, the others in their order; the entry holds that list
    afterwards; the file of that basename is gone and every other file
    is where it was. *)
Theorem delete_image_removes_references :
  forall (id : JS.value) (name : string) (e : entry) (st : state),
    select_entry (Sql.bind id) st = Some e ->
    is_directory (JS.basename name) = false ->
    file_exists (JS.basename name) st = true ->
    let kept :=
      filter (fun img => negb (JS.basename img =? JS.basename name)%string)
             (image_list e) in
    let st' := fst (delete_image (mkDeleteImage id (JS.Str name)) Ok Ok Ok st) in
    snd (delete_image (mkDeleteImage id (JS.Str name)) Ok Ok Ok st)
    = Response 200 (ImagesJson "Image deleted" kept) /\
    select_entry (Sql.bind id) st' = Some (set_images kept e) /\
    file_exists (JS.basename name) st' = false /\
    (forall other, other <> JS.basename name ->
                   file_exists other st' = file_exists other st) /\
    timesheets st' = timesheets st.
Proof.
  intros id name e st Hsel Hd Hf kept st'. subst st'.
  unfold delete_image. cbn [di_imageName di_entryId].
  rewrite (unlink_present _ _ Hd Hf).
  change (select_entry (Sql.bind id) (remove_file (JS.basename name) st))
    with (select_entry (Sql.bind id) st).
  rewrite Hsel. fold (image_list e). fold kept. cbn [fst snd].
  repeat split.
  - rewrite select_entry_update_images.
    change (select_entry (Sql.bind id) (remove_file (JS.basename name) st))
      with (select_entry (Sql.bind id) st).
    now rewrite Hsel.
  - change (file_exists (JS.basename name) (remove_file (JS.basename name) st) = false).
    now rewrite file_exists_remove, String.eqb_refl.
  - intros other Hne.
    change (file_exists other (remove_file (JS.basename name) st) = file_exists other st).
    rewrite file_exists_remove. apply String.eqb_neq in Hne. now rewrite Hne.
Qed.

Lemma delete_image_removes_references_witness :
  let st' := fst (delete_image (mkDeleteImage (JS.Num 1) (JS.Str "/any/dir/images-5"))
                               Ok Ok Ok with_photo) in
  option_map image_list (select_entry (Sql.bind (JS.Num 1)) st') = Some [] /\
  file_exists "images-5" st' = false.
Proof.
  assert (Hsel : select_entry (Sql.bind (JS.Num 1)) with_photo
                 = Some (mkEntry 1 (Sql.Text "Alice") Sql.Null (Sql.Int 101) Sql.Null
                                 (Some ["uploads/images-5"]))) by reflexivity.
  pose proof (delete_image_removes_references (JS.Num 1) "/any/dir/images-5" _
                with_photo Hsel eq_refl eq_refl) as H.
  cbv zeta in H. destruct H as (_ & H2 & H3 & _).
  split; [now rewrite H2 | exact H3].
Defined.

(** X19. POST /delete-image does not roll back: when the file has been
    unlinked and the engine then fails on the SELECT or on the UPDATE,
    the answer is 500, the file is gone and the entries are as before,
    so the entry still lists the image.  The same request again is
    then answered 404 and changes nothing: the reference can no longer
    be removed through this route. *)
Theorem delete_image_no_rollback :
  forall (id : JS.value) (name msg : string) (st : state),
    is_directory (JS.basename name) = false ->
    file_exists (JS.basename name) st = true ->
    select_entry (Sql.bind id) st <> None ->
    let req := mkDeleteImage id (JS.Str name) in
    let st1 := remove_file (JS.basename name) st in
    delete_image req Ok (Failed msg) Ok st
    = (st1, Response 500 (ErrorJson "Failed to retrieve entry")) /\
    delete_image req Ok Ok (Failed msg) st
    = (st1, Response 500 (ErrorJson "Failed to update entry")) /\
    entries st1 = entries st /\
    file_exists (JS.basename name) st1 = false /\
    delete_image req Ok Ok Ok st1
    = (st1, Response 404 (ErrorJson "Failed to delete image")).
Proof.
  intros id name msg st Hd Hf Hsel req st1.
  assert (Hgone : file_exists (JS.basename name) st1 = false).
  { subst st1. now rewrite file_exists_remove, String.eqb_refl. }
  assert (Hmiss : unlink (JS.basename name) Ok st1 = Enoent).
  { unfold unlink. now rewrite (file_exists_no_nul _ _ Hf), Hd, Hgone. }
  subst req. unfold delete_image. cbn [di_imageName di_entryId].
  rewrite (unlink_present _ _ Hd Hf), Hmiss. fold st1.
  change (select_entry (Sql.bind id) st1) with (select_entry (Sql.bind id) st).
  destruct (select_entry (Sql.bind id) st); [|congruence].
  now repeat split.
Qed.

Lemma delete_image_no_rollback_witness :
  let req := mkDeleteImage (JS.Num 1) (JS.Str "uploads/images-5") in
  let st1 := fst (delete_image req Ok Ok (Failed "SQLITE_BUSY") with_photo) in
  option_map image_list (select_entry (Sql.bind (JS.Num 1)) st1)
  = Some ["uploads/images-5"] /\
  delete_image req Ok Ok Ok st1
  = (st1, Response 404 (ErrorJson "Failed to delete image")).
Proof.
  assert (Hsel : select_entry (Sql.bind (JS.Num 1)) with_photo <> None)
    by discriminate.
  pose proof (delete_image_no_rollback (JS.Num 1) "uploads/images-5" "SQLITE_BUSY"
                with_photo eq_refl eq_refl Hsel) as H.
  cbv zeta in H. destruct H as (_ & H2 & _ & _ & H5).
  split; [reflexivity|]. rewrite H2. exact H5.
Defined.

(** X20. POST /delete-image never creates a file and removes at most
    one: whatever the request and the failures, a file that is missing
    afterwards is the one named by the basename of [imageName], a name
    without a slash, so nothing outside [uploads] is ever unlinked. *)
Theorem delete_image_unlinks_one_name :
  forall (req : delete_image_request) (f1 f2 f3 : io) (st : state) (file : string),
    let st' := fst (delete_image req f1 f2 f3 st) in
    (file_exists file st' = true -> file_exists file st = true) /\
    (file_exists file st = true -> file_exists file st' = false ->
     exists name, di_imageName req = JS.Str name /\
                  file = JS.basename name /\ Str.mem "/" file = false).
Proof.
  intros req f1 f2 f3 st file st'.
  assert (Hcases : st' = st \/
                   exists name, di_imageName req = JS.Str name /\
                                uploads st' = uploads (remove_file (JS.basename name) st)).
  { subst st'. unfold delete_image, unlink.
    destruct (di_imageName req) as [| |b|z|name]; try (now left).
    destruct (Str.mem "000" _); [now left|].
    destruct f1; [|now left].
    destruct (is_directory _); [now left|].
    destruct (file_exists _ st); [|now left].
    right. exists name. split; [reflexivity|].
    destruct f2; [|reflexivity].
    destruct (select_entry _ _); [|reflexivity].
    destruct f3; reflexivity. }
  destruct Hcases as [->|(name & Hn & Hu)].
  - split; [auto|congruence].
  - assert (Hex : file_exists file st'
                  = negb (file =? JS.basename name)%string && file_exists file st).
    { rewrite <- file_exists_remove. unfold file_exists. now rewrite Hu. }
    rewrite Hex. split.
    + intro H. now apply andb_prop in H.
    + intros H1 H2. rewrite H1, andb_true_r in H2. apply negb_false_iff in H2.
      apply String.eqb_eq in H2. exists name. repeat split; auto.
      rewrite H2. apply basename_no_slash.
Qed.

(* ===================================================================== *)
(** ** Ids that arrive as text *)
(* ===================================================================== *)

Lemma uint_chars (d : Decimal.uint) (c : ascii) :
  Str.mem c (NilEmpty.string_of_uint d) = true -> Str.mem c "0123456789" = true.
Proof.
  induction d; cbn [NilEmpty.string_of_uint Str.mem]; try discriminate;
    intro H; apply orb_prop in H; destruct H as [H|H]; auto;
    apply Ascii.eqb_eq in H; subst; reflexivity.
Qed.

Lemma of_Z_chars (z : Z) (c : ascii) :
  Str.mem c (Str.of_Z z) = true -> Str.mem c "-0123456789" = true.
Proof.
  unfold Str.of_Z, NilZero.string_of_int, NilZero.string_of_uint.
  assert (Hd : forall d, Str.mem c (NilEmpty.string_of_uint d) = true ->
                         Str.mem c "-0123456789" = true).
  { intros d H. apply uint_chars in H. cbn [Str.mem] in *. now rewrite H, orb_true_r. }
  assert (H0 : Str.mem c "0" = true -> Str.mem c "-0123456789" = true).
  { cbn [Str.mem]. intro H. rewrite orb_false_r in H. rewrite H.
    now rewrite orb_true_r. }
  destruct (Z.to_int z) as [d|d].
  - destruct d; [exact H0 | apply Hd ..].
  - cbn [Str.mem]. intro H. apply orb_prop in H. destruct H as [H|H].
    + now rewrite H.
    + revert H. destruct d; [exact H0 | apply Hd ..].
Qed.

Lemma decimal_char_cases (c : ascii) :
  Str.mem c "-0123456789" = true ->
  Str.is_space c = false /\ Ascii.eqb c "+" = false /\
  (Ascii.eqb c "-" = true \/ Str.is_digit c = true).
Proof.
  cbn [Str.mem]. intro H.
  repeat (apply orb_prop in H; destruct H as [H|H];
          [apply Ascii.eqb_eq in H; subst; repeat split; auto|]).
  discriminate.
Qed.


Lemma drop_while_all (p : ascii -> bool) (a b : string) :
  Str.drop_while p a = ""%string ->
  Str.drop_while p (a ++ b) = Str.drop_while p b.
Proof.
  induction a as [|c a IH]; [reflexivity|]. cbn [Str.drop_while String.append].
  destruct (p c); [exact IH|discriminate].
Qed.

Lemma take_digits_uint (d : Decimal.uint) (rest : string) :
  Str.take_while Str.is_digit (NilEmpty.string_of_uint d ++ rest)
  = (NilEmpty.string_of_uint d ++ Str.take_while Str.is_digit rest)%string.
Proof.
  induction d; cbn [NilEmpty.string_of_uint String.append]; [reflexivity| | | | | | | | | |];
    cbn [Str.take_while]; rewrite IHd; reflexivity.
Qed.


Lemma digits_value_uint (d : Decimal.uint) :
  Str.digits_value (NilEmpty.string_of_uint d) = Z.of_uint d.
Proof. unfold Str.digits_value. now rewrite NilEmpty.usu. Qed.

Lemma of_uint_to_uint (p : positive) : Z.of_uint (Pos.to_uint p) = Z.pos p.
Proof.
  unfold Z.of_uint. now rewrite DecimalPos.Unsigned.of_to.
Qed.

(** The decimal text of an integer: a minus sign if it is negative,
    then the digits of its absolute value, at least one. *)
Lemma of_Z_digits (z : Z) :
  exists d : Decimal.uint,
    NilEmpty.string_of_uint d <> ""%string /\
    Z.of_uint d = Z.abs z /\
    Str.of_Z z = if z <? 0 then String "-" (NilEmpty.string_of_uint d)
                 else NilEmpty.string_of_uint d.
Proof.
  assert (Hpos : forall p, NilEmpty.string_of_uint (Pos.to_uint p) <> ""%string /\
                           NilZero.string_of_uint (Pos.to_uint p)
                           = NilEmpty.string_of_uint (Pos.to_uint p)).
  { intro p. pose proof (DecimalPos.Unsigned.to_uint_nonnil p) as Hnn.
    destruct (Pos.to_uint p); [congruence | split; [discriminate|reflexivity] ..]. }
  destruct z as [|p|p].
  - exists (Decimal.D0 Decimal.Nil). repeat split. discriminate.
  - exists (Pos.to_uint p). destruct (Hpos p) as [H1 H2].
    split; [exact H1|]. split; [apply of_uint_to_uint|].
    unfold Str.of_Z, NilZero.string_of_int. cbn [Z.to_int Z.ltb Z.compare].
    exact H2.
  - exists (Pos.to_uint p). destruct (Hpos p) as [H1 H2].
    split; [exact H1|]. split; [apply of_uint_to_uint|].
    unfold Str.of_Z, NilZero.string_of_int. cbn [Z.to_int Z.ltb Z.compare].
    now rewrite H2.
Qed.

Lemma uint_head_digit (d : Decimal.uint) :
  NilEmpty.string_of_uint d <> ""%string ->
  exists c s, NilEmpty.string_of_uint d = String c s /\
              Str.mem c "0123456789" = true.
Proof.
  destruct d; cbn [NilEmpty.string_of_uint]; [congruence | intros _ ..];
    eexists; eexists; (split; [reflexivity|reflexivity]).
Qed.

(** A text that starts with a digit carries no sign. *)
Lemma sign_digit (c : ascii) (s : string) :
  Str.mem c "0123456789" = true -> Str.sign (String c s) = (false, String c s).
Proof.
  cbn [Str.mem]. intro H.
  repeat (apply orb_prop in H; destruct H as [H|H];
          [apply Ascii.eqb_eq in H; subst; reflexivity|]).
  discriminate.
Qed.


(** No white space of JavaScript starts with a sign or a digit. *)
Lemma skip_white_space_head (c : ascii) (s : string) :
  Str.mem c "-0123456789" = true ->
  JS.skip_white_space (String c s) = String c s.
Proof.
  cbn [Str.mem]. intro H.
  repeat (apply orb_prop in H; destruct H as [H|H];
          [apply Ascii.eqb_eq in H; subst c;
           destruct s as [|b [|c' r]]; reflexivity|]).
  discriminate.
Qed.

Lemma skip_white_space_ascii (ws t : string) :
  Str.drop_while Str.is_space ws = ""%string ->
  JS.skip_white_space (ws ++ t) = JS.skip_white_space t.
Proof.
  induction ws as [|c ws IH]; [reflexivity|].
  cbn [Str.drop_while String.append JS.skip_white_space].
  destruct (Str.is_space c); [exact IH|discriminate].
Qed.

(** The head of the decimal text of an integer. *)
Lemma of_Z_head (z : Z) :
  exists c s, Str.of_Z z = String c s /\ Str.mem c "-0123456789" = true.
Proof.
  destruct (of_Z_digits z) as (d & Hne & _ & E).
  destruct (uint_head_digit d Hne) as (c & s & Ed & Hc).
  destruct (z <? 0).
  - exists "-"%char, (NilEmpty.string_of_uint d). split; [exact E|reflexivity].
  - exists c, s. split; [now rewrite E|].
    cbn [Str.mem] in *. now rewrite Hc, orb_true_r.
Qed.

Lemma to_double_small (z : Z) : Z.abs z < 2 ^ 53 -> JS.to_double z = z.
Proof.
  intro H. unfold JS.to_double.
  assert (Hk : Z.log2 (Z.abs z) + 1 - 53 <= 0).
  { destruct (Z.eq_dec (Z.abs z) 0) as [E|E]; [rewrite E; simpl; lia|].
    assert (Z.log2 (Z.abs z) < 53) by (apply Z.log2_lt_pow2; lia). lia. }
  apply Z.leb_le in Hk. now rewrite Hk.
Qed.

(** [parseInt] on the decimal text of an integer below 2^53, followed
    by anything that starts with no digit. *)
Lemma parseInt_string_decimal (z : Z) (rest : string) :
  Z.abs z < 2 ^ 53 ->
  Str.take_while Str.is_digit rest = ""%string ->
  JS.parseInt_string (Str.of_Z z ++ rest) = Some z.
Proof.
  intros Hz Hrest. unfold JS.parseInt_string.
  destruct (of_Z_head z) as (c & s & Ec & Hc).
  assert (Hskip : JS.skip_white_space (Str.of_Z z ++ rest)
                  = (Str.of_Z z ++ rest)%string).
  { rewrite Ec. cbn [String.append]. now apply skip_white_space_head. }
  rewrite Hskip. clear c s Ec Hc Hskip.
  destruct (of_Z_digits z) as (d & Hne & Hv & E).
  destruct (uint_head_digit d Hne) as (c & s & Ed & Hc).
  assert (Hval : JS.to_double (Str.digits_value (String c s)) = Z.abs z).
  { rewrite <- Ed, digits_value_uint, Hv. apply to_double_small. lia. }
  assert (Htake : Str.take_while Str.is_digit (NilEmpty.string_of_uint d ++ rest)
                  = String c s)
    by now rewrite take_digits_uint, Hrest, string_app_nil_r.
  destruct (Z.ltb_spec z 0) as [Hneg|Hpos]; rewrite E.
  - cbn [String.append Str.sign]. rewrite Htake. cbv iota beta zeta.
    rewrite Hval. f_equal. lia.
  - rewrite Ed at 1. cbn [String.append]. rewrite (sign_digit c _ Hc).
    change (String c (s ++ rest)) with (String c s ++ rest)%string.
    rewrite <- Ed, Htake. cbv iota beta zeta. rewrite Hval. f_equal. lia.
Qed.





(** X22. [parseInt] reads a decimal id out of its surroundings: for an
    integer below 2^53 written in decimal, preceded by white space and
    followed by anything that does not start with a digit, POST
    /delete-data does exactly what it does for the number itself. *)
Theorem delete_data_reads_decimal_prefix :
  forall (z : Z) (ws rest : string) (fault : io) (st : state),
    Z.abs z < 2 ^ 53 ->
    Str.drop_while Str.is_space ws = ""%string ->
    Str.take_while Str.is_digit rest = ""%string ->
    JS.parseInt (JS.Str (ws ++ Str.of_Z z ++ rest)) = Some z /\
    delete_data (JS.Str (ws ++ Str.of_Z z ++ rest)) fault st
    = delete_data (JS.Num z) fault st.
Proof.
  intros z ws rest fault st Hz Hws Hrest.
  assert (H : JS.parseInt (JS.Str (ws ++ Str.of_Z z ++ rest)) = Some z).
  { cbn [JS.parseInt]. unfold JS.parseInt_string.
    rewrite (skip_white_space_ascii ws _ Hws).
    exact (parseInt_string_decimal z rest Hz Hrest). }
  assert (Hnum : JS.parseInt (JS.Num z) = Some z).
  { apply parseInt_num. assert (2 ^ 53 < 10 ^ 21) by (vm_compute; reflexivity). lia. }
  split; [exact H|]. unfold delete_data. now rewrite H, Hnum.
Qed.

Lemma delete_data_reads_decimal_prefix_witness :
  delete_data (JS.Str "  1px") Ok one_entry = delete_data (JS.Num 1) Ok one_entry.
Proof.
  assert (Hz : Z.abs 1 < 2 ^ 53) by (vm_compute; reflexivity).
  exact (proj2 (delete_data_reads_decimal_prefix 1 "  " "px" Ok one_entry
                  Hz eq_refl eq_refl)).
Defined.

(* ===================================================================== *)
(** ** Searching: case *)
(* ===================================================================== *)

Lemma fold_case_idempotent (c : Z) : Sql.fold_case (Sql.fold_case c) = Sql.fold_case c.
Proof.
  unfold Sql.fold_case.
  destruct ((65 <=? c) && (c <=? 90)) eqn:E; [|now rewrite E].
  apply andb_true_iff in E. destruct E as [H1 H2].
  apply Z.leb_le in H1. apply Z.leb_le in H2.
  replace (c + 32 <=? 90) with false by (symmetry; apply Z.leb_gt; lia).
  now rewrite andb_false_r.
Qed.

Lemma fold_case_keeps_wildcards (c : Z) :
  (Sql.fold_case c =? 37) = (c =? 37) /\ (Sql.fold_case c =? 95) = (c =? 95).
Proof.
  unfold Sql.fold_case.
  destruct ((65 <=? c) && (c <=? 90)) eqn:E; [|split; reflexivity].
  apply andb_true_iff in E. destruct E as [H1 H2].
  apply Z.leb_le in H1. apply Z.leb_le in H2.
  split; (transitivity false; [apply Z.eqb_neq|symmetry; apply Z.eqb_neq]); lia.
Qed.

(** [lower] on a byte is [fold_case] on its value. *)
Lemma byte_lower (b : ascii) : Str.byte (Sql.lower b) = Sql.fold_case (Str.byte b).
Proof. destruct b as [[] [] [] [] [] [] [] []]; reflexivity. Qed.

Lemma lower_nul (b : ascii) : Ascii.eqb "000" (Sql.lower b) = Ascii.eqb "000" b.
Proof. destruct b as [[] [] [] [] [] [] [] []]; reflexivity. Qed.

Lemma c_string_lower (s : string) :
  Sql.c_string (Str.map Sql.lower s) = Str.map Sql.lower (Sql.c_string s).
Proof.
  unfold Sql.c_string. induction s as [|b s IH]; [reflexivity|].
  cbn [Str.map Str.take_while]. rewrite !byte_is_nul, lower_nul.
  destruct (Ascii.eqb "000" b); cbn [negb Str.map]; [reflexivity|now rewrite IH].
Qed.

(** Folding the bytes of a text folds its characters: the letters are
    characters of one byte. *)
Lemma chars_from_lower (s : string) :
  forall cur, map Sql.fold_case (Sql.chars_from cur (Str.map Sql.lower s))
              = map Sql.fold_case (Sql.chars_from cur s).
Proof.
  induction s as [|b s IH]; intro cur; [reflexivity|].
  cbn [Str.map Sql.chars_from]. rewrite byte_lower. cbv zeta.
  assert (Hn : Sql.fold_case (Str.byte b) = Str.byte b \/
               65 <= Str.byte b <= 90 /\ Sql.fold_case (Str.byte b) = Str.byte b + 32).
  { unfold Sql.fold_case. destruct ((65 <=? Str.byte b) && (Str.byte b <=? 90)) eqn:E;
      [right|now left].
    apply andb_true_iff in E. destruct E as [H1 H2].
    apply Z.leb_le in H1. apply Z.leb_le in H2. now split. }
  destruct Hn as [Hn|[Hb Hn]]; rewrite Hn.
  - destruct cur as [c|].
    + destruct ((128 <=? Str.byte b) && (Str.byte b <? 192)); [apply IH|].
      cbn [map]. f_equal.
      destruct (192 <=? Str.byte b); [apply IH|]. cbn [map]. f_equal. apply IH.
    + destruct (192 <=? Str.byte b); [apply IH|]. cbn [map]. f_equal. apply IH.
  - replace (128 <=? Str.byte b + 32) with false by (symmetry; apply Z.leb_gt; lia).
    replace (128 <=? Str.byte b) with false by (symmetry; apply Z.leb_gt; lia).
    replace (192 <=? Str.byte b + 32) with false by (symmetry; apply Z.leb_gt; lia).
    replace (192 <=? Str.byte b) with false by (symmetry; apply Z.leb_gt; lia).
    cbn [andb]. cbv iota.
    assert (Hf : Sql.fold_case (Str.byte b + 32) = Sql.fold_case (Str.byte b))
      by (rewrite <- Hn; apply fold_case_idempotent).
    destruct cur; cbn [map]; now rewrite Hf, IH.
Qed.

Lemma chars_lower (s : string) :
  map Sql.fold_case (Sql.chars (Str.map Sql.lower s)) = map Sql.fold_case (Sql.chars s).
Proof. unfold Sql.chars. rewrite c_string_lower. apply chars_from_lower. Qed.

Lemma like_percent_ext (p p' : list Z) :
  (forall s, Sql.like_chars p' s = Sql.like_chars p s) ->
  forall s, Sql.like_chars (37 :: p') s = Sql.like_chars (37 :: p) s.
Proof.
  intros H s. induction s as [|d s IH].
  - now rewrite (like_percent_unfold p' []), (like_percent_unfold p []), H.
  - rewrite (like_percent_unfold p' (d :: s)), (like_percent_unfold p (d :: s)).
    now rewrite H, IH.
Qed.

(** The case of the pattern does not matter. *)
Lemma like_pattern_case (p : list Z) :
  forall s, Sql.like_chars (map Sql.fold_case p) s = Sql.like_chars p s.
Proof.
  induction p as [|c p IH]; intro s; [reflexivity|]. cbn [map].
  destruct (fold_case_keeps_wildcards c) as [Hp Hu].
  destruct (Z.eqb_spec c 37) as [->|Hc].
  - change (Sql.fold_case 37) with 37. now apply like_percent_ext.
  - rewrite (like_char_unfold (Sql.fold_case c)), (like_char_unfold c);
      [|assumption|now apply Z.eqb_neq].
    destruct s as [|d s]; [reflexivity|]. now rewrite fold_case_idempotent, Hu, IH.
Qed.

(** The case of the text does not matter. *)
Lemma like_text_case (p : list Z) :
  forall s, Sql.like_chars p (map Sql.fold_case s) = Sql.like_chars p s.
Proof.
  induction p as [|c p IH]; intro s; [now destruct s|].
  destruct (Z.eqb_spec c 37) as [->|Hc].
  - induction s as [|d s IHs].
    + reflexivity.
    + cbn [map].
      rewrite (like_percent_unfold p (Sql.fold_case d :: map Sql.fold_case s)),
              (like_percent_unfold p (d :: s)).
      rewrite IHs. f_equal. apply (IH (d :: s)).
  - rewrite !(like_char_unfold c) by assumption.
    destruct s as [|d s]; [reflexivity|]. cbn [map].
    now rewrite fold_case_idempotent, IH.
Qed.

(** Two patterns, or two texts, with the same letters up to case. *)
Lemma like_same_letters (p p' s s' : string) :
  Str.map Sql.lower p = Str.map Sql.lower p' ->
  Str.map Sql.lower s = Str.map Sql.lower s' ->
  Sql.like p s = Sql.like p' s'.
Proof.
  intros Hp Hs. unfold Sql.like.
  rewrite <- (like_pattern_case (Sql.chars p)), <- (like_pattern_case (Sql.chars p')).
  rewrite <- (like_text_case _ (Sql.chars s)), <- (like_text_case _ (Sql.chars s')).
  now rewrite <- (chars_lower p), <- (chars_lower p'), <- (chars_lower s),
              <- (chars_lower s'), Hp, Hs.
Qed.

Lemma lower_idempotent (c : ascii) : Sql.lower (Sql.lower c) = Sql.lower c.
Proof. destruct c as [[] [] [] [] [] [] [] []]; reflexivity. Qed.

Lemma map_lower_idempotent (s : string) :
  Str.map Sql.lower (Str.map Sql.lower s) = Str.map Sql.lower s.
Proof.
  induction s as [|c s IH]; [reflexivity|].
  cbn [Str.map]. now rewrite lower_idempotent, IH.
Qed.

Lemma map_lower_length (s : string) :
  String.length (Str.map Sql.lower s) = String.length s.
Proof. induction s as [|c s IH]; [reflexivity|]. cbn [Str.map String.length]. now rewrite IH. Qed.

Lemma map_lower_empty (q : string) :
  Str.map Sql.lower q = ""%string <-> q = ""%string.
Proof. destruct q; simpl; split; congruence. Qed.

(** X23. The search of GET /get-data ignores ASCII case on both sides:
    two queries that differ only in the case of their letters get the
    same answer, and whether a stored text matches a pattern does not
    depend on the case of its letters. *)
Theorem search_ignores_case :
  forall (q q' : string) (fault : io) (st : state),
    Str.map Sql.lower q = Str.map Sql.lower q' ->
    get_data (Some q) fault st = get_data (Some q') fault st /\
    (forall s, Sql.like_value (Sql.Text (Str.map Sql.lower s)) ("%" ++ q ++ "%")
               = Sql.like_value (Sql.Text s) ("%" ++ q' ++ "%")).
Proof.
  intros q q' fault st H.
  assert (Hlow : Str.map Sql.lower ("%" ++ q ++ "%") = Str.map Sql.lower ("%" ++ q' ++ "%"))
    by now rewrite !map_lower_app, H.
  assert (Hpat : forall s, Sql.like ("%" ++ q ++ "%") s = Sql.like ("%" ++ q' ++ "%") s)
    by (intro s; now apply like_same_letters).
  split.
  - assert (Ht : JS.truthy (JS.Str q) = JS.truthy (JS.Str q')).
    { cbn [JS.truthy]. destruct (String.eqb_spec q "") as [->|Hq].
      - symmetry in H. apply (proj1 (map_lower_empty q')) in H. subst q'.
        reflexivity.
      - destruct (String.eqb_spec q' "") as [->|Hq']; [|reflexivity].
        apply (proj1 (map_lower_empty q)) in H. contradiction. }
    assert (Hlen : Sql.too_complex ("%" ++ q ++ "%") = Sql.too_complex ("%" ++ q' ++ "%")).
    { unfold Sql.too_complex.
      now rewrite <- (map_lower_length ("%" ++ q ++ "%")), Hlow, map_lower_length. }
    unfold get_data, like_fails, get_data_rows. destruct fault; [|reflexivity].
    rewrite Ht, Hlen.
    assert (Hrows : filter (entry_like ("%" ++ q ++ "%")) (entries st)
                    = filter (entry_like ("%" ++ q' ++ "%")) (entries st)).
    { apply filter_ext. intro e. unfold entry_like, Sql.like_value.
      repeat match goal with
             | |- context [Sql.as_text ?v] => destruct (Sql.as_text v)
             end; now rewrite ?Hpat. }
    now rewrite Hrows.
  - intro s. unfold Sql.like_value. cbn [Sql.as_text].
    apply like_same_letters; [exact Hlow|apply map_lower_idempotent].
Qed.

Lemma search_ignores_case_witness :
  get_data (Some "aLiCe"%string) Ok one_entry
  = get_data (Some "ALICE"%string) Ok one_entry.
Proof.
  exact (proj1 (search_ignores_case "aLiCe" "ALICE" Ok one_entry eq_refl)).
Defined.

(* ===================================================================== *)
(** ** Start-up *)
(* ===================================================================== *)

Lemma row0_rows_exists (id : Z) (st : state) :
  row0_rows id st <> [] <->
  existsb (fun r => Sql.eqb (entryId r) (Sql.Int id)
                    && Sql.eqb (timesheetRow r) (Sql.Int 0)) (timesheets st) = true.
Proof.
  unfold row0_rows. induction (timesheets st) as [|r l IH]; simpl.
  - split; [congruence|discriminate].
  - destruct (_ && _); simpl; [split; [reflexivity|discriminate]|exact IH].
Qed.

Lemma fold_insert_row0 (need : list entry) :
  forall st,
    let st' := fold_left (fun s e => insert_timesheet (Sql.Int (e_id e)) (Sql.Int 0) s)
                         need st in
    entries st' = entries st /\ entries_seq st' = entries_seq st /\
    last_insert_rowid st' = last_insert_rowid st /\ uploads st' = uploads st /\
    exists added,
      timesheets st' = timesheets st ++ added /\
      map content added
      = map (fun e => (Sql.Int (e_id e), Sql.Int 0, Sql.Null, Sql.Null, Sql.Null)) need.
Proof.
  induction need as [|e need IH]; intro st; simpl.
  - repeat split. exists []. now rewrite app_nil_r.
  - destruct (IH (insert_timesheet (Sql.Int (e_id e)) (Sql.Int 0) st))
      as (H1 & H2 & H3 & H4 & added & Ha & Hc).
    rewrite H1, H2, H3, H4. repeat split.
    eexists (_ :: added). split.
    + rewrite Ha. simpl. rewrite <- app_assoc. reflexivity.
    + simpl. now rewrite Hc.
Qed.

(** X24. [initializeTimesheets] keeps every stored row and every entry
    and appends, for each entry that has no row with timesheetRow 0,
    one such row with NULL roomNumber, signIn, signOut.  Afterwards
    every entry has a row 0, and running it again changes nothing. *)
Theorem initializeTimesheets_gives_row0 :
  forall (st : state),
    let st' := initializeTimesheets st in
    entries st' = entries st /\
    uploads st' = uploads st /\
    (exists added,
       timesheets st' = timesheets st ++ added /\
       map content added
       = map (fun e => (Sql.Int (e_id e), Sql.Int 0, Sql.Null, Sql.Null, Sql.Null))
             (filter (fun e => match row0_rows (e_id e) st with
                               | [] => true
                               | _ => false
                               end) (entries st))) /\
    (forall e, In e (entries st) -> row0_rows (e_id e) st' <> []) /\
    initializeTimesheets st' = st'.
Proof.
  intros st st'.
  assert (Hneed : forall s,
            filter (fun e =>
                      negb (existsb (fun r => Sql.eqb (entryId r) (Sql.Int (e_id e))
                                              && Sql.eqb (timesheetRow r) (Sql.Int 0))
                                    (timesheets s))) (entries s)
            = filter (fun e => match row0_rows (e_id e) s with
                               | [] => true
                               | _ => false
                               end) (entries s)).
  { intro s. apply filter_ext. intro e.
    pose proof (row0_rows_exists (e_id e) s) as H.
    destruct (row0_rows (e_id e) s); destruct (existsb _ _); try reflexivity.
    - destruct H as [_ H]. now elim (H eq_refl).
    - destruct H as [H _]. discriminate H. discriminate. }
  assert (Hst : entries st' = entries st /\ uploads st' = uploads st /\
                exists added,
                  timesheets st' = timesheets st ++ added /\
                  map content added
                  = map (fun e => (Sql.Int (e_id e), Sql.Int 0, Sql.Null, Sql.Null,
                                   Sql.Null))
                        (filter (fun e => match row0_rows (e_id e) st with
                                          | [] => true
                                          | _ => false
                                          end) (entries st))).
  { subst st'. unfold initializeTimesheets. cbv zeta. rewrite Hneed.
    destruct (fold_insert_row0
                (filter (fun e => match row0_rows (e_id e) st with
                                  | [] => true
                                  | _ => false
                                  end) (entries st)) st)
      as (H1 & _ & _ & H4 & added & Ha & Hc).
    destruct (filter _ (entries st)); (split; [exact H1|split; [exact H4|]]);
      exists added; now split. }
  clearbody st'. destruct Hst as (H1 & H4 & added & Ha & Hc).
  assert (Hall : forall e, In e (entries st) -> row0_rows (e_id e) st' <> []).
  { intros e He. unfold row0_rows. rewrite Ha, filter_app.
    destruct (row0_rows (e_id e) st) as [|r l] eqn:E.
    - assert (Hin : In (Sql.Int (e_id e), Sql.Int 0, Sql.Null, Sql.Null, Sql.Null)
                       (map content added)).
      { rewrite Hc. apply in_map_iff. exists e. split; [reflexivity|].
        apply filter_In. split; [exact He|]. now rewrite E. }
      apply in_map_iff in Hin. destruct Hin as (r & Hr & Hin).
      intro Habs. apply app_eq_nil in Habs. destruct Habs as [_ Habs].
      assert (Hm : In r (filter (fun r => Sql.eqb (entryId r) (Sql.Int (e_id e))
                                          && Sql.eqb (timesheetRow r) (Sql.Int 0))
                                added)).
      { apply filter_In. split; [exact Hin|]. unfold content in Hr.
        injection Hr as -> -> _ _ _. simpl. now rewrite Z.eqb_refl. }
      rewrite Habs in Hm. contradiction.
    - unfold row0_rows in E. rewrite E. discriminate. }
  repeat split; auto.
  - exists added. now split.
  - unfold initializeTimesheets. cbv zeta. rewrite Hneed, H1.
    rewrite (filter_none _ (entries st)); [reflexivity|].
    intros e He. specialize (Hall e He). now destruct (row0_rows (e_id e) st').
Qed.

(* ===================================================================== *)
(** ** Updating an entry: effect and repetition *)
(* ===================================================================== *)

Lemma map_if_twice {A : Type} (c : A -> bool) (f : A -> A) (l : list A) :
  (forall x, c (f x) = c x) -> (forall x, f (f x) = f x) ->
  map (fun x => if c x then f x else x) (map (fun x => if c x then f x else x) l)
  = map (fun x => if c x then f x else x) l.
Proof.
  intros Hc Hf. rewrite map_map. apply map_ext. intro x.
  destruct (c x) eqn:E; [now rewrite Hc, E, Hf | now rewrite E].
Qed.

(** X25. POST /update-data with a truthy id that names a stored
    entry, all fields being read exactly by the engine, answers 200
    "Entry updated" with the id; the entry then holds the submitted
    firstName, lastName and additionalText as text (a number as its
    text, absent fields NULL) and for roomNumber the integer the
    submitted number or numeral stands for (or the text itself if it
    is no numeral), with its id and image list as before.  Sending the
    same request again gives the same answer and changes nothing
    more. *)
Theorem update_data_applies :
  forall (req : update_request) (e : entry) (st : state),
    JS.truthy (u_id req) = true ->
    Sql.exact_integer (u_id req) = true ->
    Sql.exact_text (u_firstName req) = true ->
    Sql.exact_text (u_lastName req) = true ->
    Sql.exact_integer (u_roomNumber req) = true ->
    Sql.exact_text (u_additionalText req) = true ->
    In e (entries st) ->
    id_is (Sql.bind (u_id req)) (e_id e) = true ->
    let st' := fst (update_data req Ok st) in
    snd (update_data req Ok st)
    = Response 200 (UpdatedJson "Entry updated" (u_id req)) /\
    In (mkEntry (e_id e)
                (Sql.text_affinity (Sql.bind (u_firstName req)))
                (Sql.text_affinity (Sql.bind (u_lastName req)))
                (Sql.integer_affinity (Sql.bind (u_roomNumber req)))
                (Sql.text_affinity (Sql.bind (u_additionalText req)))
                (images e))
       (entries st') /\
    update_data req Ok st'
    = (st', Response 200 (UpdatedJson "Entry updated" (u_id req))).
Proof.
  intros req e st Ht _ _ _ _ _ He Hid st'.
  set (c := fun x : entry => id_is (Sql.bind (u_id req)) (e_id x)).
  set (f := set_fields (Sql.bind (u_firstName req)) (Sql.bind (u_lastName req))
                       (Sql.bind (u_roomNumber req)) (Sql.bind (u_additionalText req))).
  set (g := fun x : entry => if c x then f x else x).
  assert (Hupd : forall s x, In x (entries s) -> c x = true ->
            update_data req Ok s
            = (with_entries (map g (entries s)) s,
               Response 200 (UpdatedJson "Entry updated" (u_id req)))).
  { intros s x Hs Hx. unfold update_data, update_entry_fields. rewrite Ht. cbn [negb].
    fold c f g.
    assert (Hin : In x (filter c (entries s))) by (apply filter_In; now split).
    destruct (filter c (entries s)); [contradiction|reflexivity]. }
  assert (Hst : st' = with_entries (map g (entries st)) st)
    by (subst st'; now rewrite (Hupd st e He Hid)).
  assert (Hfe : In (f e) (entries st')).
  { rewrite Hst. cbn [entries with_entries]. apply in_map_iff. exists e.
    split; [|exact He]. unfold g. fold (c e) in Hid. now rewrite Hid. }
  split; [now rewrite (Hupd st e He Hid)|]. split; [exact Hfe|].
  rewrite (Hupd st' (f e) Hfe Hid). clearbody st'. subst st'.
  cbn [entries with_entries].
  assert (Hgg : map g (map g (entries st)) = map g (entries st))
    by (apply map_if_twice; reflexivity).
  rewrite Hgg. reflexivity.
Qed.

Lemma update_data_applies_witness :
  let req := mkUpdate (JS.Str "1.0") (JS.Num 2147483648) JS.Undefined (JS.Str "1e2")
                      (JS.Num 5) in
  entries (fst (update_data req Ok one_entry))
  = [mkEntry 1 (Sql.Text "2147483648.0") Sql.Null (Sql.Int 100) (Sql.Text "5")
             (Some [])] /\
  update_data req Ok (fst (update_data req Ok one_entry))
  = (fst (update_data req Ok one_entry),
     Response 200 (UpdatedJson "Entry updated" (JS.Str "1.0"))).
Proof.
  split; [vm_compute; reflexivity|].
  apply (update_data_applies
           (mkUpdate (JS.Str "1.0") (JS.Num 2147483648) JS.Undefined (JS.Str "1e2")
                     (JS.Num 5))
           (mkEntry 1 (Sql.Text "Alice") Sql.Null (Sql.Int 101) Sql.Null (Some []))
           one_entry);
    solve [vm_compute; reflexivity | now left].
Defined.

(* ===================================================================== *)
(** ** File names *)
(* ===================================================================== *)

(** X26. The name multer stores an upload under depends on the clock
    alone: two uploads get the same name exactly when they were named
    in the same millisecond, whatever their original names, and then
    the second write lands on the first file, so that one file is
    stored for the two. *)
Theorem same_clock_same_file :
  forall (f1 f2 : upload) (st : state),
    (filename f1 = filename f2 <-> now f1 = now f2) /\
    (now f1 = now f2 -> store_files [f1; f2] st = store_files [f1] st).
Proof.
  intros f1 f2 st. split; [apply filename_same_clock|].
  intro H. apply filename_same_clock in H. unfold store_files. simpl.
  rewrite <- H. unfold write_file at 1.
  now rewrite file_exists_written.
Qed.

(* ===================================================================== *)
(** ** Reachable states: ids and the AUTOINCREMENT counters *)
(* ===================================================================== *)

Lemma seq_step_refl (st : state) : seq_step st st.
Proof. intro H. split; [exact H|]. unfold seq_le. lia. Qed.

Lemma seq_step_trans (st1 st2 st3 : state) :
  seq_step st1 st2 -> seq_step st2 st3 -> seq_step st1 st3.
Proof.
  intros H12 H23 H. destruct (H12 H) as [H2 [Ha Hb]].
  destruct (H23 H2) as [H3 [Hc Hd]]. split; [exact H3|]. unfold seq_le. lia.
Qed.

(** A statement that adds no id and leaves the counters alone. *)
Lemma seq_step_no_new_id (st st' : state) :
  (forall z, In z (map e_id (entries st')) -> In z (map e_id (entries st))) ->
  (forall z, In z (map t_id (timesheets st')) -> In z (map t_id (timesheets st))) ->
  entries_seq st' = entries_seq st ->
  timesheets_seq st' = timesheets_seq st ->
  seq_step st st'.
Proof.
  intros He Ht Hes Hts [H1 H2]. split; [split|unfold seq_le; lia].
  - intros e Hin. rewrite Hes.
    specialize (He (e_id e) (in_map e_id _ _ Hin)).
    apply in_map_iff in He. destruct He as (e0 & <- & Hin0). now apply H1.
  - intros r Hin. rewrite Hts.
    specialize (Ht (t_id r) (in_map t_id _ _ Hin)).
    apply in_map_iff in Ht. destruct Ht as (r0 & <- & Hin0). now apply H2.
Qed.

Lemma seq_step_insert_timesheet (eid row : Sql.value) (st : state) :
  seq_step st (insert_timesheet eid row st).
Proof.
  intros [H1 H2].
  pose proof (next_rowid_above_seq (timesheets_seq st) (map t_id (timesheets st))) as Hs.
  split; [split|split]; cbn [insert_timesheet entries entries_seq timesheets
                              timesheets_seq]; try lia.
  - exact H1.
  - intros r Hin. apply in_app_iff in Hin. destruct Hin as [Hin|[<-|[]]].
    + specialize (H2 r Hin). lia.
    + cbn [t_id]. lia.
Qed.

Lemma seq_step_delete_timesheet_rows (victims : list timesheet) :
  forall st, seq_step st (delete_timesheet_rows victims st).
Proof.
  induction victims as [|v vs IH]; intro st; [apply seq_step_refl|].
  cbn [delete_timesheet_rows].
  apply (seq_step_trans _ (remove_timesheet (t_id v) st)).
  { apply seq_step_no_new_id; try reflexivity; [tauto|].
    cbn [remove_timesheet timesheets with_timesheets]. intros z Hz.
    apply in_map_iff in Hz. destruct Hz as (r & <- & Hr).
    apply filter_In in Hr. now apply in_map. }
  apply (seq_step_trans _ (after_last_timesheetRow_delete v
                             (remove_timesheet (t_id v) st))); [|apply IH].
  unfold after_last_timesheetRow_delete.
  destruct (count_timesheets _ _ =? 0)%nat;
    [apply seq_step_insert_timesheet | apply seq_step_refl].
Qed.

Lemma seq_step_delete_entry_rows (victims : list entry) :
  forall st, seq_step st (delete_entry_rows victims st).
Proof.
  induction victims as [|v vs IH]; intro st; [apply seq_step_refl|].
  cbn [delete_entry_rows].
  apply (seq_step_trans _ (remove_entry (e_id v) st)).
  { apply seq_step_no_new_id; try reflexivity; [|tauto].
    cbn [remove_entry entries with_entries]. intros z Hz.
    apply in_map_iff in Hz. destruct Hz as (e & <- & He).
    apply filter_In in He. now apply in_map. }
  apply (seq_step_trans _ (after_entry_delete v (remove_entry (e_id v) st)));
    [|apply IH].
  apply seq_step_delete_timesheet_rows.
Qed.

Lemma seq_step_insert_entry (fn ln rn txt : Sql.value) (imgs : list string)
    (st : state) :
  seq_step st (insert_entry fn ln rn txt imgs st).
Proof.
  unfold insert_entry, after_entry_insert.
  eapply seq_step_trans; [|apply seq_step_insert_timesheet].
  intros [H1 H2].
  pose proof (next_rowid_above_seq (entries_seq st) (map e_id (entries st))) as Hs.
  split; [split|split]; cbn [entries entries_seq timesheets timesheets_seq];
    try lia.
  - intros e Hin. apply in_app_iff in Hin. destruct Hin as [Hin|[<-|[]]].
    + specialize (H1 e Hin). lia.
    + cbn [e_id]. lia.
  - exact H2.
Qed.

Lemma seq_step_uploads (st st' : state) :
  entries st' = entries st -> entries_seq st' = entries_seq st ->
  timesheets st' = timesheets st -> timesheets_seq st' = timesheets_seq st ->
  seq_step st st'.
Proof.
  intros H1 H2 H3 H4. apply seq_step_no_new_id; try assumption.
  - now rewrite H1.
  - now rewrite H3.
Qed.

Lemma seq_step_multer (files : list upload) (st : state) :
  match multer files st with inl st' | inr st' => seq_step st st' end.
Proof.
  assert (Hrm : forall fs s,
            seq_step s (fold_left (fun s f => remove_file (filename f) s) fs s)).
  { induction fs as [|f fs IH]; intro s; [apply seq_step_refl|].
    cbn [fold_left]. eapply seq_step_trans; [|apply IH].
    now apply seq_step_uploads. }
  assert (Hst : forall fs s, seq_step s (store_files fs s)).
  { intros fs s. destruct (store_files_db fs s) as (H1 & H2 & H3 & H4 & _).
    now apply seq_step_uploads. }
  unfold multer. destruct (10 <? List.length files)%nat.
  - eapply seq_step_trans; [apply Hst | apply Hrm].
  - apply Hst.
Qed.

Lemma seq_step_update_entries (f : entry -> entry) (c : entry -> bool) (st : state) :
  (forall e, e_id (f e) = e_id e) ->
  seq_step st (with_entries (map (fun e => if c e then f e else e) (entries st)) st).
Proof.
  intro H. apply seq_step_no_new_id; try reflexivity; [|tauto].
  cbn [entries with_entries]. now rewrite (map_if_same_key e_id c f _ H).
Qed.

Lemma seq_step_update_timesheets (f : timesheet -> timesheet) (pe pr : Sql.value)
    (st : state) :
  (forall r, t_id (f r) = t_id r) ->
  seq_step st (fst (update_timesheets f pe pr st)).
Proof.
  intro H. apply seq_step_no_new_id; try reflexivity; [tauto|].
  cbn [update_timesheets fst timesheets with_timesheets].
  now rewrite (map_if_same_key t_id (row_is pe pr) f _ H).
Qed.

Lemma handle_seq_step (r : request) (st : state) : seq_step st (fst (handle r st)).
Proof.
  destruct r as [req f|req f|req f1 f2 f3|id f|req f1 f2|req f|req f|req f|req f|req f];
    cbn [handle].
  - unfold submit_data. pose proof (seq_step_multer (s_files req) st) as Hm.
    destruct (multer (s_files req) st) as [st1|st0]; [|exact Hm].
    destruct f; [|exact Hm]. cbn [fst].
    eapply seq_step_trans; [exact Hm | apply seq_step_insert_entry].
  - unfold update_data. destruct (negb (JS.truthy (u_id req))); [apply seq_step_refl|].
    destruct f; [|apply seq_step_refl]. unfold update_entry_fields.
    match goal with |- context [(0 <? ?n)%nat] => destruct (0 <? n)%nat end;
      cbn [fst]; now apply seq_step_update_entries.
  - unfold delete_image. destruct (di_imageName req); try apply seq_step_refl.
    unfold unlink. destruct (Str.mem "000" _); [apply seq_step_refl|].
    destruct f1; [|apply seq_step_refl].
    destruct (is_directory _); [apply seq_step_refl|].
    destruct (file_exists _ st); [|apply seq_step_refl].
    assert (Hrm : seq_step st (remove_file (JS.basename s) st))
      by now apply seq_step_uploads.
    destruct f2; [|exact Hrm].
    destruct (select_entry _ _); [|exact Hrm].
    destruct f3; [|exact Hrm]. cbn [fst].
    eapply seq_step_trans; [exact Hrm|].
    unfold update_entry_images. now apply seq_step_update_entries.
  - unfold delete_data. destruct (JS.parseInt id); [|apply seq_step_refl].
    destruct f; [|apply seq_step_refl]. unfold delete_entries_where_id.
    match goal with |- context [(0 <? ?n)%nat] => destruct (0 <? n)%nat end;
      cbn [fst]; apply seq_step_delete_entry_rows.
  - unfold add_image. pose proof (seq_step_multer (ai_files req) st) as Hm.
    destruct (multer (ai_files req) st) as [st1|st0]; [|exact Hm].
    destruct (ai_files req); [exact Hm|].
    destruct f1; [|exact Hm]. destruct f2; [|exact Hm]. cbn [fst].
    eapply seq_step_trans; [exact Hm|].
    unfold update_entry_images. now apply seq_step_update_entries.
  - unfold newRow. destruct f; [|apply seq_step_refl].
    unfold insert_timesheet_values.
    pose proof (seq_step_insert_timesheet
                  (Sql.integer_affinity (Sql.bind (r_entryId req)))
                  (Sql.integer_affinity (Sql.bind (r_timesheetRow req))) st) as Hi.
    destruct (Sql.bind (r_entryId req)); [apply seq_step_refl| | |];
      (destruct (Sql.bind (r_timesheetRow req)); [apply seq_step_refl| | |]);
      exact Hi.
  - unfold signIn. destruct f; [|apply seq_step_refl]. cbn [fst].
    now apply seq_step_update_timesheets.
  - unfold signOut. destruct f; [|apply seq_step_refl].
    pose proof (seq_step_update_timesheets (set_signOut (Sql.bind (r_signOut req)))
                  (Sql.bind (r_entryId req)) (Sql.bind (r_timesheetRow req)) st
                  (fun _ => eq_refl)) as Hu.
    destruct (update_timesheets _ _ _ st) as [s c]. cbn [fst] in Hu.
    now destruct (0 <? c)%nat.
  - unfold deleteRow. destruct f; [|apply seq_step_refl]. cbn [fst].
    apply seq_step_delete_timesheet_rows.
  - unfold updateRow. destruct f; [|apply seq_step_refl]. cbn [fst].
    now apply seq_step_update_timesheets.
Qed.

Lemma reachable_ids_below_seq (st : state) : reachable st -> ids_below_seq st.
Proof.
  induction 1 as [|r st _ IH].
  - split; intros x [].
  - now apply (handle_seq_step r st).
Qed.

(** X27. In every state the server can reach from the empty database,
    whatever requests and faults led there: no two entries and no two
    TimesheetRows share an id, and every stored entry has at least one
    TimesheetRow. *)
Theorem reachable_state_consistent :
  forall (st : state),
    reachable st ->
    NoDup (map e_id (entries st)) /\
    NoDup (map t_id (timesheets st)) /\
    (forall e, In e (entries st) ->
               exists r, In r (timesheets st) /\ entryId r = Sql.Int (e_id e)).
Proof.
  intros st H. destruct (reachable_invariant st H) as [[H1 H2] H3].
  split; [exact H1|]. split; [exact H2|]. exact H3.
Qed.

Lemma reachable_state_consistent_witness :
  NoDup (map e_id (entries one_entry)) /\
  NoDup (map t_id (timesheets one_entry)) /\
  (forall e, In e (entries one_entry) ->
             exists r, In r (timesheets one_entry) /\ entryId r = Sql.Int (e_id e)).
Proof.
  apply (reachable_state_consistent one_entry).
  exact (reachable_step (SubmitData alice Ok) init reachable_init).
Defined.

Lemma run_reachable (rs : list request) :
  forall st, reachable st -> reachable (run rs st).
Proof.
  induction rs as [|r rs IH]; intros st H; [exact H|].
  apply (IH (fst (handle r st))). now constructor.
Qed.

Lemma run_seq_step (rs : list request) : forall st, seq_step st (run rs st).
Proof.
  induction rs as [|r rs IH]; intro st; [apply seq_step_refl|].
  apply (seq_step_trans _ (fst (handle r st))); [apply handle_seq_step | apply IH].
Qed.

(** X28. Ids are never handed out twice.  In every reachable state the
    stored ids of each table are at most the table's AUTOINCREMENT
    counter, and no sequence of further requests lowers a counter.  An
    accepted POST /submit-data gives the new entry the id counter + 1
    and reports it; that id is above the id of every entry that was
    stored at any earlier time, whether or not it has been deleted
    since. *)
Theorem ids_never_reused :
  forall (st : state),
    reachable st ->
    ids_below_seq st /\
    (forall rs, seq_le st (run rs st)) /\
    (forall rs req old,
       In old (entries st) ->
       (List.length (s_files req) <= 10)%nat ->
       let st1 := run rs st in
       let st' := fst (submit_data req Ok st1) in
       exists e, entries st' = entries st1 ++ [e] /\
                 e_id e = entries_seq st1 + 1 /\
                 entries_seq st' = e_id e /\
                 last_insert_rowid st' = e_id e /\
                 e_id old < e_id e).
Proof.
  intros st H. pose proof (reachable_ids_below_seq st H) as Hinv.
  split; [exact Hinv|]. split.
  - intro rs. now apply (run_seq_step rs st).
  - intros rs req old Hold Hlen st1 st'.
    destruct (run_seq_step rs st Hinv) as [Hinv1 [Hle _]]. fold st1 in Hinv1, Hle.
    subst st'. clearbody st1. unfold submit_data, multer.
    assert (Hn : (10 <? List.length (s_files req))%nat = false)
      by (apply Nat.ltb_ge; lia).
    rewrite Hn. cbn [fst].
    destruct (store_files_db (s_files req) st1) as (H1 & H2 & H3 & H4 & _).
    unfold insert_entry, after_entry_insert, insert_timesheet.
    cbn [last_insert_rowid entries_seq entries]. rewrite H1, H2.
    assert (Hid : next_rowid (entries_seq st1) (map e_id (entries st1))
                  = entries_seq st1 + 1).
    { unfold next_rowid. rewrite fold_max_below; [reflexivity|].
      intros x Hx. apply in_map_iff in Hx. destruct Hx as (e & <- & He).
      now apply (proj1 Hinv1). }
    rewrite Hid. eexists. split; [reflexivity|]. cbn [e_id].
    repeat split. pose proof (proj1 Hinv old Hold). lia.
Qed.

Lemma ids_never_reused_witness :
  ids_below_seq one_entry /\
  (forall rs, seq_le one_entry (run rs one_entry)) /\
  (forall rs req old,
     In old (entries one_entry) ->
     (List.length (s_files req) <= 10)%nat ->
     let st1 := run rs one_entry in
     let st' := fst (submit_data req Ok st1) in
     exists e, entries st' = entries st1 ++ [e] /\
               e_id e = entries_seq st1 + 1 /\
               entries_seq st' = e_id e /\
               last_insert_rowid st' = e_id e /\
               e_id old < e_id e).
Proof.
  apply (ids_never_reused one_entry).
  exact (reachable_step (SubmitData alice Ok) init reachable_init).
Defined.
